(** * suspension_designer: geometry primitives and the double-wishbone
      design generator

    A shallow embedding of
      - [src/suspension_designer/geometry.py] (lerp, Line, Plane,
        vector_alignment_rotation, skew_symmetric_matrix),
      - [src/Python/Resources/GeometrySolvers.py] (ThreePointPlane,
        PointProjection),
      - [src/Python/DoubleWishbone.py] (Init, Design),
      - [src/Python/KinematicSystem.py] (GenerateDesign).

    Numbers.  The program computes with numpy [float64].  They are
    idealised here as the real numbers of the Standard Library, so every
    equation below is an exact one about the formulas the code evaluates.
    Where a claim depends on what numpy does on a division by zero (it
    returns [inf] or [nan] and only warns), the embedding says so through
    the constructor [NonFinite] instead of using the total division of
    [R]. *)

From Stdlib Require Import Reals Lra List String Ascii Bool Arith Lia.
Import ListNotations.

Local Open Scope R_scope.

(* ===================================================================== *)
(** * Python outcomes *)
(* ===================================================================== *)

(** The exceptions the modelled code can raise. [AxleNotRecognized] is the
    plain [Exception] raised by [Design] for an unknown axle label. *)
Inductive exn : Type :=
| AxleNotRecognized
| TypeError
| IndexError
| ValueError
| KeyError
| AttributeError
| UnboundLocalError
| LinAlgError.

Inductive outcome (A : Type) : Type :=
| Ok (a : A)
| Raise (e : exn).
Arguments Ok {A} a.
Arguments Raise {A} e.

(** A numpy result: either an array of finite numbers, or an array that
    holds [inf]/[nan] because a division by zero occurred (numpy returns
    such an array with a RuntimeWarning; nothing is raised). *)
Inductive np_float (A : Type) : Type :=
| Finite (a : A)
| NonFinite.
Arguments Finite {A} a.
Arguments NonFinite {A}.

(** [x == y] on floats, idealised. *)
Definition Reqb (x y : R) : bool :=
  if Req_EM_T x y then true else false.

(* ===================================================================== *)
(** * Module Geometry: [src/suspension_designer/geometry.py] *)
(* ===================================================================== *)

Module Geometry.

(** A 3-array [v], read as [v[0]], [v[1]], [v[2]]. *)
Record vec3 : Type := V3 { v0 : R; v1 : R; v2 : R }.

(** A (3,3) array, by rows. *)
Record mat33 : Type := M33 { r0 : vec3; r1 : vec3; r2 : vec3 }.

Definition vadd (a b : vec3) : vec3 :=
  V3 (v0 a + v0 b) (v1 a + v1 b) (v2 a + v2 b).

Definition vsub (a b : vec3) : vec3 :=
  V3 (v0 a - v0 b) (v1 a - v1 b) (v2 a - v2 b).

(** [k * v] for a scalar [k]. *)
Definition vscale (k : R) (a : vec3) : vec3 :=
  V3 (k * v0 a) (k * v1 a) (k * v2 a).

Definition vneg (a : vec3) : vec3 := V3 (- v0 a) (- v1 a) (- v2 a).

(** [np.dot] on two 3-arrays. *)
Definition dot (a b : vec3) : R :=
  v0 a * v0 b + v1 a * v1 b + v2 a * v2 b.

(** [np.cross] on two 3-arrays. *)
Definition cross (a b : vec3) : vec3 :=
  V3 (v1 a * v2 b - v2 a * v1 b)
     (v2 a * v0 b - v0 a * v2 b)
     (v0 a * v1 b - v1 a * v0 b).

(** [np.linalg.norm] on a 3-array. *)
Definition norm (a : vec3) : R := sqrt (dot a a).

Definition madd (A B : mat33) : mat33 :=
  M33 (vadd (r0 A) (r0 B)) (vadd (r1 A) (r1 B)) (vadd (r2 A) (r2 B)).

Definition mneg (A : mat33) : mat33 :=
  M33 (vneg (r0 A)) (vneg (r1 A)) (vneg (r2 A)).

(** [A / k]: every entry divided by the scalar [k]. *)
Definition mdiv (A : mat33) (k : R) : mat33 :=
  M33 (V3 (v0 (r0 A) / k) (v1 (r0 A) / k) (v2 (r0 A) / k))
      (V3 (v0 (r1 A) / k) (v1 (r1 A) / k) (v2 (r1 A) / k))
      (V3 (v0 (r2 A) / k) (v1 (r2 A) / k) (v2 (r2 A) / k)).

Definition transpose (A : mat33) : mat33 :=
  M33 (V3 (v0 (r0 A)) (v0 (r1 A)) (v0 (r2 A)))
      (V3 (v1 (r0 A)) (v1 (r1 A)) (v1 (r2 A)))
      (V3 (v2 (r0 A)) (v2 (r1 A)) (v2 (r2 A))).

(** [A @ u]: matrix applied to a vector. *)
Definition mapply (A : mat33) (u : vec3) : vec3 :=
  V3 (dot (r0 A) u) (dot (r1 A) u) (dot (r2 A) u).

(** [A @ B]. *)
Definition mmul (A B : mat33) : mat33 :=
  let Bt := transpose B in
  M33 (V3 (dot (r0 A) (r0 Bt)) (dot (r0 A) (r1 Bt)) (dot (r0 A) (r2 Bt)))
      (V3 (dot (r1 A) (r0 Bt)) (dot (r1 A) (r1 Bt)) (dot (r1 A) (r2 Bt)))
      (V3 (dot (r2 A) (r0 Bt)) (dot (r2 A) (r1 Bt)) (dot (r2 A) (r2 Bt))).

(** [np.eye(3)]. *)
Definition eye3 : mat33 :=
  M33 (V3 1 0 0) (V3 0 1 0) (V3 0 0 1).

(** ** skew_symmetric_matrix (geometry.py, 382-394)
<<
    return np.array([[ 0   , -v[2],  v[1]],
                     [ v[2],  0   , -v[0]],
                     [-v[1],  v[0],  0   ]])
>> *)
Definition skew_symmetric_matrix (v : vec3) : mat33 :=
  M33 (V3 0        (- v2 v) (v1 v))
      (V3 (v2 v)   0        (- v0 v))
      (V3 (- v1 v) (v0 v)   0).

(** ** vector_alignment_rotation (geometry.py, 361-379)
<<
    v = np.cross(v_A, v_B)
    c = np.dot(v_A, v_B)
    v_skew = skew_symmetric_matrix(v)
    R = np.eye(3) + v_skew + (v_skew @ v_skew) / (1 + c)
    return sptl.Rotation.from_matrix(R)
>>
    The function has one path: no normalisation of the inputs and no test
    on [1 + c]. *)

(** The array [R] where [1 + c] is not zero. *)
Definition alignment_matrix (v_A v_B : vec3) : mat33 :=
  let v := cross v_A v_B in
  let c := dot v_A v_B in
  let v_skew := skew_symmetric_matrix v in
  madd (madd eye3 v_skew) (mdiv (mmul v_skew v_skew) (1 + c)).

(** The array [R].  When [1 + c] is zero every entry of
    [(v_skew @ v_skew) / (1 + c)] is a division by zero, so every entry of
    [R] is [inf] or [nan]: [NonFinite]. *)
Definition matrix_R (v_A v_B : vec3) : np_float mat33 :=
  if Reqb (1 + dot v_A v_B) 0 then NonFinite
  else Finite (alignment_matrix v_A v_B).

(** *** scipy's Rotation.from_matrix

    A [Rotation] is represented by its matrix ([as_matrix]); [apply] is
    then [mapply].  scipy is not part of the repository, and the singular
    value decomposition it uses is no closed formula: what [from_matrix]
    does is given as a relation between the array it receives and the
    outcome of the call.  It refuses a matrix whose determinant is not
    positive (ValueError); it keeps a proper orthogonal matrix and
    replaces any other by [U @ Vt] from its singular value decomposition,
    which is the rotation matrix nearest to it in the Frobenius norm; on
    an array that holds [nan] or [inf] the decomposition does not
    converge and [np.linalg.svd] raises LinAlgError. *)

(** The determinant of a (3,3) array. *)
Definition det3 (A : mat33) : R :=
  v0 (r0 A) * (v1 (r1 A) * v2 (r2 A) - v2 (r1 A) * v1 (r2 A))
  - v1 (r0 A) * (v0 (r1 A) * v2 (r2 A) - v2 (r1 A) * v0 (r2 A))
  + v2 (r0 A) * (v0 (r1 A) * v1 (r2 A) - v1 (r1 A) * v0 (r2 A)).

(** A proper orthogonal matrix, the matrix of a rotation. *)
Definition proper_orthogonal (A : mat33) : Prop :=
  mmul (transpose A) A = eye3 /\ det3 A = 1.

(** The square of the Frobenius norm of [A - B]. *)
Definition dist2 (A B : mat33) : R :=
  dot (vsub (r0 A) (r0 B)) (vsub (r0 A) (r0 B))
  + dot (vsub (r1 A) (r1 B)) (vsub (r1 A) (r1 B))
  + dot (vsub (r2 A) (r2 B)) (vsub (r2 A) (r2 B)).

(** [Q] is a rotation matrix and no rotation matrix is nearer to [A]. *)
Definition nearest_rotation (A Q : mat33) : Prop :=
  proper_orthogonal Q
  /\ forall Q' : mat33, proper_orthogonal Q' -> dist2 A Q <= dist2 A Q'.

Inductive from_matrix : np_float mat33 -> outcome mat33 -> Prop :=
| from_matrix_nearest (A Q : mat33) :
    0 < det3 A -> nearest_rotation A Q -> from_matrix (Finite A) (Ok Q)
| from_matrix_non_positive (A : mat33) :
    det3 A <= 0 -> from_matrix (Finite A) (Raise ValueError)
| from_matrix_non_finite :
    from_matrix NonFinite (Raise LinAlgError).

(** [vector_alignment_rotation v_A v_B o]: the call ends with [o], a
    rotation returned or an exception raised. *)
Definition vector_alignment_rotation (v_A v_B : vec3) (o : outcome mat33)
  : Prop :=
  from_matrix (matrix_R v_A v_B) o.

(** ** lerp (geometry.py, 24-39)
<<
    return point_A*(1-alpha) + point_B*alpha
>>
    on two arrays of one shape. *)
Definition lerp (point_A point_B : list R) (alpha : R) : list R :=
  map (fun ab => fst ab * (1 - alpha) + snd ab * alpha) (combine point_A point_B).

(** Elementwise difference and [np.dot], [np.linalg.norm] on 1-d arrays of
    one shape. *)
Definition lsub (a b : list R) : list R :=
  map (fun ab => fst ab - snd ab) (combine a b).

Definition ladd (a b : list R) : list R :=
  map (fun ab => fst ab + snd ab) (combine a b).

Definition ldot (a b : list R) : R :=
  fold_right Rplus 0 (map (fun ab => fst ab * snd ab) (combine a b)).

Definition lnorm (a : list R) : R := sqrt (ldot a a).

(** ** class Line (geometry.py, 42-93)
<<
    self.point = np.array([point_A, point_B])
    self.basis = (point_B - point_A) / np.linalg.norm(point_B - point_A)
    self.dimension = self.point.shape[-1]
>> *)
Record Line : Type := mkLine {
  Line_point     : list R * list R;
  Line_basis     : list R;
  Line_dimension : nat
}.

Definition Line_init (point_A point_B : list R) : Line :=
  let d := lsub point_B point_A in
  mkLine (point_A, point_B) (map (fun x => x / lnorm d) d) (List.length point_B).

(** Line.__call__ (geometry.py, 57-71)
<<
    alpha = (query - self.point[0][index]) \
        / (self.point[1][index] - self.point[0][index])
    return lerp(self.point[0], self.point[1], alpha)
>>
    Indexing past the end raises IndexError.  The entries are [float64], so
    a zero denominator raises nothing: [alpha] is [inf] or [nan] and so is
    every entry of the array returned. *)
Definition Line_call (self : Line) (query : R) (index : nat)
  : outcome (np_float (list R)) :=
  let p0 := fst (Line_point self) in
  let p1 := snd (Line_point self) in
  match nth_error p0 index, nth_error p1 index with
  | Some a, Some b =>
      if Reqb (b - a) 0 then Ok NonFinite
      else Ok (Finite (lerp p0 p1 ((query - a) / (b - a))))
  | _, _ => Raise IndexError
  end.

(** Line.proj and Line.perp (geometry.py, 73-93). *)
Definition Line_proj (self : Line) (point : list R) : list R :=
  let p0 := fst (Line_point self) in
  ladd p0 (map (fun x => ldot (lsub point p0) (Line_basis self) * x)
               (Line_basis self)).

Definition Line_perp (self : Line) (point : list R) : list R :=
  lsub point (Line_proj self point).

(** ** class Plane (geometry.py, 95-188)

    [null_space] is the 4-array [(a, b, c, d)] that
    [scipy.linalg.null_space] returns for the matrix whose rows are
    [(x, y, z, 1)] for the three points: a vector of unit length with
    [a*x + b*y + c*z + d = 0] at each point.  scipy is not part of the
    repository; [Plane_valid] states this contract, and the constructor
    takes the vector as an argument. *)
Record vec4 : Type := V4 { w0 : R; w1 : R; w2 : R; w3 : R }.

Record Plane : Type := mkPlane {
  Plane_point      : vec3 * vec3 * vec3;
  Plane_null_space : vec4
}.

(** [null_space[:3]]. *)
Definition head3 (w : vec4) : vec3 := V3 (w0 w) (w1 w) (w2 w).

(** [self.n = self.null_space[:3] / np.linalg.norm(self.null_space[:3])] *)
Definition Plane_n (self : Plane) : vec3 :=
  let m := head3 (Plane_null_space self) in
  V3 (v0 m / norm m) (v1 m / norm m) (v2 m / norm m).

(** The implicit equation of the plane at a point. *)
Definition plane_eq (w : vec4) (p : vec3) : R :=
  w0 w * v0 p + w1 w * v1 p + w2 w * v2 p + w3 w.

Definition Plane_valid (self : Plane) : Prop :=
  let '(pA, pB, pC) := Plane_point self in
  let w := Plane_null_space self in
  w0 w * w0 w + w1 w * w1 w + w2 w * w2 w + w3 w * w3 w = 1
  /\ plane_eq w pA = 0 /\ plane_eq w pB = 0 /\ plane_eq w pC = 0.

(** A 1-d array of three entries satisfies the plane's equation. *)
Definition on_plane (self : Plane) (p : list R) : Prop :=
  match p with
  | [x; y; z] => plane_eq (Plane_null_space self) (V3 x y z) = 0
  | _ => False
  end.

(** [np.argmin] on a flattened array: the first index of a least entry. *)
Fixpoint argmin_from (best : R) (ibest i : nat) (l : list R) : nat :=
  match l with
  | [] => ibest
  | x :: l' =>
      if Rlt_dec x best then argmin_from x i (S i) l'
      else argmin_from best ibest (S i) l'
  end.

Definition argmin (l : list R) : nat :=
  match l with
  | [] => 0%nat
  | x :: l' => argmin_from x 0 1 l'
  end.

(** Column [j] of a row of [A]. *)
Definition col (w : vec4) (j : nat) : R :=
  match j with
  | 0%nat => w0 w
  | 1%nat => w1 w
  | 2%nat => w2 w
  | _ => w3 w
  end.

(** [np.linalg.solve] on a 2x2 system [[p q] [r s]] x = (e, f): raises
    LinAlgError on a singular matrix. *)
Definition solve2 (p q r s : R) (e f : R) : outcome (R * R) :=
  let det := p * s - q * r in
  if Reqb det 0 then Raise LinAlgError
  else Ok ((e * s - q * f) / det, (p * f - r * e) / det).

(** Plane.intersection (geometry.py, 147-166)
<<
    A = np.array([self.null_space, other.null_space])
    j = np.unravel_index(np.argmin(np.abs(A[:,:3])), A[:,:3].shape)[1]

    Ar = A[:,[jj for jj in range(3) if jj != j]]
    b0 = A[:,-1]
    b1 = A[:,-1] + A[:,j]

    point_A = np.insert(np.linalg.solve(Ar, -b0), 0, 0)
    point_B = np.insert(np.linalg.solve(Ar, -b1), 0, 1)

    return Line(point_A, point_B)
>>
    [np.insert(x, 0, k)] puts [k] in front of [x], whatever [j] is. *)
Definition eliminated_axis (w_self w_other : vec4) : nat :=
  Nat.modulo
    (argmin [Rabs (w0 w_self); Rabs (w1 w_self); Rabs (w2 w_self);
             Rabs (w0 w_other); Rabs (w1 w_other); Rabs (w2 w_other)]) 3.

(** The two columns kept in [Ar]. *)
Definition kept_columns (j : nat) : nat * nat :=
  match j with
  | 0%nat => (1%nat, 2%nat)
  | 1%nat => (0%nat, 2%nat)
  | _ => (0%nat, 1%nat)
  end.

Definition Plane_intersection (self other : Plane) : outcome Line :=
  let w := Plane_null_space self in
  let u := Plane_null_space other in
  let j := eliminated_axis w u in
  let '(k, l) := kept_columns j in
  match solve2 (col w k) (col w l) (col u k) (col u l)
               (- w3 w) (- w3 u) with
  | Raise e => Raise e
  | Ok (a0, a1) =>
      match solve2 (col w k) (col w l) (col u k) (col u l)
                   (- (w3 w + col w j)) (- (w3 u + col u j)) with
      | Raise e => Raise e
      | Ok (b0, b1) => Ok (Line_init [0; a0; a1] [1; b0; b1])
      end
  end.

(** Plane.proj and Plane.perp (geometry.py, 168-188)
<<
    def proj(self, point):  return point - self.perp(point)
    def perp(self, point):
        return self.point[0] + np.dot(point - self.point[0], self.n) * self.n
>> *)
Definition Plane_point0 (self : Plane) : vec3 :=
  fst (fst (Plane_point self)).

Definition Plane_perp (self : Plane) (point : vec3) : vec3 :=
  vadd (Plane_point0 self)
       (vscale (dot (vsub point (Plane_point0 self)) (Plane_n self))
               (Plane_n self)).

Definition Plane_proj (self : Plane) (point : vec3) : vec3 :=
  vsub point (Plane_perp self point).

End Geometry.


(* ===================================================================== *)
(** * Module GeometrySolvers: [src/Python/Resources/GeometrySolvers.py] *)
(* ===================================================================== *)

Module GeometrySolvers.
Import Geometry.

Local Open Scope string_scope.

(** What [ThreePointPlane] returns: the unit normal, an array that is
    non-finite when the three points are collinear, or a function of two
    coordinates whose value is non-finite when it divides by zero. *)
Inductive plane_form : Type :=
| Normal (n : np_float vec3)
| Graph (P : R -> R -> np_float R).

(** The normal before it is divided by its length. *)
Definition raw_normal (p1 p2 p3 : vec3) : vec3 :=
  cross (vsub p1 p2) (vsub p1 p3).

(** [n = n / np.linalg.norm(n)], where the length is not zero. *)
Definition unit_normal (p1 p2 p3 : vec3) : vec3 :=
  let n := raw_normal p1 p2 p3 in
  V3 (v0 n / norm n) (v1 n / norm n) (v2 n / norm n).

(** ThreePointPlane (GeometrySolvers.py, 7-23)
<<
    n = np.cross(p1-p2,p1-p3)
    n = n / np.linalg.norm(n)

    if Form == 'n':
        P = n
    elif Form == 'x':
        P = lambda y,z: -(n[1]*(y-p1[1]) + n[2]*(z-p1[2]))/n[0] + p1[0]
    elif Form == 'y':
        P = lambda x,z: -(n[0]*(x-p1[0]) + n[2]*(z-p1[2]))/n[1] + p1[1]
    elif Form == 'z':
        P = lambda x,y: -(n[0]*(x-p1[0]) + n[1]*(y-p1[1]))/n[2] + p1[2]

    return P
>>
    With any other [Form] the name [P] is not bound at [return P]. *)
Definition ThreePointPlane (p1 p2 p3 : vec3) (Form : string)
  : outcome plane_form :=
  let degenerate := Reqb (norm (raw_normal p1 p2 p3)) 0 in
  let n := unit_normal p1 p2 p3 in
  if Form =? "n" then
    Ok (Normal (if degenerate then NonFinite else Finite n))
  else if Form =? "x" then
    Ok (Graph (fun y z =>
      if degenerate || Reqb (v0 n) 0 then NonFinite
      else Finite (- (v1 n * (y - v1 p1) + v2 n * (z - v2 p1)) / v0 n + v0 p1)))
  else if Form =? "y" then
    Ok (Graph (fun x z =>
      if degenerate || Reqb (v1 n) 0 then NonFinite
      else Finite (- (v0 n * (x - v0 p1) + v2 n * (z - v2 p1)) / v1 n + v1 p1)))
  else if Form =? "z" then
    Ok (Graph (fun x y =>
      if degenerate || Reqb (v2 n) 0 then NonFinite
      else Finite (- (v0 n * (x - v0 p1) + v1 n * (y - v1 p1)) / v2 n + v2 p1)))
  else Raise UnboundLocalError.

(** PointProjection (GeometrySolvers.py, 26-38)
<<
    if Type == 'Line':
        proj = p0 + np.dot(v0,p-p0)/np.dot(v0,v0)*v0
    elif Type == 'Plane':
        dist = np.dot(v0,p) - np.dot(v0,p0)
        proj = p - dist*v0

    return proj
>> *)
Definition PointProjection (Type_ : string) (v0_ p0 p : vec3)
  : outcome (np_float vec3) :=
  if Type_ =? "Line" then
    if Reqb (dot v0_ v0_) 0 then Ok NonFinite
    else Ok (Finite (vadd p0 (vscale (dot v0_ (vsub p p0) / dot v0_ v0_) v0_)))
  else if Type_ =? "Plane" then
    let dist := dot v0_ p - dot v0_ p0 in
    Ok (Finite (vsub p (vscale dist v0_)))
  else Raise UnboundLocalError.

End GeometrySolvers.

(* ===================================================================== *)
(** * Module DoubleWishbone: [src/Python/DoubleWishbone.py] and
      [src/Python/KinematicSystem.py] *)
(* ===================================================================== *)

Module DoubleWishbone.
Import Geometry.

Local Open Scope string_scope.

(** ** Values and arrays *)

(** A (3,1) array such as a [Position] or a [Rotation] is a [vec3]; entry
    [i] is the row [a[i]], an array of one number. *)
Definition set0 (x : R) (a : vec3) : vec3 := V3 x (v1 a) (v2 a).
Definition set1 (x : R) (a : vec3) : vec3 := V3 (v0 a) x (v2 a).
Definition set2 (x : R) (a : vec3) : vec3 := V3 (v0 a) (v1 a) x.

Definition zeros31 : vec3 := V3 0 0 0.

(** What a Target entry such as [CG] may hold: a plain number (the driver
    script stores [8.50*(25.4)]) or a 1-d array of numbers. *)
Inductive value : Type :=
| Num (x : R)
| Arr (xs : list R).

(** [v[i]]: a number cannot be subscripted (TypeError); an array raises
    IndexError past its end. *)
Definition getitem (v : value) (i : nat) : outcome R :=
  match v with
  | Num _ => Raise TypeError
  | Arr xs =>
      match nth_error xs i with
      | Some x => Ok x
      | None => Raise IndexError
      end
  end.

(** [v * k / 100], elementwise on an array. *)
Definition value_percent (v : value) (k : R) : value :=
  match v with
  | Num x => Num (x * k / 100)
  | Arr xs => Arr (map (fun x => x * k / 100) xs)
  end.

(** [a[i] = v] for a (3,1) array [a]: the target [a[i]] has shape (1,), so
    [v] must be a number or an array of one number; numpy refuses to
    broadcast any other shape (ValueError). *)
Definition broadcast_to_entry (v : value) : outcome R :=
  match v with
  | Num x => Ok x
  | Arr [x] => Ok x
  | Arr _ => Raise ValueError
  end.

(** A (3,2) Bound array: one [(min, max)] row per axis. *)
Record mat32 : Type := M32 { row0 : R * R; row1 : R * R; row2 : R * R }.

(** [M[:,[0]]] and [np.diff(M)], both of shape (3,1). *)
Definition first_column (M : mat32) : vec3 :=
  V3 (fst (row0 M)) (fst (row1 M)) (fst (row2 M)).

Definition diff (M : mat32) : vec3 :=
  V3 (snd (row0 M) - fst (row0 M))
     (snd (row1 M) - fst (row1 M))
     (snd (row2 M) - fst (row2 M)).

(** Elementwise product of two (3,1) arrays. *)
Definition vmul (a b : vec3) : vec3 :=
  V3 (v0 a * v0 b) (v1 a * v1 b) (v2 a * v2 b).

(** [all(row == 0)] on a row of a Bound array. *)
Definition all_zero (row : R * R) : bool :=
  Reqb (fst row) 0 && Reqb (snd row) 0.

(** Entry and row access by axis index 0, 1, 2. *)
Definition entry (a : vec3) (i : nat) : R :=
  match i with 0%nat => v0 a | 1%nat => v1 a | _ => v2 a end.

Definition row (M : mat32) (i : nat) : R * R :=
  match i with 0%nat => row0 M | 1%nat => row1 M | _ => row2 M end.

Definition set_row0 (r : R * R) (M : mat32) : mat32 := M32 r (row1 M) (row2 M).
Definition set_row1 (r : R * R) (M : mat32) : mat32 := M32 (row0 M) r (row2 M).

(** ** The eight hardpoints of the linkage

    [Bound['Linkage']] and [Sample['Linkage']] are dictionaries over the
    same eight keys, all written as string literals in the source. *)
Inductive hardpoint : Type := LAF | LAR | UAF | UAR | TA | LB | UB | TB.

Definition name (P : hardpoint) : string :=
  match P with
  | LAF => "LAF" | LAR => "LAR" | UAF => "UAF" | UAR => "UAR" | TA => "TA"
  | LB => "LB" | UB => "UB" | TB => "TB"
  end.

Record table (A : Type) : Type := mkTable {
  t_LAF : A; t_LAR : A; t_UAF : A; t_UAR : A; t_TA : A;
  t_LB : A; t_UB : A; t_TB : A
}.
Arguments mkTable {A}.
Arguments t_LAF {A}.
Arguments t_LAR {A}.
Arguments t_UAF {A}.
Arguments t_UAR {A}.
Arguments t_TA {A}.
Arguments t_LB {A}.
Arguments t_UB {A}.
Arguments t_TB {A}.

Definition lookup {A} (t : table A) (P : hardpoint) : A :=
  match P with
  | LAF => t_LAF t | LAR => t_LAR t | UAF => t_UAF t | UAR => t_UAR t
  | TA => t_TA t | LB => t_LB t | UB => t_UB t | TB => t_TB t
  end.

Definition update {A} (P : hardpoint) (x : A) (t : table A) : table A :=
  match P with
  | LAF => mkTable x (t_LAR t) (t_UAF t) (t_UAR t) (t_TA t) (t_LB t) (t_UB t) (t_TB t)
  | LAR => mkTable (t_LAF t) x (t_UAF t) (t_UAR t) (t_TA t) (t_LB t) (t_UB t) (t_TB t)
  | UAF => mkTable (t_LAF t) (t_LAR t) x (t_UAR t) (t_TA t) (t_LB t) (t_UB t) (t_TB t)
  | UAR => mkTable (t_LAF t) (t_LAR t) (t_UAF t) x (t_TA t) (t_LB t) (t_UB t) (t_TB t)
  | TA => mkTable (t_LAF t) (t_LAR t) (t_UAF t) (t_UAR t) x (t_LB t) (t_UB t) (t_TB t)
  | LB => mkTable (t_LAF t) (t_LAR t) (t_UAF t) (t_UAR t) (t_TA t) x (t_UB t) (t_TB t)
  | UB => mkTable (t_LAF t) (t_LAR t) (t_UAF t) (t_UAR t) (t_TA t) (t_LB t) x (t_TB t)
  | TB => mkTable (t_LAF t) (t_LAR t) (t_UAF t) (t_UAR t) (t_TA t) (t_LB t) (t_UB t) x
  end.

(** ** Target *)

(** [WeightDist] holds two percentages, [%F, %L] in the driver script:
    entry 0 is the front weight fraction. *)
Record VehicleTarget : Type := mkVehicle {
  Wheelbase    : R;
  WeightDist   : R * R;
  SprungMass   : R;
  CG           : value;
  Ride         : R;
  Rake         : R;
  LoadedRadius : R
}.

Record TypeTarget : Type := mkType {
  Axle         : string;
  Linkage      : string;
  Strut        : string;
  Spring       : list string
}.

(** [FVSA] is no key of the Target the caller supplies; [Design] adds it. *)
Record LinkageTarget : Type := mkLinkage {
  Track       : R;
  Toe         : R;
  PitchCenter : R;
  Caster      : R;
  CasterGain  : R;
  RollCenter  : R;
  Camber      : R;
  CamberGain  : R;
  Scrub       : R;
  KPI         : R;
  FVSA        : option R
}.

Record TargetT : Type := mkTarget {
  Vehicle   : VehicleTarget;
  Type_     : TypeTarget;
  Linkage_  : LinkageTarget
}.

Definition set_FVSA (x : R) (t : TargetT) : TargetT :=
  let l := Linkage_ t in
  mkTarget (Vehicle t) (Type_ t)
    (mkLinkage (Track l) (Toe l) (PitchCenter l) (Caster l) (CasterGain l)
               (RollCenter l) (Camber l) (CamberGain l) (Scrub l) (KPI l)
               (Some x)).

(** ** Frame graph *)

(** The positions of the points of interest of a frame; titles and plot
    styles are left out.  Every frame has the four default points. *)
Record DefPoI : Type := mkDefPoI { O : vec3; E1 : vec3; E2 : vec3; E3 : vec3 }.

Record CenterPoI : Type := mkCenterPoI { RC : vec3; FC : vec3; PC : vec3; SC : vec3 }.

Record Frame (E : Type) : Type := mkFrame {
  Title    : string;
  Base     : string;
  Position : vec3;
  Rotation : vec3;
  DoF      : list bool;
  Default  : DefPoI;
  PoI      : E
}.
Arguments mkFrame {E}.
Arguments Title {E}.
Arguments Base {E}.
Arguments Position {E}.
Arguments Rotation {E}.
Arguments DoF {E}.
Arguments Default {E}.
Arguments PoI {E}.

Definition with_Position {E} (f : vec3 -> vec3) (F : Frame E) : Frame E :=
  mkFrame (Title F) (Base F) (f (Position F)) (Rotation F) (DoF F) (Default F) (PoI F).

Definition with_Rotation {E} (f : vec3 -> vec3) (F : Frame E) : Frame E :=
  mkFrame (Title F) (Base F) (Position F) (f (Rotation F)) (DoF F) (Default F) (PoI F).

Definition with_PoI {E} (f : E -> E) (F : Frame E) : Frame E :=
  mkFrame (Title F) (Base F) (Position F) (Rotation F) (DoF F) (Default F) (f (PoI F)).

(** The points of interest that [Init] adds to the default ones, frame by
    frame: the inboard pickups in the axle frame 'X', the outboard pickups
    in the wheel frame 'W', the three points of each A-arm, the outer
    pickup of the tie rod. *)
Record InboardPoI : Type := mkInboard {
  p_LAF : vec3; p_LAR : vec3; p_UAF : vec3; p_UAR : vec3; p_TA : vec3
}.

Record OutboardPoI : Type := mkOutboard {
  p_LB : vec3; p_UB : vec3; p_TB : vec3
}.

Record ArmPoI : Type := mkArm {
  FrontPickup : vec3; RearPickup : vec3; Apex : vec3
}.

(** The nodes of the graph, keyed 'I', 'T', 'W', 'B', 'X', 'LA', 'UA',
    'TR'. *)
Record Nodes : Type := mkNodes {
  I  : Frame CenterPoI;
  T  : Frame unit;
  W  : Frame OutboardPoI;
  B  : Frame unit;
  X  : Frame InboardPoI;
  LA : Frame ArmPoI;
  UA : Frame ArmPoI;
  TR : Frame vec3
}.

Definition with_I (f : Frame CenterPoI -> Frame CenterPoI) (n : Nodes) : Nodes :=
  mkNodes (f (I n)) (T n) (W n) (B n) (X n) (LA n) (UA n) (TR n).
Definition with_T (f : Frame unit -> Frame unit) (n : Nodes) : Nodes :=
  mkNodes (I n) (f (T n)) (W n) (B n) (X n) (LA n) (UA n) (TR n).
Definition with_W (f : Frame OutboardPoI -> Frame OutboardPoI) (n : Nodes) : Nodes :=
  mkNodes (I n) (T n) (f (W n)) (B n) (X n) (LA n) (UA n) (TR n).
Definition with_B (f : Frame unit -> Frame unit) (n : Nodes) : Nodes :=
  mkNodes (I n) (T n) (W n) (f (B n)) (X n) (LA n) (UA n) (TR n).
Definition with_X (f : Frame InboardPoI -> Frame InboardPoI) (n : Nodes) : Nodes :=
  mkNodes (I n) (T n) (W n) (B n) (f (X n)) (LA n) (UA n) (TR n).

Definition with_LAF (f : vec3 -> vec3) (q : InboardPoI) : InboardPoI :=
  mkInboard (f (p_LAF q)) (p_LAR q) (p_UAF q) (p_UAR q) (p_TA q).
Definition with_LAR (f : vec3 -> vec3) (q : InboardPoI) : InboardPoI :=
  mkInboard (p_LAF q) (f (p_LAR q)) (p_UAF q) (p_UAR q) (p_TA q).
Definition with_UAF (f : vec3 -> vec3) (q : InboardPoI) : InboardPoI :=
  mkInboard (p_LAF q) (p_LAR q) (f (p_UAF q)) (p_UAR q) (p_TA q).
Definition with_UAR (f : vec3 -> vec3) (q : InboardPoI) : InboardPoI :=
  mkInboard (p_LAF q) (p_LAR q) (p_UAF q) (f (p_UAR q)) (p_TA q).
Definition with_TA (f : vec3 -> vec3) (q : InboardPoI) : InboardPoI :=
  mkInboard (p_LAF q) (p_LAR q) (p_UAF q) (p_UAR q) (f (p_TA q)).

Definition with_LB (f : vec3 -> vec3) (q : OutboardPoI) : OutboardPoI :=
  mkOutboard (f (p_LB q)) (p_UB q) (p_TB q).
Definition with_UB (f : vec3 -> vec3) (q : OutboardPoI) : OutboardPoI :=
  mkOutboard (p_LB q) (f (p_UB q)) (p_TB q).
Definition with_TB (f : vec3 -> vec3) (q : OutboardPoI) : OutboardPoI :=
  mkOutboard (p_LB q) (p_UB q) (f (p_TB q)).

Definition with_RC (f : vec3 -> vec3) (c : CenterPoI) : CenterPoI :=
  mkCenterPoI (f (RC c)) (FC c) (PC c) (SC c).

(** ** class KinematicSystem *)
Record KinematicSystem : Type := mkSystem {
  Target : TargetT;
  Bound  : table mat32;
  Sample : table vec3;
  nodes  : Nodes;
  edges  : list (string * string)
}.

Definition with_Target (f : TargetT -> TargetT) (s : KinematicSystem) :=
  mkSystem (f (Target s)) (Bound s) (Sample s) (nodes s) (edges s).
Definition with_Bound (f : table mat32 -> table mat32) (s : KinematicSystem) :=
  mkSystem (Target s) (f (Bound s)) (Sample s) (nodes s) (edges s).
Definition with_nodes (f : Nodes -> Nodes) (s : KinematicSystem) :=
  mkSystem (Target s) (Bound s) (Sample s) (f (nodes s)) (edges s).


(** ** In-place mutation with exceptions

    [Design] mutates the system object it is given and may raise half-way.
    What it has written before the exception stays written, so a
    computation returns its outcome together with the system as it is
    then. *)
Definition M (A : Type) : Type :=
  KinematicSystem -> outcome A * KinematicSystem.

Definition ret {A} (a : A) : M A := fun s => (Ok a, s).

Definition bind {A B} (m : M A) (k : A -> M B) : M B :=
  fun s =>
    match m s with
    | (Ok a, s') => k a s'
    | (Raise e, s') => (Raise e, s')
    end.

Definition raise {A} (e : exn) : M A := fun s => (Raise e, s).

Definition get : M KinematicSystem := fun s => (Ok s, s).

Definition modify (f : KinematicSystem -> KinematicSystem) : M unit :=
  fun s => (Ok tt, f s).

Definition lift {A} (o : outcome A) : M A := fun s => (o, s).

Notation "x <- c ;; k" := (bind c (fun x => k))
  (at level 61, c at next level, right associativity).
Notation "c ;; k" := (bind c (fun _ => k))
  (at level 61, right associativity).

(** ** Init (DoubleWishbone.py, 22-144) *)

Definition DefaultPoI : DefPoI :=
  mkDefPoI zeros31 (V3 25 0 0) (V3 0 25 0) (V3 0 0 25).

Definition dof (l : list nat) : list bool :=
  map (fun n => negb (Nat.eqb n 0)) l.

Definition init_nodes : Nodes :=
  mkNodes
    (mkFrame "Intermediate" "" zeros31 zeros31 (dof [0;0;0;0;0;0]%nat) DefaultPoI
       (mkCenterPoI zeros31 zeros31 zeros31 zeros31))
    (mkFrame "Tire" "I" zeros31 zeros31 (dof [1;1;0;1;0;1]%nat) DefaultPoI tt)
    (mkFrame "Wheel" "T" zeros31 zeros31 (dof [0;0;0;0;1;0]%nat) DefaultPoI
       (mkOutboard zeros31 zeros31 zeros31))
    (mkFrame "Body" "I" zeros31 zeros31 (dof [0;0;1;1;1;0]%nat) DefaultPoI tt)
    (mkFrame "Axle" "B" zeros31 zeros31 (dof [0;0;0;0;0;0]%nat) DefaultPoI
       (mkInboard zeros31 zeros31 zeros31 zeros31 zeros31))
    (mkFrame "Lower A-Arm" "X" zeros31 zeros31 (dof [0;0;0;1;0;0]%nat) DefaultPoI
       (mkArm zeros31 zeros31 zeros31))
    (mkFrame "Upper A-Arm" "X" zeros31 zeros31 (dof [0;0;0;1;0;0]%nat) DefaultPoI
       (mkArm zeros31 zeros31 zeros31))
    (mkFrame "Tie Rod" "X" zeros31 zeros31 (dof [0;0;0;1;0;0]%nat) DefaultPoI
       zeros31).

Definition init_edges : list (string * string) :=
  [("I","T"); ("T","W"); ("I","B"); ("B","X"); ("X","LA"); ("X","UA"); ("X","TR")].

(** The default sample structure: 1 = sampled, 0 = calculated or fixed. *)
Definition default_sample : table vec3 :=
  mkTable (V3 1 1 0) (V3 1 1 0) (V3 1 0 0) (V3 1 0 0) (V3 1 1 0)
          (V3 1 1 1) (V3 1 0 1) (V3 1 1 1).

(** Parsing Bound Restricted Values
<<
    for P in list(self.Sample['Linkage'].keys()):
        r = (np.diff(self.Bound['Linkage'][P]) == 0)
        self.Sample['Linkage'][P][r] = 0
>> *)
Definition restrict (bound : mat32) (sample : vec3) : vec3 :=
  let d := diff bound in
  V3 (if Reqb (v0 d) 0 then 0 else v0 sample)
     (if Reqb (v1 d) 0 then 0 else v1 sample)
     (if Reqb (v2 d) 0 then 0 else v2 sample).

Definition all_hardpoints : list hardpoint :=
  [LAF; LAR; UAF; UAR; TA; LB; UB; TB].

Definition restrict_samples (bound : table mat32) (sample : table vec3)
  : table vec3 :=
  fold_left (fun smp P => update P (restrict (lookup bound P) (lookup smp P)) smp)
            all_hardpoints sample.

(** [Init] is called by the constructor on a system that holds the Target
    and the Bound of the caller and an empty Sample; the shortest-path
    table of networkx is not modelled. *)
Definition Init (target : TargetT) (bound : table mat32) : KinematicSystem :=
  mkSystem target bound (restrict_samples bound default_sample)
           init_nodes init_edges.

(** KinematicSystem.__init__ (KinematicSystem.py, 14-35): the linkage
    initialiser is looked up by [Target['Type']['Linkage']]. *)
Definition KinematicSystem_init (target : TargetT) (bound : table mat32)
  : outcome KinematicSystem :=
  if (Linkage (Type_ target) =? "Double Wishbone")%string
  then Ok (Init target bound)
  else Raise KeyError.

(** ** Design (DoubleWishbone.py, 147-236) *)

(** [self.nodes[F]['PoI'][P]['Position']], written through [f]; a key
    that the frame's PoI dictionary does not have raises KeyError. *)
Definition set_poi (F : string) (P : hardpoint) (f : vec3 -> vec3) : M unit :=
  if (F =? "X")%string then
    match P with
    | LAF => modify (with_nodes (with_X (with_PoI (with_LAF f))))
    | LAR => modify (with_nodes (with_X (with_PoI (with_LAR f))))
    | UAF => modify (with_nodes (with_X (with_PoI (with_UAF f))))
    | UAR => modify (with_nodes (with_X (with_PoI (with_UAR f))))
    | TA  => modify (with_nodes (with_X (with_PoI (with_TA f))))
    | _ => raise KeyError
    end
  else if (F =? "W")%string then
    match P with
    | LB => modify (with_nodes (with_W (with_PoI (with_LB f))))
    | UB => modify (with_nodes (with_W (with_PoI (with_UB f))))
    | TB => modify (with_nodes (with_W (with_PoI (with_TB f))))
    | _ => raise KeyError
    end
  else raise KeyError.

(** The position of a hardpoint in the frame that holds it. *)
Definition poi (n : Nodes) (P : hardpoint) : vec3 :=
  match P with
  | LAF => p_LAF (PoI (X n)) | LAR => p_LAR (PoI (X n))
  | UAF => p_UAF (PoI (X n)) | UAR => p_UAR (PoI (X n))
  | TA => p_TA (PoI (X n))
  | LB => p_LB (PoI (W n)) | UB => p_UB (PoI (W n)) | TB => p_TB (PoI (W n))
  end.

(** [Bound['Linkage'][P][i,:] = r] for i = 0, 1. *)
Definition set_bound_row0 (P : hardpoint) (r : R * R) (s : KinematicSystem) :=
  with_Bound (fun b => update P (set_row0 r (lookup b P)) b) s.
Definition set_bound_row1 (P : hardpoint) (r : R * R) (s : KinematicSystem) :=
  with_Bound (fun b => update P (set_row1 r (lookup b P)) b) s.

(** [if c: body] *)
Definition when (c : KinematicSystem -> bool) (body : M unit) : M unit :=
  s <- get ;; if c s then body else ret tt.

(** One turn of the loop of "Design Space Sampling" (184-221).  [F] keeps
    the value of the turn before when neither test on [P[1]] holds, and is
    unbound before the first turn.
<<
    for P in ['LAF','LAR','UAF','UAR','TA','LB','UB','TB']:
        if P[1] == 'A':    F = 'X'
        elif P[1] == 'B':  F = 'W'

        self.nodes[F]['PoI'][P]['Position'] = self.Bound['Linkage'][P][:,[0]] \
            + self.Sample['Linkage'][P] * np.diff(self.Bound['Linkage'][P])

        if P == 'LAR':
            if all(self.Bound['Linkage']['LAR'][1] == 0):
                self.nodes['X']['PoI']['LAR']['Position'][1] = \
                   self.nodes['X']['PoI']['LAF']['Position'][1]
                self.Bound['Linkage']['LAR'][1,:] = \
                    self.Bound['Linkage']['LAF'][1,:]
        elif P == 'UAF':   (row 0, from LAF)
        elif P == 'UAR':   (row 0, from LAR; then row 1, from UAF)
>> *)
Definition sample_hardpoint (F_before : option string) (P : hardpoint)
  : M (option string) :=
  let F_now :=
    match String.get 1 (name P) with
    | Some "A"%char => Some "X"
    | Some "B"%char => Some "W"
    | _ => F_before
    end in
  match F_now with
  | None => raise UnboundLocalError
  | Some F =>
      s <- get ;;
      set_poi F P (fun _ =>
        vadd (first_column (lookup (Bound s) P))
             (vmul (lookup (Sample s) P) (diff (lookup (Bound s) P)))) ;;
      match P with
      | LAR =>
          when (fun s => all_zero (row1 (t_LAR (Bound s))))
            (modify (fun s => with_nodes (with_X (with_PoI (with_LAR
                 (set1 (v1 (p_LAF (PoI (X (nodes s)))))))))  s) ;;
             modify (fun s => set_bound_row1 LAR (row1 (t_LAF (Bound s))) s))
      | UAF =>
          when (fun s => all_zero (row0 (t_UAF (Bound s))))
            (modify (fun s => with_nodes (with_X (with_PoI (with_UAF
                 (set0 (v0 (p_LAF (PoI (X (nodes s))))))))) s) ;;
             modify (fun s => set_bound_row0 UAF (row0 (t_LAF (Bound s))) s))
      | UAR =>
          when (fun s => all_zero (row0 (t_UAR (Bound s))))
            (modify (fun s => with_nodes (with_X (with_PoI (with_UAR
                 (set0 (v0 (p_LAR (PoI (X (nodes s))))))))) s) ;;
             modify (fun s => set_bound_row0 UAR (row0 (t_LAR (Bound s))) s)) ;;
          when (fun s => all_zero (row1 (t_UAR (Bound s))))
            (modify (fun s => with_nodes (with_X (with_PoI (with_UAR
                 (set1 (v1 (p_UAF (PoI (X (nodes s))))))))) s) ;;
             modify (fun s => set_bound_row1 UAR (row1 (t_UAF (Bound s))) s))
      | _ => ret tt
      end ;;
      ret (Some F)
  end.

Fixpoint sampling_loop (F : option string) (Ps : list hardpoint) : M unit :=
  match Ps with
  | [] => ret tt
  | P :: rest => F' <- sample_hardpoint F P ;; sampling_loop F' rest
  end.

Definition DesignSpaceSampling : M unit :=
  sampling_loop None [LAF; LAR; UAF; UAR; TA; LB; UB; TB].

(** "Allocate Known Parameters" (152-182). *)
Definition AllocateKnownParameters : M unit :=
  (* Tire Frame *)
  self <- get ;;
  (if (Axle (Type_ (Target self)) =? "Front")%string then
     modify (fun s => with_nodes (with_T (with_Position (set0
       (Wheelbase (Vehicle (Target s))
        * (1 - fst (WeightDist (Vehicle (Target s))) / 100))))) s)
   else if (Axle (Type_ (Target self)) =? "Rear")%string then
     modify (fun s => with_nodes (with_T (with_Position (set0
       (Wheelbase (Vehicle (Target s))
        * - fst (WeightDist (Vehicle (Target s))) / 100)))) s)
   else raise AxleNotRecognized) ;;
  modify (fun s => with_nodes (with_T (with_Position (set1
    (Track (Linkage_ (Target s)) / 2)))) s) ;;
  modify (fun s => with_nodes (with_T (with_Rotation (set0
    (- Camber (Linkage_ (Target s)))))) s) ;;
  modify (fun s => with_nodes (with_T (with_Rotation (set2
    (Toe (Linkage_ (Target s)))))) s) ;;
  (* Wheel Frame *)
  modify (fun s => with_nodes (with_W (with_Position (set2
    (LoadedRadius (Vehicle (Target s))
     / sin (PI / 2 - Camber (Linkage_ (Target s))))))) s) ;;
  modify (fun s => with_nodes (with_W (with_Rotation (set1
    (- Caster (Linkage_ (Target s)))))) s) ;;
  (* Body Frame *)
  self <- get ;;
  cg2 <- lift (getitem (CG (Vehicle (Target self))) 2) ;;
  modify (with_nodes (with_B (with_Position (set2 cg2)))) ;;
  modify (fun s => with_nodes (with_B (with_Rotation (set1
    (Rake (Vehicle (Target s)))))) s) ;;
  (* Axle Frame *)
  modify (fun s => with_nodes (with_X (with_Position (set0
    (v0 (Position (T (nodes s))))))) s) ;;
  self <- get ;;
  cg2 <- lift (getitem (CG (Vehicle (Target self))) 2) ;;
  modify (fun s => with_nodes (with_X (with_Position (set2
    (Ride (Vehicle (Target s)) - cg2)))) s).

(** "Kinematic Design Rules" (223-232).
<<
    self.Target['Linkage']['FVSA'] = 1 \
        / np.arctan(np.abs(self.Target['Linkage']['CamberGain']))

    self.nodes['I']['PoI']['RC']['Position'][0] = self.nodes['T']['Position'][0]
    self.nodes['I']['PoI']['RC']['Position'][2] = self.Target['Vehicle']['CG'] \
        * self.Target['Linkage']['RollCenter']/100
>> *)
Definition KinematicDesignRules : M unit :=
  modify (fun s => with_Target (set_FVSA
    (1 / atan (Rabs (CamberGain (Linkage_ (Target s)))))) s) ;;
  modify (fun s => with_nodes (with_I (with_PoI (with_RC (set0
    (v0 (Position (T (nodes s)))))))) s) ;;
  self <- get ;;
  h <- lift (broadcast_to_entry
         (value_percent (CG (Vehicle (Target self)))
                        (RollCenter (Linkage_ (Target self))))) ;;
  modify (with_nodes (with_I (with_PoI (with_RC (set2 h))))).

Definition Design : M unit :=
  AllocateKnownParameters ;;
  DesignSpaceSampling ;;
  KinematicDesignRules.

(** ** GenerateDesign (KinematicSystem.py, 37-56)

    [System] is the list of subsystem names after the first four lines
    have normalised the argument.  [Design] has no [return], so
    [self = LinkageDesign[...](self)] leaves the local name [self] bound to
    None ([self_bound = false]) for the turns that follow; the system
    object itself stays the caller's. *)
Fixpoint GenerateDesign_from (self_bound : bool) (System : list string)
  : M unit :=
  match System with
  | [] => ret tt
  | Sys :: rest =>
      if (Sys =? "Linkage")%string then
        if self_bound then
          self <- get ;;
          (if (Linkage (Type_ (Target self)) =? "Double Wishbone")%string
           then Design else raise KeyError) ;;
          GenerateDesign_from false rest
        else raise AttributeError
      else if (Sys =? "Strut")%string then
        if self_bound then raise KeyError else raise AttributeError
      else if (Sys =? "Spring")%string then
        if self_bound then raise TypeError else raise AttributeError
      else GenerateDesign_from self_bound rest
  end.

Definition GenerateDesign (System : list string) : M unit :=
  GenerateDesign_from true System.

(** The system as a run leaves it, and how the run ended. *)
Definition after {A} (m : M A) (s : KinematicSystem) : KinematicSystem :=
  snd (m s).

Definition result {A} (m : M A) (s : KinematicSystem) : outcome A :=
  fst (m s).

End DoubleWishbone.

(* ===================================================================== *)
(** * Vocabulary of the statements *)
(* ===================================================================== *)

Module Vocabulary.
Import Geometry DoubleWishbone.

(** A point lies on the line through [A] and [B]: it is [A + t (B - A)]. *)
Definition on_line (A B p : list R) : Prop :=
  exists t : R, p = ladd A (map (fun d => t * d) (lsub B A)).

(** The call [vector_alignment_rotation(v_A, v_B)] ends with [o], and with
    nothing else. *)
Definition alignment_returns (v_A v_B : vec3) (o : outcome mat33) : Prop :=
  vector_alignment_rotation v_A v_B o
  /\ forall o' : outcome mat33, vector_alignment_rotation v_A v_B o' -> o' = o.

(** The array [R] built for (2,0,0) and (0,1,0), which is not orthogonal,
    and the rotation matrix nearest to it: the turn about z that takes
    (1,0,0) to (-3,2,0)/sqrt(13). *)
Definition non_unit_R : mat33 :=
  M33 (V3 (-3) (-2) 0) (V3 2 (-3) 0) (V3 0 0 1).

Definition non_unit_rotation : mat33 :=
  M33 (V3 (- 3 / sqrt 13) (- 2 / sqrt 13) 0)
      (V3 (2 / sqrt 13) (- 3 / sqrt 13) 0)
      (V3 0 0 1).

(** Two planes through the origin, with normals along (6,2,3) and
    (4,7,4), each given by three of its points and by the vector [w]
    that scipy returns as its null space. *)
Definition plane_1 (w : vec4) : Plane :=
  mkPlane (V3 0 0 0, V3 1 (-3) 0, V3 0 3 (-2)) w.

Definition plane_2 (u : vec4) : Plane :=
  mkPlane (V3 0 0 0, V3 1 0 (-1), V3 7 (-4) 0) u.

(** The horizontal plane z = 1 through (1,0,1), (2,0,1), (1,1,1). *)
Definition plane_z1 (w : vec4) : Plane :=
  mkPlane (V3 1 0 1, V3 2 0 1, V3 1 1 1) w.

(** ** The design generator in closed form *)

(** [boundMin + sample * (boundMax - boundMin)], axis by axis. *)
Definition resolve (b : mat32) (x : vec3) : vec3 :=
  vadd (first_column b) (vmul x (diff b)).

(** The four rows that inherit from a sibling when left all zero, and the
    sibling each inherits from (BaseTesting.py, 71-75):
    LAR lateral from LAF, UAF longitudinal from LAF, UAR longitudinal from
    LAR, UAR lateral from UAF. *)
Definition inherited (b : table mat32) (P : hardpoint) (i : nat) : bool :=
  match P, i with
  | LAR, 1%nat => all_zero (row1 (t_LAR b))
  | UAF, 0%nat => all_zero (row0 (t_UAF b))
  | UAR, 0%nat => all_zero (row0 (t_UAR b))
  | UAR, 1%nat => all_zero (row1 (t_UAR b))
  | _, _ => false
  end.

Definition sibling (P : hardpoint) (i : nat) : hardpoint :=
  match P, i with
  | LAR, 1%nat => LAF
  | UAF, 0%nat => LAF
  | UAR, 0%nat => LAR
  | UAR, 1%nat => UAF
  | _, _ => P
  end.

(** The Bound, the inboard and the outboard positions after the sampling
    loop. *)
Definition sampled_bound (b : table mat32) : table mat32 :=
  mkTable
    (t_LAF b)
    (if all_zero (row1 (t_LAR b)) then set_row1 (row1 (t_LAF b)) (t_LAR b)
     else t_LAR b)
    (if all_zero (row0 (t_UAF b)) then set_row0 (row0 (t_LAF b)) (t_UAF b)
     else t_UAF b)
    (let u := if all_zero (row0 (t_UAR b))
              then set_row0 (row0 (t_LAR b)) (t_UAR b) else t_UAR b in
     if all_zero (row1 (t_UAR b)) then set_row1 (row1 (t_UAF b)) u else u)
    (t_TA b) (t_LB b) (t_UB b) (t_TB b).

Definition sampled_inboard (b : table mat32) (x : table vec3) : InboardPoI :=
  let laf := resolve (t_LAF b) (t_LAF x) in
  let lar := if all_zero (row1 (t_LAR b))
             then set1 (v1 laf) (resolve (t_LAR b) (t_LAR x))
             else resolve (t_LAR b) (t_LAR x) in
  let uaf := if all_zero (row0 (t_UAF b))
             then set0 (v0 laf) (resolve (t_UAF b) (t_UAF x))
             else resolve (t_UAF b) (t_UAF x) in
  let uar0 := if all_zero (row0 (t_UAR b))
              then set0 (v0 lar) (resolve (t_UAR b) (t_UAR x))
              else resolve (t_UAR b) (t_UAR x) in
  let uar := if all_zero (row1 (t_UAR b)) then set1 (v1 uaf) uar0 else uar0 in
  mkInboard laf lar uaf uar (resolve (t_TA b) (t_TA x)).

Definition sampled_outboard (b : table mat32) (x : table vec3) : OutboardPoI :=
  mkOutboard (resolve (t_LB b) (t_LB x)) (resolve (t_UB b) (t_UB x))
             (resolve (t_TB b) (t_TB x)).

Definition sampled (s : KinematicSystem) : KinematicSystem :=
  mkSystem (Target s) (sampled_bound (Bound s)) (Sample s)
    (with_W (with_PoI (fun _ => sampled_outboard (Bound s) (Sample s)))
       (with_X (with_PoI (fun _ => sampled_inboard (Bound s) (Sample s)))
          (nodes s)))
    (edges s).

(** The longitudinal position the code gives the tire frame, when the axle
    label is one it knows. *)
Definition tire_longitudinal (t : TargetT) : option R :=
  if (Axle (Type_ t) =? "Front")%string then
    Some (Wheelbase (Vehicle t) * (1 - fst (WeightDist (Vehicle t)) / 100))
  else if (Axle (Type_ t) =? "Rear")%string then
    Some (Wheelbase (Vehicle t) * - fst (WeightDist (Vehicle t)) / 100)
  else None.

Definition tire_wheel_written (x : R) (s : KinematicSystem) : KinematicSystem :=
  let t := Target s in
  with_nodes (fun n =>
    with_W (fun f =>
      with_Rotation (set1 (- Caster (Linkage_ t)))
        (with_Position
           (set2 (LoadedRadius (Vehicle t) / sin (PI / 2 - Camber (Linkage_ t))))
           f))
      (with_T (fun f =>
         with_Rotation
           (fun r => set2 (Toe (Linkage_ t)) (set0 (- Camber (Linkage_ t)) r))
           (with_Position (fun p => set1 (Track (Linkage_ t) / 2) (set0 x p)) f))
         n)) s.

Definition body_axle_written (c : R) (s : KinematicSystem) : KinematicSystem :=
  let t := Target s in
  with_nodes (fun n =>
    with_X (with_Position (fun p =>
              set2 (Ride (Vehicle t) - c) (set0 (v0 (Position (T n))) p)))
      (with_B (fun f =>
         with_Rotation (set1 (Rake (Vehicle t))) (with_Position (set2 c) f))
         n)) s.

Definition rules_written (s : KinematicSystem) : KinematicSystem :=
  with_nodes (with_I (with_PoI (with_RC (set0 (v0 (Position (T (nodes s))))))))
    (with_Target
       (set_FVSA (1 / atan (Rabs (CamberGain (Linkage_ (Target s)))))) s).

Definition Allocate_run (s : KinematicSystem) : outcome unit * KinematicSystem :=
  match tire_longitudinal (Target s) with
  | None => (Raise AxleNotRecognized, s)
  | Some x =>
      let s1 := tire_wheel_written x s in
      match getitem (CG (Vehicle (Target s))) 2 with
      | Raise e => (Raise e, s1)
      | Ok c => (Ok tt, body_axle_written c s1)
      end
  end.

Definition Design_run (s : KinematicSystem) : outcome unit * KinematicSystem :=
  match tire_longitudinal (Target s) with
  | None => (Raise AxleNotRecognized, s)
  | Some x =>
      let s1 := tire_wheel_written x s in
      match getitem (CG (Vehicle (Target s))) 2 with
      | Raise e => (Raise e, s1)
      | Ok c =>
          (Raise ValueError,
           rules_written (sampled (body_axle_written c s1)))
      end
  end.

(** The system a run leaves when it gets as far as the last statement
    (the known parameters, the sampling loop, FVSA and the roll centre's
    longitudinal position are written). *)
Definition reached (x c : R) (s : KinematicSystem) : KinematicSystem :=
  rules_written (sampled (body_axle_written c (tire_wheel_written x s))).

(** The position of a hardpoint after the sampling loop. *)
Definition sampled_poi (b : table mat32) (x : table vec3) (P : hardpoint) : vec3 :=
  match P with
  | LAF => p_LAF (sampled_inboard b x) | LAR => p_LAR (sampled_inboard b x)
  | UAF => p_UAF (sampled_inboard b x) | UAR => p_UAR (sampled_inboard b x)
  | TA => p_TA (sampled_inboard b x)
  | LB => p_LB (sampled_outboard b x) | UB => p_UB (sampled_outboard b x)
  | TB => p_TB (sampled_outboard b x)
  end.

(** Everything of the frame graph but the hardpoint positions. *)
Definition same_frames (n m : Nodes) : Prop :=
  I n = I m /\ T n = T m /\ B n = B m
  /\ LA n = LA m /\ UA n = UA m /\ TR n = TR m
  /\ Position (W n) = Position (W m) /\ Rotation (W n) = Rotation (W m)
  /\ Position (X n) = Position (X m) /\ Rotation (X n) = Rotation (X m).

(** The run of [Design] on [s] gets as far as the sampling loop: the axle
    label is known and [CG[2]] exists. *)
Definition reaches_sampling (s : KinematicSystem) : bool :=
  match tire_longitudinal (Target s) with
  | Some _ =>
      match getitem (CG (Vehicle (Target s))) 2 with
      | Ok _ => true
      | Raise _ => false
      end
  | None => false
  end.

(** The run of [Design] on [s] takes coordinate [i] of [P] from the
    sibling: it gets to the sampling loop and finds the row all zero. *)
Definition inherits (s : KinematicSystem) (P : hardpoint) (i : nat) : bool :=
  reaches_sampling s && inherited (Bound s) P i.

(** The share of the weight on the rear axle, in percent. *)
Definition rearWeightFraction (t : TargetT) : R :=
  100 - fst (WeightDist (Vehicle t)).

(** ** The data of the driver script (BaseTesting.py) *)

Definition driver_target (axle : string) (wd : R * R) (cg : value) : TargetT :=
  mkTarget
    (mkVehicle 1525 wd 225 cg (2 * 25.4) (0 * (PI / 180)) (7.85 * 25.4))
    (mkType axle "Double Wishbone" "Lower Rod" ["Ride"; "ARB"]%string)
    (mkLinkage 1220 (0.50 * (PI / 180)) 10 (3.00 * (PI / 180))
       (0.25 * (PI / (180 * 25.4))) 15 (- 1.60 * (PI / 180))
       (- 1.00 * (PI / (180 * 25.4))) (0.50 * 25.4) (3.00 * (PI / 180))
       None).

Definition driver_bound : table mat32 :=
  mkTable
    (M32 (5, 5) (8, 8.7) (0.5, 1.5))
    (M32 (-5, -5) (0, 0) (0.5, 1.5))
    (M32 (0, 0) (8.7, 10) (6, 8))
    (M32 (0, 0) (0, 0) (6, 8))
    (M32 (2, 3) (8.7, 8.7) (2.5, 2.75))
    (M32 (0, 0) (-0.88, -0.88) (-3.25, -2.7))
    (M32 (0, 0) (-1.75, -0.88) (3, 3.5))
    (M32 (2.5, 2.85) (-1.25, -0.88) (-1.5, 0.5)).

(** The sample that [Init] leaves for these bounds. *)
Definition driver_sample : table vec3 :=
  mkTable (V3 0 1 0) (V3 0 0 0) (V3 0 0 0) (V3 0 0 0) (V3 1 0 0)
          (V3 0 0 1) (V3 0 0 1) (V3 1 1 1).

(** The system of the driver script, as constructed, for an axle label, a
    weight distribution and a CG entry. *)
Definition driver_system (axle : string) (wd : R * R) (cg : value)
  : KinematicSystem :=
  mkSystem (driver_target axle wd cg) driver_bound driver_sample
           init_nodes init_edges.

End Vocabulary.

(* ===================================================================== *)
(** * Further vocabulary *)
(* ===================================================================== *)

Module MoreVocabulary.
Import Geometry GeometrySolvers DoubleWishbone Vocabulary.

(** The opposite null-space vector: scipy may return either sign. *)
Definition neg4 (w : vec4) : vec4 := V4 (- w0 w) (- w1 w) (- w2 w) (- w3 w).

(** The horizontal plane y = 0 and the plane z = 0, through the origin. *)
Definition plane_y0 : Plane := mkPlane (V3 0 0 0, V3 1 0 0, V3 0 0 1) (V4 0 1 0 0).
Definition plane_z0 : Plane := mkPlane (V3 0 0 0, V3 1 0 0, V3 0 1 0) (V4 0 0 1 0).

(** The result of [ThreePointPlane] is a function, and at [(a, b)] it
    takes the finite value [c]. *)
Definition passes_through (o : outcome plane_form) (a b c : R) : Prop :=
  exists P : R -> R -> np_float R, o = Ok (Graph P) /\ P a b = Finite c.

(** The axle label is one that [Design] knows. *)
Definition known_axle (s : KinematicSystem) : Prop :=
  Axle (Type_ (Target s)) = "Front"%string
  \/ Axle (Type_ (Target s)) = "Rear"%string.

(** The run of [Design] gets past the known parameters: the axle label is
    known and [CG[2]] is the number [c]. *)
Definition reaches (s : KinematicSystem) (c : R) : Prop :=
  known_axle s /\ getitem (CG (Vehicle (Target s))) 2 = Ok c.

(** Every Bound interval has min <= max; every Sample entry is in [0,1]. *)
Definition ordered (b : table mat32) : Prop :=
  forall (P : hardpoint) (i : nat),
    fst (row (lookup b P) i) <= snd (row (lookup b P) i).

Definition normalized (x : table vec3) : Prop :=
  forall (P : hardpoint) (i : nat), 0 <= entry (lookup x P) i <= 1.

(** The subsystem names for which [GenerateDesign] calls a generator. *)
Definition generated (Sys : string) : bool :=
  ((Sys =? "Linkage") || (Sys =? "Strut") || (Sys =? "Spring"))%string.

End MoreVocabulary.

(* ===================================================================== *)
(** * Theorems: geometry *)
(* ===================================================================== *)

Module GeometryFacts.
Import Geometry Vocabulary.

Lemma Reqb_true (x y : R) : x = y -> Reqb x y = true.
Proof.
  intros H. unfold Reqb. destruct (Req_EM_T x y); [reflexivity | contradiction].
Qed.

Lemma Reqb_false (x y : R) : x <> y -> Reqb x y = false.
Proof.
  intros H. unfold Reqb. destruct (Req_EM_T x y); [contradiction | reflexivity].
Qed.

Lemma Reqb_spec (x y : R) : Reqb x y = true <-> x = y.
Proof.
  unfold Reqb. destruct (Req_EM_T x y); split; intros; try assumption;
    try reflexivity; try discriminate; contradiction.
Qed.

Lemma vec3_eq (a b : vec3) :
  v0 a = v0 b -> v1 a = v1 b -> v2 a = v2 b -> a = b.
Proof. destruct a, b; simpl; intros; subst; reflexivity. Qed.

(** C10. For every 3-vector [v], [skew_symmetric_matrix v] is
    skew-symmetric (its transpose is its negation), and applied to any
    3-vector [u] it gives the cross product [v x u]. *)
Theorem C10_skew_symmetric_cross_operator (v : vec3) :
  transpose (skew_symmetric_matrix v) = mneg (skew_symmetric_matrix v)
  /\ forall u : vec3, mapply (skew_symmetric_matrix v) u = cross v u.
Proof.
  split.
  - destruct v as [a b c].
    unfold transpose, mneg, skew_symmetric_matrix, vneg; simpl.
    f_equal; apply vec3_eq; simpl; ring.
  - intros u. destruct v as [a b c], u as [x y z].
    apply vec3_eq; unfold mapply, cross, dot, skew_symmetric_matrix; simpl; ring.
Qed.

(** ** Line *)

Section Lists.

Variable f : R * R -> R.

Lemma nth_error_map_combine (a b : list R) (i : nat) (x y : R) :
  nth_error a i = Some x -> nth_error b i = Some y ->
  nth_error (map f (combine a b)) i = Some (f (x, y)).
Proof.
  revert b i. induction a as [|a0 a IH]; intros [|b0 b] [|i]; simpl;
    intros Ha Hb; try discriminate.
  - injection Ha as <-. injection Hb as <-. reflexivity.
  - apply IH; assumption.
Qed.

Lemma length_map_combine (a b : list R) :
  List.length a = List.length b ->
  List.length (map f (combine a b)) = List.length a.
Proof.
  intros H. rewrite length_map, length_combine, <- H. apply Nat.min_id.
Qed.

End Lists.

Lemma lerp_on_line (A B : list R) (alpha : R) :
  List.length A = List.length B -> on_line A B (lerp A B alpha).
Proof.
  intros Hlen. exists alpha. unfold lerp, ladd, lsub.
  revert B Hlen. induction A as [|a A IH]; intros [|b B] Hlen; simpl in *;
    try discriminate; try reflexivity.
  f_equal; [ring | apply IH; lia].
Qed.

Lemma ldot_self_nonneg (d : list R) : 0 <= ldot d d.
Proof.
  unfold ldot. induction d as [|x d IH]; simpl; [lra|].
  pose proof (Rle_0_sqr x) as Hx. unfold Rsqr in Hx. lra.
Qed.

Lemma ldot_self_zero (d : list R) (i : nat) :
  ldot d d = 0 -> nth i d 0 = 0.
Proof.
  unfold ldot. revert i. induction d as [|x d IH]; intros i H; simpl in *.
  - destruct i; reflexivity.
  - pose proof (ldot_self_nonneg d) as Hd. unfold ldot in Hd.
    pose proof (Rle_0_sqr x) as Hx. unfold Rsqr in Hx.
    destruct i as [|i].
    + assert (x * x = 0) by lra. destruct (Rmult_integral _ _ H0); assumption.
    + apply IH. lra.
Qed.

(** The [index]-th entry of [basis] is zero exactly when the two defining
    points agree on that coordinate. *)
Lemma basis_entry_zero (A B : list R) (index : nat) (a b : R) :
  nth_error A index = Some a -> nth_error B index = Some b ->
  (nth index (Line_basis (Line_init A B)) 0 = 0 <-> b - a = 0).
Proof.
  intros Ha Hb. unfold Line_init; simpl.
  set (d := lsub B A).
  assert (Hd : nth_error d index = Some (b - a)).
  { unfold d, lsub.
    apply (nth_error_map_combine (fun ab => fst ab - snd ab) B A index b a Hb Ha). }
  assert (Hn : nth index (map (fun x => x / lnorm d) d) 0 = (b - a) / lnorm d).
  { apply nth_error_nth. rewrite nth_error_map, Hd. reflexivity. }
  rewrite Hn. split.
  - intros H. unfold Rdiv in H. destruct (Rmult_integral _ _ H) as [H0|H0]; [assumption|].
    assert (Hz : lnorm d = 0).
    { destruct (Req_dec (lnorm d) 0) as [E|E]; [assumption|].
      exfalso. exact (Rinv_neq_0_compat _ E H0). }
    unfold lnorm in Hz. apply sqrt_eq_0 in Hz; [|apply ldot_self_nonneg].
    pose proof (ldot_self_zero d index Hz) as Hi.
    rewrite (nth_error_nth d index 0 Hd) in Hi. exact Hi.
  - intros ->. unfold Rdiv. ring.
Qed.

(** C5 (as the code has it). For every line through two points [A], [B]
    of one shape and every axis [index]: if the [index]-th entry of the
    unit direction is nonzero, the call returns a point of the line whose
    [index]-th coordinate is [query]; if it is zero (and [index] is in
    range), nothing is raised: the division by zero makes the parameter
    non-finite and the call returns a non-finite array. *)
Theorem C5_line_evaluate (A B : list R) (query : R) (index : nat) :
  List.length A = List.length B ->
  (nth index (Line_basis (Line_init A B)) 0 <> 0 ->
     exists p : list R,
       Line_call (Line_init A B) query index = Ok (Finite p)
       /\ on_line A B p /\ nth_error p index = Some query)
  /\ ((index < List.length A)%nat ->
      nth index (Line_basis (Line_init A B)) 0 = 0 ->
      Line_call (Line_init A B) query index = Ok NonFinite).
Proof.
  intros Hlen. split.
  - intros Hb.
    assert (Hi : (index < List.length A)%nat).
    { destruct (Nat.lt_ge_cases index (List.length A)) as [H|H]; [assumption|].
      exfalso. apply Hb. apply nth_overflow.
      unfold Line_init; simpl. rewrite length_map. unfold lsub.
      rewrite (length_map_combine _ B A (eq_sym Hlen)). lia. }
    destruct (nth_error A index) as [a|] eqn:Ha;
      [|apply nth_error_None in Ha; lia].
    destruct (nth_error B index) as [b|] eqn:Hbn;
      [|apply nth_error_None in Hbn; lia].
    assert (Hne : b - a <> 0).
    { intros E. apply Hb. apply (basis_entry_zero A B index a b Ha Hbn). exact E. }
    exists (lerp A B ((query - a) / (b - a))). split; [|split].
    + unfold Line_call, Line_init; simpl. rewrite Ha, Hbn.
      rewrite (Reqb_false _ _ Hne). reflexivity.
    + apply lerp_on_line. exact Hlen.
    + unfold lerp.
      rewrite (nth_error_map_combine _ A B index a b Ha Hbn). simpl.
      f_equal. field. exact Hne.
  - intros Hi Hz.
    destruct (nth_error A index) as [a|] eqn:Ha;
      [|apply nth_error_None in Ha; lia].
    destruct (nth_error B index) as [b|] eqn:Hbn;
      [|apply nth_error_None in Hbn; lia].
    apply (basis_entry_zero A B index a b Ha Hbn) in Hz.
    unfold Line_call, Line_init; simpl. rewrite Ha, Hbn.
    rewrite (Reqb_true _ _ Hz). reflexivity.
Qed.

Lemma C5_line_evaluate_witness :
  (exists p : list R,
     Line_call (Line_init [0; 0; 0] [2; 0; 0]) 1 0 = Ok (Finite p)
     /\ on_line [0; 0; 0] [2; 0; 0] p /\ nth_error p 0 = Some 1)
  /\ Line_call (Line_init [0; 0; 0] [2; 0; 0]) 1 1 = Ok NonFinite.
Proof.
  split.
  - apply (C5_line_evaluate [0; 0; 0] [2; 0; 0] 1 0 eq_refl).
    intros E.
    apply (basis_entry_zero [0; 0; 0] [2; 0; 0] 0 0 2 eq_refl eq_refl) in E.
    lra.
  - apply (C5_line_evaluate [0; 0; 0] [2; 0; 0] 1 1 eq_refl).
    + simpl. lia.
    + apply (basis_entry_zero [0; 0; 0] [2; 0; 0] 1 0 0 eq_refl eq_refl). lra.
Defined.

(** C5 as stated fails: on the line through (0,0,0) and (2,0,0) the
    direction has a zero second entry, and evaluating at axis 1 raises
    nothing; an array of non-finite entries comes back. *)
Lemma C5_no_error_on_zero_direction :
  nth 1 (Line_basis (Line_init [0; 0; 0] [2; 0; 0])) 0 = 0
  /\ Line_call (Line_init [0; 0; 0] [2; 0; 0]) 5 1 = Ok NonFinite
  /\ forall e : exn, Line_call (Line_init [0; 0; 0] [2; 0; 0]) 5 1 <> Raise e.
Proof.
  assert (Hz : nth 1 (Line_basis (Line_init [0; 0; 0] [2; 0; 0])) 0 = 0).
  { apply (basis_entry_zero [0; 0; 0] [2; 0; 0] 1 0 0 eq_refl eq_refl). lra. }
  assert (Hc : Line_call (Line_init [0; 0; 0] [2; 0; 0]) 5 1 = Ok NonFinite).
  { unfold Line_call, Line_init; simpl. rewrite Reqb_true by lra. reflexivity. }
  split; [exact Hz | split; [exact Hc |]].
  intros e. rewrite Hc. discriminate.
Qed.

(** ** vector_alignment_rotation *)

Lemma mapply_madd (A B : mat33) (u : vec3) :
  mapply (madd A B) u = vadd (mapply A u) (mapply B u).
Proof.
  destruct A as [[? ? ?] [? ? ?] [? ? ?]], B as [[? ? ?] [? ? ?] [? ? ?]], u as [x y z].
  apply vec3_eq; cbv [mapply madd vadd dot v0 v1 v2 r0 r1 r2]; ring.
Qed.

Lemma mapply_mdiv (A : mat33) (k : R) (u : vec3) :
  mapply (mdiv A k) u = vscale (/ k) (mapply A u).
Proof.
  destruct A as [[? ? ?] [? ? ?] [? ? ?]], u as [x y z].
  apply vec3_eq; cbv [mapply mdiv vscale dot Rdiv v0 v1 v2 r0 r1 r2]; ring.
Qed.

Lemma mapply_mmul (A B : mat33) (u : vec3) :
  mapply (mmul A B) u = mapply A (mapply B u).
Proof.
  destruct A as [[? ? ?] [? ? ?] [? ? ?]], B as [[? ? ?] [? ? ?] [? ? ?]], u as [x y z].
  apply vec3_eq; cbv [mapply mmul transpose dot v0 v1 v2 r0 r1 r2]; ring.
Qed.

Lemma mapply_eye3 (u : vec3) : mapply eye3 u = u.
Proof.
  destruct u. apply vec3_eq; cbv [mapply eye3 dot v0 v1 v2 r0 r1 r2]; ring.
Qed.

Lemma skew_apply (v u : vec3) : mapply (skew_symmetric_matrix v) u = cross v u.
Proof.
  destruct v as [a b c], u as [x y z].
  apply vec3_eq;
    cbv [mapply cross dot skew_symmetric_matrix v0 v1 v2 r0 r1 r2]; ring.
Qed.

Lemma cross_cross_left (a b : vec3) :
  cross (cross a b) a = vsub (vscale (dot a a) b) (vscale (dot a b) a).
Proof.
  destruct a, b. apply vec3_eq; cbv [cross vsub vscale dot v0 v1 v2]; ring.
Qed.

Lemma cross_cross_twice (a b : vec3) :
  cross (cross a b) (cross (cross a b) a)
  = vscale (dot a b * dot a b - dot a a * dot b b) a.
Proof.
  destruct a, b. apply vec3_eq; cbv [cross vsub vscale dot v0 v1 v2]; ring.
Qed.

(** Lagrange's identity. *)
Lemma dot_cross_cross (a b : vec3) :
  dot (cross a b) (cross a b) = dot a a * dot b b - dot a b * dot a b.
Proof. destruct a, b. cbv [cross dot v0 v1 v2]. ring. Qed.

Lemma cross_self (a : vec3) : cross a a = V3 0 0 0.
Proof. destruct a. apply vec3_eq; cbv [cross v0 v1 v2]; ring. Qed.

Lemma alignment_matrix_apply (a b : vec3) :
  dot a a = 1 -> dot b b = 1 -> 1 + dot a b <> 0 ->
  mapply (alignment_matrix a b) a = b.
Proof.
  intros Ha Hb Hc. unfold alignment_matrix.
  rewrite !mapply_madd, mapply_mdiv, mapply_mmul, mapply_eye3, !skew_apply.
  rewrite cross_cross_twice, cross_cross_left, Ha, Hb.
  set (c := dot a b) in *.
  destruct a as [a0 a1 a2], b as [b0 b1 b2].
  apply vec3_eq; cbv [vadd vsub vscale v0 v1 v2]; field; exact Hc.
Qed.

Ltac rodrigues_entry d K2 n s E :=
  transitivity (d + K2 * (2 * s - 1 - s * s * n));
  [unfold n; ring | rewrite E; ring].

(** Rodrigues' matrix [I + K + K K / k] for [K] the cross-product matrix
    of [v] is a rotation as soon as [|v|^2 = (2 - k) k]. *)
Lemma rodrigues_proper (x y z k : R) :
  k <> 0 -> x * x + y * y + z * z = (2 - k) * k ->
  proper_orthogonal
    (madd (madd eye3 (skew_symmetric_matrix (V3 x y z)))
          (mdiv (mmul (skew_symmetric_matrix (V3 x y z))
                      (skew_symmetric_matrix (V3 x y z))) k)).
Proof.
  intros Hk Hv. unfold proper_orthogonal.
  cbv [det3 mdiv mmul transpose madd vadd skew_symmetric_matrix eye3 dot Rdiv
       v0 v1 v2 r0 r1 r2].
  set (s := / k). set (n := x * x + y * y + z * z) in *.
  assert (E : 2 * s - 1 - s * s * n = 0).
  { rewrite Hv. unfold s. field. exact Hk. }
  clearbody s. clear Hv.
  split.
  - f_equal; apply vec3_eq; cbv [v0 v1 v2].
    + rodrigues_entry 1 (- (y*y + z*z)) n s E.
    + rodrigues_entry 0 (x*y) n s E.
    + rodrigues_entry 0 (x*z) n s E.
    + rodrigues_entry 0 (x*y) n s E.
    + rodrigues_entry 1 (- (x*x + z*z)) n s E.
    + rodrigues_entry 0 (y*z) n s E.
    + rodrigues_entry 0 (x*z) n s E.
    + rodrigues_entry 0 (y*z) n s E.
    + rodrigues_entry 1 (- (x*x + y*y)) n s E.
  - transitivity (1 - n * (2 * s - 1 - s * s * n));
      [unfold n; ring | rewrite E; ring].
Qed.

Lemma alignment_matrix_proper (a b : vec3) :
  dot a a = 1 -> dot b b = 1 -> 1 + dot a b <> 0 ->
  proper_orthogonal (alignment_matrix a b).
Proof.
  intros Ha Hb Hc. unfold alignment_matrix.
  pose proof (dot_cross_cross a b) as HL. rewrite Ha, Hb in HL.
  destruct (cross a b) as [x y z] eqn:Hv.
  set (c := dot a b) in *. clearbody c.
  apply rodrigues_proper; [exact Hc|].
  cbv [dot v0 v1 v2] in HL. rewrite HL. ring.
Qed.

(** *** Rotation.from_matrix on a rotation matrix *)

Lemma dist2_self (A : mat33) : dist2 A A = 0.
Proof.
  destruct A as [[? ? ?] [? ? ?] [? ? ?]].
  cbv [dist2 dot vsub v0 v1 v2 r0 r1 r2]. ring.
Qed.

Lemma dist2_nonneg (A B : mat33) : 0 <= dist2 A B.
Proof.
  destruct A as [[a00 a01 a02] [a10 a11 a12] [a20 a21 a22]],
           B as [[b00 b01 b02] [b10 b11 b12] [b20 b21 b22]].
  cbv [dist2 dot vsub v0 v1 v2 r0 r1 r2].
  assert (S : forall x : R, 0 <= x * x) by (intros; nra).
  pose proof (S (a00 - b00)). pose proof (S (a01 - b01)). pose proof (S (a02 - b02)).
  pose proof (S (a10 - b10)). pose proof (S (a11 - b11)). pose proof (S (a12 - b12)).
  pose proof (S (a20 - b20)). pose proof (S (a21 - b21)). pose proof (S (a22 - b22)).
  lra.
Qed.

Lemma dist2_zero (A B : mat33) : dist2 A B <= 0 -> B = A.
Proof.
  destruct A as [[a00 a01 a02] [a10 a11 a12] [a20 a21 a22]],
           B as [[b00 b01 b02] [b10 b11 b12] [b20 b21 b22]].
  cbv [dist2 dot vsub v0 v1 v2 r0 r1 r2]. intros H.
  assert (E : forall x y : R, (x - y) * (x - y) = 0 -> y = x) by (intros; nra).
  assert (S : forall x : R, 0 <= x * x) by (intros; nra).
  pose proof (S (a00 - b00)). pose proof (S (a01 - b01)). pose proof (S (a02 - b02)).
  pose proof (S (a10 - b10)). pose proof (S (a11 - b11)). pose proof (S (a12 - b12)).
  pose proof (S (a20 - b20)). pose proof (S (a21 - b21)). pose proof (S (a22 - b22)).
  f_equal; f_equal; apply E; lra.
Qed.

(** [from_matrix] keeps a rotation matrix: the call returns it, and
    nothing else. *)
Lemma from_matrix_rotation (A : mat33) :
  proper_orthogonal A ->
  from_matrix (Finite A) (Ok A)
  /\ forall o : outcome mat33, from_matrix (Finite A) o -> o = Ok A.
Proof.
  intros HA. assert (Hdet : det3 A = 1) by apply HA. split.
  - apply from_matrix_nearest; [lra|]. split; [exact HA|].
    intros Q' _. rewrite dist2_self. apply dist2_nonneg.
  - intros o Ho. inversion Ho as [A' Q Hd [HQ Hmin] | A' Hd |]; subst.
    + f_equal. apply dist2_zero.
      rewrite <- (dist2_self A). apply Hmin. exact HA.
    + lra.
Qed.

(** C6 (as the code has it). For every pair of unit 3-vectors [v_A],
    [v_B] with [1 + v_A . v_B] nonzero, the call returns a rotation, and
    that rotation maps [v_A] onto [v_B], so the image is parallel to
    [v_B].  The inputs are not normalised and antiparallel inputs have no
    case of their own: when [1 + v_A . v_B] is zero the array [R] is
    non-finite and the call raises LinAlgError in [Rotation.from_matrix];
    no half turn is returned. *)
Theorem C6_unit_vector_alignment (v_A v_B : vec3) :
  dot v_A v_A = 1 -> dot v_B v_B = 1 ->
  (1 + dot v_A v_B <> 0 ->
     exists Rm : mat33,
       alignment_returns v_A v_B (Ok Rm)
       /\ proper_orthogonal Rm
       /\ mapply Rm v_A = v_B
       /\ cross (mapply Rm v_A) v_B = V3 0 0 0)
  /\ (1 + dot v_A v_B = 0 ->
      matrix_R v_A v_B = NonFinite
      /\ alignment_returns v_A v_B (Raise LinAlgError)).
Proof.
  intros Ha Hb. split.
  - intros Hc. exists (alignment_matrix v_A v_B).
    pose proof (alignment_matrix_proper v_A v_B Ha Hb Hc) as Hp.
    split; [|split; [exact Hp|]].
    + unfold alignment_returns, vector_alignment_rotation, matrix_R.
      rewrite (Reqb_false _ _ Hc). apply from_matrix_rotation. exact Hp.
    + rewrite (alignment_matrix_apply v_A v_B Ha Hb Hc).
      split; [reflexivity | apply cross_self].
  - intros Hc.
    assert (E : matrix_R v_A v_B = NonFinite).
    { unfold matrix_R. rewrite (Reqb_true _ _ Hc). reflexivity. }
    split; [exact E|].
    unfold alignment_returns, vector_alignment_rotation. rewrite E. split.
    + apply from_matrix_non_finite.
    + intros o Ho. inversion Ho. reflexivity.
Qed.

Lemma C6_unit_vector_alignment_witness :
  (exists Rm : mat33,
     alignment_returns (V3 1 0 0) (V3 0 1 0) (Ok Rm)
     /\ proper_orthogonal Rm
     /\ mapply Rm (V3 1 0 0) = V3 0 1 0
     /\ cross (mapply Rm (V3 1 0 0)) (V3 0 1 0) = V3 0 0 0)
  /\ matrix_R (V3 1 0 0) (V3 (-1) 0 0) = NonFinite
  /\ alignment_returns (V3 1 0 0) (V3 (-1) 0 0) (Raise LinAlgError).
Proof.
  split.
  - apply (C6_unit_vector_alignment (V3 1 0 0) (V3 0 1 0));
      cbv [dot v0 v1 v2]; lra.
  - apply (C6_unit_vector_alignment (V3 1 0 0) (V3 (-1) 0 0));
      cbv [dot v0 v1 v2]; lra.
Defined.

(** *** Inputs that are not unit vectors *)

Lemma matrix_R_non_unit : matrix_R (V3 2 0 0) (V3 0 1 0) = Finite non_unit_R.
Proof.
  unfold matrix_R. rewrite Reqb_false.
  - f_equal.
    cbv [alignment_matrix mdiv mmul transpose madd vadd skew_symmetric_matrix
         eye3 dot cross Rdiv v0 v1 v2 r0 r1 r2 non_unit_R].
    f_equal; apply vec3_eq; cbv [v0 v1 v2]; field.
  - cbv [dot v0 v1 v2]. lra.
Qed.

(** The columns of a rotation matrix are unit vectors, and the first two
    are orthogonal. *)
Lemma proper_orthogonal_columns (Q : mat33) :
  proper_orthogonal Q ->
  v0 (r0 Q) * v0 (r0 Q) + v0 (r1 Q) * v0 (r1 Q) + v0 (r2 Q) * v0 (r2 Q) = 1
  /\ v1 (r0 Q) * v1 (r0 Q) + v1 (r1 Q) * v1 (r1 Q) + v1 (r2 Q) * v1 (r2 Q) = 1
  /\ v2 (r0 Q) * v2 (r0 Q) + v2 (r1 Q) * v2 (r1 Q) + v2 (r2 Q) * v2 (r2 Q) = 1
  /\ v0 (r0 Q) * v1 (r0 Q) + v0 (r1 Q) * v1 (r1 Q) + v0 (r2 Q) * v1 (r2 Q) = 0.
Proof.
  destruct Q as [[q00 q01 q02] [q10 q11 q12] [q20 q21 q22]].
  intros [H _]. cbv [mmul transpose eye3 dot v0 v1 v2 r0 r1 r2] in H.
  injection H as H00 H01 H02 H10 H11 H12 H20 H21 H22.
  cbv [v0 v1 v2 r0 r1 r2]. repeat split; lra.
Qed.

(** The distance from [non_unit_R] to a rotation matrix [Q] is
    30 - 2 trace(Q^T R). *)
Lemma dist2_non_unit_R (Q : mat33) :
  proper_orthogonal Q ->
  dist2 non_unit_R Q
  = 30 - 2 * ((- 3 * v0 (r0 Q) + 2 * v0 (r1 Q))
              + (- 2 * v1 (r0 Q) - 3 * v1 (r1 Q)) + v2 (r2 Q)).
Proof.
  intros H. destruct (proper_orthogonal_columns Q H) as (H0 & H1 & H2 & _).
  destruct Q as [[q00 q01 q02] [q10 q11 q12] [q20 q21 q22]].
  cbv [dist2 non_unit_R dot vsub v0 v1 v2 r0 r1 r2] in *. lra.
Qed.

Lemma cauchy_schwarz_2 (a b x y r : R) :
  0 <= r -> r * r = a * a + b * b -> x * x + y * y <= 1 -> a * x + b * y <= r.
Proof.
  intros Hr Hrr Hxy.
  assert (E : (a * x + b * y) * (a * x + b * y) + (b * x - a * y) * (b * x - a * y)
              = (a * a + b * b) * (x * x + y * y)) by ring.
  destruct (Rle_dec (a * x + b * y) r) as [H | H]; [exact H|].
  exfalso. apply Rnot_le_lt in H.
  assert (H1 : r * r < (a * x + b * y) * (a * x + b * y)).
  { apply Rmult_le_0_lt_compat; lra. }
  pose proof (Rle_0_sqr (b * x - a * y)) as H2. unfold Rsqr in H2.
  assert (H3 : 0 <= a * a + b * b) by (rewrite <- Hrr; apply Rle_0_sqr).
  assert (H4 : (a * a + b * b) * (x * x + y * y) <= (a * a + b * b) * 1).
  { apply Rmult_le_compat_l; assumption. }
  lra.
Qed.

Lemma sqrt13 : 0 < sqrt 13 /\ sqrt 13 * sqrt 13 = 13.
Proof.
  split; [apply sqrt_lt_R0; lra | apply sqrt_sqrt; lra].
Qed.

Lemma div_sqrt13 : 13 / sqrt 13 = sqrt 13.
Proof.
  destruct sqrt13 as (Hp & Hs). set (r := sqrt 13) in *. clearbody r.
  apply Rmult_eq_reg_r with r; [|lra].
  unfold Rdiv. rewrite Rmult_assoc, Rinv_l by lra. lra.
Qed.

Lemma non_unit_rotation_proper : proper_orthogonal non_unit_rotation.
Proof.
  destruct sqrt13 as (Hp & Hs).
  assert (Hi : / sqrt 13 * / sqrt 13 = / 13).
  { rewrite <- Rinv_mult, Hs. reflexivity. }
  unfold proper_orthogonal, non_unit_rotation.
  cbv [det3 mmul transpose eye3 dot Rdiv v0 v1 v2 r0 r1 r2].
  set (s := / sqrt 13) in *. clearbody s.
  split.
  - f_equal; apply vec3_eq; cbv [v0 v1 v2]; nra.
  - nra.
Qed.

Lemma non_unit_rotation_trace :
  - 3 * (- 3 / sqrt 13) + 2 * (2 / sqrt 13) = sqrt 13
  /\ - 2 * (- 2 / sqrt 13) - 3 * (- 3 / sqrt 13) = sqrt 13.
Proof.
  destruct sqrt13 as (Hp & Hs).
  split; (transitivity (13 / sqrt 13); [field; lra | exact div_sqrt13]).
Qed.

(** No rotation matrix is nearer to [non_unit_R] than [non_unit_rotation]. *)
Lemma nearest_non_unit : nearest_rotation non_unit_R non_unit_rotation.
Proof.
  split; [exact non_unit_rotation_proper|].
  intros Q' HQ'.
  rewrite (dist2_non_unit_R _ non_unit_rotation_proper), (dist2_non_unit_R _ HQ').
  destruct (proper_orthogonal_columns Q' HQ') as (H0 & H1 & H2 & _).
  destruct Q' as [[q00 q01 q02] [q10 q11 q12] [q20 q21 q22]].
  destruct sqrt13 as (Hp & Hs). destruct non_unit_rotation_trace as (E & E').
  cbv [non_unit_rotation v0 v1 v2 r0 r1 r2] in *.
  assert (A1 : -3 * q00 + 2 * q10 <= sqrt 13).
  { apply cauchy_schwarz_2; [lra | lra | nra]. }
  assert (A2 : -2 * q01 + -3 * q11 <= sqrt 13).
  { apply cauchy_schwarz_2; [lra | lra | nra]. }
  assert (A3 : q22 <= 1) by nra.
  rewrite E, E'. lra.
Qed.

(** C6 as stated fails twice.  Antiparallel inputs are not handled as a
    half turn: for (1,0,0) and (-1,0,0) the call raises and returns no
    rotation.  And for non-zero inputs that are not unit vectors, here
    (2,0,0) and (0,1,0), the array built is [[-3,-2,0],[2,-3,0],[0,0,1]],
    no rotation matrix; the rotation nearest to it is returned, which
    sends [v_A] to (-6,4,0)/sqrt(13), about (-1.66,1.11,0), not parallel
    to [v_B]; whatever the call returns, the image of [v_A] is not
    parallel to [v_B]. *)
Lemma C6_antiparallel_and_non_unit :
  (vector_alignment_rotation (V3 1 0 0) (V3 (-1) 0 0) (Raise LinAlgError)
   /\ ~ exists Q : mat33,
          vector_alignment_rotation (V3 1 0 0) (V3 (-1) 0 0) (Ok Q))
  /\ (matrix_R (V3 2 0 0) (V3 0 1 0) = Finite non_unit_R
      /\ vector_alignment_rotation (V3 2 0 0) (V3 0 1 0) (Ok non_unit_rotation)
      /\ mapply non_unit_rotation (V3 2 0 0)
         = V3 (- 6 / sqrt 13) (4 / sqrt 13) 0
      /\ forall o : outcome mat33,
           vector_alignment_rotation (V3 2 0 0) (V3 0 1 0) o ->
           exists Q : mat33,
             o = Ok Q /\ cross (mapply Q (V3 2 0 0)) (V3 0 1 0) <> V3 0 0 0).
Proof.
  assert (Ea : matrix_R (V3 1 0 0) (V3 (-1) 0 0) = NonFinite).
  { unfold matrix_R. rewrite Reqb_true; [reflexivity|]. cbv [dot v0 v1 v2]. lra. }
  split; [split | split; [|split; [|split]]].
  - unfold vector_alignment_rotation. rewrite Ea. apply from_matrix_non_finite.
  - intros [Q HQ]. unfold vector_alignment_rotation in HQ. rewrite Ea in HQ.
    inversion HQ.
  - exact matrix_R_non_unit.
  - unfold vector_alignment_rotation. rewrite matrix_R_non_unit.
    apply from_matrix_nearest; [|exact nearest_non_unit].
    cbv [det3 non_unit_R v0 v1 v2 r0 r1 r2]. lra.
  - apply vec3_eq; cbv [non_unit_rotation mapply dot v0 v1 v2 r0 r1 r2]; lra.
  - intros o Ho. unfold vector_alignment_rotation in Ho.
    rewrite matrix_R_non_unit in Ho.
    inversion Ho as [A' Q Hd [HQ Hmin] | A' Hd |]; subst.
    + exists Q. split; [reflexivity|]. intros Hx.
      pose proof (Hmin _ non_unit_rotation_proper) as Hle.
      rewrite (dist2_non_unit_R _ HQ),
              (dist2_non_unit_R _ non_unit_rotation_proper) in Hle.
      destruct (proper_orthogonal_columns Q HQ) as (H0 & H1 & H2 & H01).
      destruct Q as [[q00 q01 q02] [q10 q11 q12] [q20 q21 q22]].
      destruct sqrt13 as (Hp & Hs). destruct non_unit_rotation_trace as (E & E').
      cbv [non_unit_rotation v0 v1 v2 r0 r1 r2] in *.
      rewrite E, E' in Hle.
      cbv [cross mapply dot v0 v1 v2 r0 r1 r2] in Hx.
      injection Hx as Hx0 _ Hx2.
      assert (q00 = 0) by lra. assert (q20 = 0) by lra. subst q00 q20.
      assert (Hq10 : q10 * q10 = 1) by lra.
      assert (Hq11 : q11 = 0) by nra.
      subst q11.
      assert (3 < sqrt 13) by nra.
      assert (q10 <= 1) by nra. assert (- q01 <= 1) by nra.
      assert (q22 <= 1) by nra.
      lra.
    + exfalso. cbv [det3 non_unit_R v0 v1 v2 r0 r1 r2] in Hd. lra.
Qed.

(** ** Plane *)

Lemma head3_nonzero (P : Plane) :
  Plane_valid P ->
  0 < dot (head3 (Plane_null_space P)) (head3 (Plane_null_space P)).
Proof.
  destruct P as [[[pA pB] pC] [a b c d]]. unfold Plane_valid.
  cbv [Plane_point Plane_null_space plane_eq head3 dot w0 w1 w2 w3 v0 v1 v2].
  intros (Hu & HA & _).
  pose proof (Rle_0_sqr a) as H1. pose proof (Rle_0_sqr b) as H2.
  pose proof (Rle_0_sqr c) as H3. unfold Rsqr in *.
  destruct (Rle_lt_or_eq_dec 0 (a * a + b * b + c * c)) as [Hlt|Heq];
    [lra | exact Hlt |].
  exfalso.
  assert (Ea : a * a = 0) by lra. assert (Eb : b * b = 0) by lra.
  assert (Ec : c * c = 0) by lra.
  assert (a = 0) by (destruct (Rmult_integral _ _ Ea); assumption).
  assert (b = 0) by (destruct (Rmult_integral _ _ Eb); assumption).
  assert (c = 0) by (destruct (Rmult_integral _ _ Ec); assumption).
  subst a b c.
  assert (d = 0) by lra. subst d. lra.
Qed.

(** What [proj] returns always satisfies [a x + b y + c z = 0]: it lies on
    the plane through the origin parallel to the plane, because [perp]
    adds [point[0]] to the normal component. *)
Lemma Plane_proj_equation (P : Plane) (p : vec3) :
  Plane_valid P ->
  plane_eq (Plane_null_space P) (Plane_proj P p) = w3 (Plane_null_space P).
Proof.
  intros HP. pose proof (head3_nonzero P HP) as Hpos.
  destruct P as [[[pA pB] pC] [a b c d]].
  destruct p as [x y z], pA as [x0 y0 z0].
  cbv [Plane_proj Plane_perp Plane_point0 Plane_n norm Plane_point
       Plane_null_space plane_eq head3 dot vadd vsub vscale fst
       w0 w1 w2 w3 v0 v1 v2] in *.
  set (N := sqrt (a * a + b * b + c * c)).
  assert (HN : N * N = a * a + b * b + c * c) by (apply sqrt_sqrt; lra).
  assert (HN0 : N <> 0).
  { intros E. rewrite E in HN. lra. }
  transitivity (d + (a * (x - x0) + b * (y - y0) + c * (z - z0))
                    * (1 - (a * a + b * b + c * c) * / N * / N)).
  - field. exact HN0.
  - rewrite <- HN. field. exact HN0.
Qed.

Lemma Plane_perp_proj (P : Plane) (p : vec3) :
  Plane_perp P p = vsub p (Plane_proj P p).
Proof.
  unfold Plane_proj. destruct (Plane_perp P p) as [a b c], p as [x y z].
  apply vec3_eq; cbv [vsub v0 v1 v2]; ring.
Qed.

(** C7 (what the code does). For every valid plane and every point [p],
    [proj(p)] gives the plane's equation the value of its offset [d]: it
    satisfies [a x + b y + c z + d = 0] only for a plane through the
    origin.  [perp(p)] is [p - proj(p)]. *)
Theorem C7_plane_proj_equation (P : Plane) (p : vec3) :
  Plane_valid P ->
  plane_eq (Plane_null_space P) (Plane_proj P p) = w3 (Plane_null_space P)
  /\ (w3 (Plane_null_space P) <> 0 ->
      plane_eq (Plane_null_space P) (Plane_proj P p) <> 0)
  /\ Plane_perp P p = vsub p (Plane_proj P p).
Proof.
  intros HP. pose proof (Plane_proj_equation P p HP) as E.
  split; [exact E | split; [|apply Plane_perp_proj]].
  intros Hd. rewrite E. exact Hd.
Qed.

Lemma sqrt2_inv_sqr : / sqrt 2 * / sqrt 2 = 1 / 2.
Proof.
  assert (H2 : sqrt 2 * sqrt 2 = 2) by (apply sqrt_sqrt; lra).
  assert (Hn : sqrt 2 <> 0) by (intros E; rewrite E in H2; lra).
  rewrite <- Rinv_mult, H2. lra.
Qed.

Lemma plane_z1_valid :
  Plane_valid (plane_z1 (V4 0 0 (/ sqrt 2) (- / sqrt 2))).
Proof.
  unfold Plane_valid, plane_z1.
  cbv [Plane_point Plane_null_space plane_eq w0 w1 w2 w3 v0 v1 v2].
  pose proof sqrt2_inv_sqr as H. repeat split; lra.
Qed.

Lemma C7_plane_proj_equation_witness :
  let P := plane_z1 (V4 0 0 (/ sqrt 2) (- / sqrt 2)) in
  plane_eq (Plane_null_space P) (Plane_proj P (V3 0 0 5)) = - / sqrt 2
  /\ plane_eq (Plane_null_space P) (Plane_proj P (V3 0 0 5)) <> 0
  /\ Plane_perp P (V3 0 0 5) = vsub (V3 0 0 5) (Plane_proj P (V3 0 0 5)).
Proof.
  intros P.
  destruct (C7_plane_proj_equation P (V3 0 0 5) plane_z1_valid) as (E & Hne & Hp).
  split; [exact E | split; [|exact Hp]].
  apply Hne. cbv [P plane_z1 Plane_null_space w3].
  pose proof sqrt2_inv_sqr as H. intros E0.
  assert (Ez : / sqrt 2 = 0) by lra. rewrite Ez in H. lra.
Defined.

(** On the plane z = 1, whatever unit null-space vector scipy returns,
    [proj] sends (0,0,5) to (-1,0,0), where z = 0; the orthogonal
    projection is (0,0,1).  [perp] returns (1,0,5), which is not along the
    normal. *)
Lemma Plane_proj_on_plane_z1 (w : vec4) :
  Plane_valid (plane_z1 w) ->
  Plane_proj (plane_z1 w) (V3 0 0 5) = V3 (-1) 0 0
  /\ Plane_perp (plane_z1 w) (V3 0 0 5) = V3 1 0 5
  /\ plane_eq w (V3 (-1) 0 0) <> 0
  /\ plane_eq w (V3 0 0 1) = 0.
Proof.
  intros HP. pose proof (head3_nonzero _ HP) as Hpos. revert HP Hpos.
  destruct w as [a b c d]. unfold Plane_valid, plane_z1.
  cbv [Plane_proj Plane_perp Plane_point0 Plane_n norm Plane_point
       Plane_null_space plane_eq head3 dot vadd vsub vscale fst
       w0 w1 w2 w3 v0 v1 v2].
  intros (Hu & HA & HB & HC) Hpos.
  assert (a = 0) by lra. assert (b = 0) by lra. assert (d = - c) by lra.
  subst a b d.
  set (N := sqrt (0 * 0 + 0 * 0 + c * c)) in *.
  assert (HN : N * N = c * c).
  { unfold N. rewrite sqrt_sqrt; lra. }
  assert (Hc0 : c <> 0) by (intros E; rewrite E in Hu; lra).
  assert (HN0 : N <> 0).
  { intros E. rewrite E in HN.
    assert (Ec : c * c = 0) by lra.
    destruct (Rmult_integral _ _ Ec); contradiction. }
  assert (Hq : c / N * (c / N) = 1).
  { unfold Rdiv.
    replace (c * / N * (c * / N)) with ((c * c) * / (N * N))
      by (field; exact HN0).
    rewrite HN. field. exact Hc0. }
  assert (Hperp : 1 + ((0 - 1) * (0 / N) + (0 - 0) * (0 / N) + (5 - 1) * (c / N))
                      * (c / N) = 5).
  { replace (1 + ((0 - 1) * (0 / N) + (0 - 0) * (0 / N) + (5 - 1) * (c / N))
                 * (c / N))
      with (1 + 4 * (c / N * (c / N))) by (field; exact HN0).
    rewrite Hq. lra. }
  assert (H0N : 0 / N = 0) by (unfold Rdiv; ring).
  rewrite Hperp, H0N.
  split; [apply vec3_eq; cbv [v0 v1 v2]; lra|].
  split; [apply vec3_eq; cbv [v0 v1 v2]; lra|].
  split; [|lra].
  intros E. apply Hc0. lra.
Qed.

(** *** intersection *)

Lemma seventh_cases (t : R) : 49 * (t * t) = 1 -> t = 1 / 7 \/ t = - (1 / 7).
Proof.
  intros H. assert (E : (t - 1 / 7) * (t + 1 / 7) = 0) by lra.
  destruct (Rmult_integral _ _ E); [left | right]; lra.
Qed.

Lemma ninth_cases (t : R) : 81 * (t * t) = 1 -> t = 1 / 9 \/ t = - (1 / 9).
Proof.
  intros H. assert (E : (t - 1 / 9) * (t + 1 / 9) = 0) by lra.
  destruct (Rmult_integral _ _ E); [left | right]; lra.
Qed.

(** A unit null-space vector of the first plane is (6,2,3,0)/7 or its
    opposite; of the second, (4,7,4,0)/9 or its opposite. *)
Lemma plane_1_null_space (w : vec4) :
  Plane_valid (plane_1 w) ->
  exists t, (t = 1 / 7 \/ t = - (1 / 7)) /\ w = V4 (6 * t) (2 * t) (3 * t) 0.
Proof.
  destruct w as [a b c d]. unfold Plane_valid, plane_1.
  cbv [Plane_point Plane_null_space plane_eq w0 w1 w2 w3 v0 v1 v2].
  intros (Hu & HA & HB & HC).
  assert (d = 0) by lra. assert (a = 3 * b) by lra. assert (c = 3 * b / 2) by lra.
  subst a c d. exists (b / 2). split; [apply seventh_cases; lra | f_equal; lra].
Qed.

Lemma plane_2_null_space (u : vec4) :
  Plane_valid (plane_2 u) ->
  exists r, (r = 1 / 9 \/ r = - (1 / 9)) /\ u = V4 (4 * r) (7 * r) (4 * r) 0.
Proof.
  destruct u as [a b c d]. unfold Plane_valid, plane_2.
  cbv [Plane_point Plane_null_space plane_eq w0 w1 w2 w3 v0 v1 v2].
  intros (Hu & HA & HB & HC).
  assert (d = 0) by lra. assert (c = a) by lra. assert (b = 7 * a / 4) by lra.
  subst b c d. exists (a / 4). split; [apply ninth_cases; lra | f_equal; lra].
Qed.

Ltac known_abs :=
  repeat match goal with
  | |- context [Rabs ?x] =>
      first [ rewrite (Rabs_pos_eq x) by lra
            | rewrite (Rabs_left x) by lra ]
  end.

Ltac decide_lt :=
  repeat match goal with
  | |- context [Rlt_dec ?x ?y] =>
      destruct (Rlt_dec x y); [try (exfalso; lra) | try (exfalso; lra)]
  end.

(** The least coefficient magnitude of the two planes, 2/7, is met only
    in column 1 of the first plane: the axis eliminated is y. *)
Lemma eliminated_axis_example (t r : R) :
  (t = 1 / 7 \/ t = - (1 / 7)) -> (r = 1 / 9 \/ r = - (1 / 9)) ->
  eliminated_axis (V4 (6 * t) (2 * t) (3 * t) 0) (V4 (4 * r) (7 * r) (4 * r) 0)
  = 1%nat.
Proof.
  intros [-> | ->] [-> | ->];
    cbv [eliminated_axis argmin argmin_from w0 w1 w2 w3];
    known_abs; decide_lt; reflexivity.
Qed.

Lemma solve2_ok (p q r s e f : R) :
  p * s - q * r <> 0 ->
  solve2 p q r s e f
  = Ok ((e * s - q * f) / (p * s - q * r), (p * f - r * e) / (p * s - q * r)).
Proof. intros H. unfold solve2. rewrite (Reqb_false _ _ H). reflexivity. Qed.

Lemma list3_eq (a b c a' b' c' : R) :
  a = a' -> b = b' -> c = c' -> [a; b; c] = [a'; b'; c'].
Proof. intros -> -> ->. reflexivity. Qed.

(** When the axis eliminated is x, the two points returned do lie on both
    planes: putting the fixed coordinate in front is right for column 0. *)
Lemma intersection_axis0_on_planes (P Q : Plane) (L : Line) :
  eliminated_axis (Plane_null_space P) (Plane_null_space Q) = 0%nat ->
  Plane_intersection P Q = Ok L ->
  on_plane P (fst (Line_point L)) /\ on_plane Q (fst (Line_point L))
  /\ on_plane P (snd (Line_point L)) /\ on_plane Q (snd (Line_point L)).
Proof.
  destruct P as [ptsP [a b c d]], Q as [ptsQ [a' b' c' d']].
  unfold Plane_intersection. cbv [Plane_null_space].
  intros ->. cbv [kept_columns col w0 w1 w2 w3 solve2].
  destruct (Reqb (b * c' - c * b') 0) eqn:Hdet; [discriminate|].
  assert (Hne : b * c' - c * b' <> 0).
  { intros E. apply Reqb_true in E. rewrite E in Hdet. discriminate. }
  intros HL. injection HL as <-.
  cbv [Line_init Line_point fst snd on_plane Plane_null_space plane_eq
       w0 w1 w2 w3 v0 v1 v2].
  repeat split; field; exact Hne.
Qed.

(** C2 (a failing input). The planes through the origin with normals
    along (6,2,3) and (4,7,4) are not parallel.  Whatever unit null-space
    vectors scipy returns for them, the least coefficient magnitude, 2/7,
    sits in column 1 and nowhere else (every other magnitude is larger by
    more than 1/10), so the code solves for x and z at y = 0 and at y = 1,
    and it puts the fixed coordinate in front: the second point of the
    line returned is (1, 13/12, -17/6), which is on neither plane.  The
    point of the intersection line at y = 1 is (13/12, 1, -17/6). *)
Theorem C2_intersection_point_off_plane (w u : vec4) :
  Plane_valid (plane_1 w) -> Plane_valid (plane_2 u) ->
  (eliminated_axis w u = 1%nat
   /\ Rabs (w1 w) + 1 / 10 < Rabs (w0 w) /\ Rabs (w1 w) + 1 / 10 < Rabs (w2 w)
   /\ Rabs (w1 w) + 1 / 10 < Rabs (w0 u) /\ Rabs (w1 w) + 1 / 10 < Rabs (w1 u)
   /\ Rabs (w1 w) + 1 / 10 < Rabs (w2 u))
  /\ exists L : Line,
    Plane_intersection (plane_1 w) (plane_2 u) = Ok L
    /\ Line_point L = ([0; 0; 0], [1; 13 / 12; - (17 / 6)])
    /\ ~ on_plane (plane_1 w) [1; 13 / 12; - (17 / 6)]
    /\ ~ on_plane (plane_2 u) [1; 13 / 12; - (17 / 6)]
    /\ on_plane (plane_1 w) [13 / 12; 1; - (17 / 6)]
    /\ on_plane (plane_2 u) [13 / 12; 1; - (17 / 6)].
Proof.
  intros H1 H2.
  destruct (plane_1_null_space w H1) as (t & Ht & ->).
  destruct (plane_2_null_space u H2) as (r & Hr & ->).
  split.
  { split; [exact (eliminated_axis_example t r Ht Hr)|].
    cbv [w0 w1 w2].
    destruct Ht as [-> | ->], Hr as [-> | ->]; known_abs; repeat split; lra. }
  unfold Plane_intersection. cbv [plane_1 plane_2 Plane_null_space].
  rewrite (eliminated_axis_example t r Ht Hr).
  cbv [kept_columns col w0 w1 w2 w3].
  assert (Hdet : 6 * t * (4 * r) - 3 * t * (4 * r) <> 0)
    by (destruct Ht as [-> | ->], Hr as [-> | ->]; lra).
  rewrite !(solve2_ok _ _ _ _ _ _ Hdet).
  eexists. split; [reflexivity|].
  cbv [Line_init Line_point on_plane Plane_null_space plane_eq
       w0 w1 w2 w3 v0 v1 v2].
  split; [|split; [|split; [|split]]].
  - destruct Ht as [-> | ->], Hr as [-> | ->];
      (apply f_equal2; apply list3_eq; field).
  - destruct Ht as [-> | ->]; lra.
  - destruct Hr as [-> | ->]; lra.
  - destruct Ht as [-> | ->]; lra.
  - destruct Hr as [-> | ->]; lra.
Qed.

(** The choice of the axis can also leave a singular system: for the
    planes z = 0 and x = 0 the first least magnitude, 0, is in column 0,
    the system kept for y and z is singular and [np.linalg.solve] raises,
    though the planes meet in the y axis. *)
Lemma intersection_singular_example :
  Plane_intersection
    (mkPlane (V3 0 0 0, V3 1 0 0, V3 0 1 0) (V4 0 0 1 0))
    (mkPlane (V3 0 0 0, V3 0 1 0, V3 0 0 1) (V4 1 0 0 0))
  = Raise LinAlgError.
Proof.
  unfold Plane_intersection. cbv [Plane_null_space].
  assert (Hj : eliminated_axis (V4 0 0 1 0) (V4 1 0 0 0) = 0%nat).
  { cbv [eliminated_axis argmin argmin_from w0 w1 w2 w3].
    known_abs. decide_lt. reflexivity. }
  rewrite Hj. cbv [kept_columns col w0 w1 w2 w3 solve2].
  rewrite Reqb_true by lra. reflexivity.
Qed.

Lemma plane_1_valid : Plane_valid (plane_1 (V4 (6 / 7) (2 / 7) (3 / 7) 0)).
Proof.
  unfold Plane_valid, plane_1.
  cbv [Plane_point Plane_null_space plane_eq w0 w1 w2 w3 v0 v1 v2].
  repeat split; lra.
Qed.

Lemma plane_2_valid : Plane_valid (plane_2 (V4 (4 / 9) (7 / 9) (4 / 9) 0)).
Proof.
  unfold Plane_valid, plane_2.
  cbv [Plane_point Plane_null_space plane_eq w0 w1 w2 w3 v0 v1 v2].
  repeat split; lra.
Qed.

Lemma C2_intersection_point_off_plane_witness :
  exists L : Line,
    Plane_intersection (plane_1 (V4 (6 / 7) (2 / 7) (3 / 7) 0))
                       (plane_2 (V4 (4 / 9) (7 / 9) (4 / 9) 0)) = Ok L
    /\ Line_point L = ([0; 0; 0], [1; 13 / 12; - (17 / 6)])
    /\ ~ on_plane (plane_1 (V4 (6 / 7) (2 / 7) (3 / 7) 0)) [1; 13 / 12; - (17 / 6)]
    /\ ~ on_plane (plane_2 (V4 (4 / 9) (7 / 9) (4 / 9) 0)) [1; 13 / 12; - (17 / 6)]
    /\ on_plane (plane_1 (V4 (6 / 7) (2 / 7) (3 / 7) 0)) [13 / 12; 1; - (17 / 6)]
    /\ on_plane (plane_2 (V4 (4 / 9) (7 / 9) (4 / 9) 0)) [13 / 12; 1; - (17 / 6)].
Proof.
  exact (proj2 (C2_intersection_point_off_plane _ _ plane_1_valid plane_2_valid)).
Defined.

End GeometryFacts.

(* ===================================================================== *)
(** * Theorems: the design generator *)
(* ===================================================================== *)

Module DesignFacts.
Import Geometry DoubleWishbone Vocabulary GeometryFacts.

(** ** The generator in closed form *)

Ltac run :=
  cbv -[Rplus Rmult Rminus Ropp Rinv Rdiv IZR sin atan PI Rabs all_zero
        String.eqb nth_error map Reqb].

(** The sampling loop never raises and leaves [sampled s]. *)
Lemma DesignSpaceSampling_spec (s : KinematicSystem) :
  DesignSpaceSampling s = (Ok tt, sampled s).
Proof.
  destruct s as [tg [bLAF bLAR bUAF bUAR bTA bLB bUB bTB] smp nd ed].
  destruct bLAF as [f0 f1 f2], bLAR as [g0 g1 g2], bUAF as [h0 h1 h2],
           bUAR as [k0 k1 k2].
  destruct nd as [fI fT fW fB fX fLA fUA fTR].
  destruct fX as [xt xb xp xr xd xdf [q1 q2 q3 q4 q5]].
  destruct fW as [wt wb wp wr wd wdf [o1 o2 o3]].
  destruct (all_zero g1) eqn:E1, (all_zero h0) eqn:E2,
           (all_zero k0) eqn:E3, (all_zero k1) eqn:E4;
    repeat (progress (cbv -[Rplus Rmult Rminus Ropp Rinv Rdiv IZR all_zero];
                      rewrite ?E1, ?E2, ?E3, ?E4));
    reflexivity.
Qed.

(** The first block stops at an unknown axle label, or at [CG[2]]. *)
Lemma AllocateKnownParameters_spec (s : KinematicSystem) :
  AllocateKnownParameters s = Allocate_run s.
Proof.
  destruct s as [[veh [ax lk st sp] ltg] bd smp nd ed].
  destruct veh as [wb wd sm cg rd rk lr].
  destruct cg as [x | xs];
    [| destruct (nth_error xs 2) as [c|] eqn:E2 ];
    (destruct (ax =? "Front")%string eqn:EF;
      [| destruct (ax =? "Rear")%string eqn:ER ]);
    repeat (progress (run; rewrite ?EF, ?ER, ?E2));
    reflexivity.
Qed.

(** A value that can be subscripted at 2 has at least three entries, and
    so has its product with a number: it does not fit one entry. *)
Lemma getitem_broadcast (cg : value) (k c : R) :
  getitem cg 2 = Ok c ->
  broadcast_to_entry (value_percent cg k) = Raise ValueError.
Proof.
  destruct cg as [x | [|a [|b [|d rest]]]]; cbn; try discriminate; reflexivity.
Qed.

Lemma KinematicDesignRules_spec (s : KinematicSystem) (c : R) :
  getitem (CG (Vehicle (Target s))) 2 = Ok c ->
  KinematicDesignRules s = (Raise ValueError, rules_written s).
Proof.
  intros H. unfold KinematicDesignRules.
  cbv [bind modify get lift].
  replace (CG (Vehicle (Target (with_nodes _ (with_Target _ s)))))
    with (CG (Vehicle (Target s)))
    by (destruct s as [[? ? []] ? ? ? ?]; reflexivity).
  replace (RollCenter (Linkage_ (Target (with_nodes _ (with_Target _ s)))))
    with (RollCenter (Linkage_ (Target s)))
    by (destruct s as [[? ? []] ? ? ? ?]; reflexivity).
  rewrite (getitem_broadcast _ _ c H). reflexivity.
Qed.

(** [Design], statement by statement, is [Design_run]. *)
Lemma Design_spec (s : KinematicSystem) : Design s = Design_run s.
Proof.
  unfold Design, Design_run. unfold bind at 1.
  rewrite AllocateKnownParameters_spec. unfold Allocate_run.
  destruct (tire_longitudinal (Target s)) as [x|]; [|reflexivity].
  destruct (getitem (CG (Vehicle (Target s))) 2) as [c|e] eqn:Hc; [|reflexivity].
  cbv zeta. unfold bind. rewrite DesignSpaceSampling_spec.
  apply (KinematicDesignRules_spec _ c).
  rewrite <- Hc. destruct s as [[? ? ?] ? ? ? ?]. reflexivity.
Qed.

Lemma after_Design (s : KinematicSystem) : after Design s = snd (Design_run s).
Proof. unfold after. rewrite Design_spec. reflexivity. Qed.

Lemma result_Design (s : KinematicSystem) : result Design s = fst (Design_run s).
Proof. unfold result. rewrite Design_spec. reflexivity. Qed.

Lemma Design_run_tire (s : KinematicSystem) (x : R) :
  tire_longitudinal (Target s) = Some x ->
  v0 (Position (T (nodes (snd (Design_run s))))) = x.
Proof.
  intros H. unfold Design_run. rewrite H. cbv zeta.
  destruct (getitem (CG (Vehicle (Target s))) 2) as [c|e]; reflexivity.
Qed.

(** C1 (as the code has it). For a Target whose axle label is 'Front' the
    design generator sets the tire frame's longitudinal position to
    wheelbase x (1 - frontWeightFraction/100); for the label 'Rear' it
    sets it to -wheelbase x frontWeightFraction/100: both branches read
    entry 0 of WeightDist, the front weight fraction.  The write is made
    before anything can raise, so it holds however the run ends. *)
Theorem C1_tire_longitudinal_position (s : KinematicSystem) :
  (Axle (Type_ (Target s)) = "Front"%string ->
   v0 (Position (T (nodes (after Design s))))
   = Wheelbase (Vehicle (Target s))
     * (1 - fst (WeightDist (Vehicle (Target s))) / 100))
  /\ (Axle (Type_ (Target s)) = "Rear"%string ->
      v0 (Position (T (nodes (after Design s))))
      = - Wheelbase (Vehicle (Target s))
        * fst (WeightDist (Vehicle (Target s))) / 100).
Proof.
  rewrite after_Design. split; intros Hax.
  - apply Design_run_tire. unfold tire_longitudinal. rewrite Hax. reflexivity.
  - rewrite (Design_run_tire s
      (Wheelbase (Vehicle (Target s))
       * - fst (WeightDist (Vehicle (Target s))) / 100)).
    + unfold Rdiv. ring.
    + unfold tire_longitudinal. rewrite Hax. reflexivity.
Qed.

Lemma C1_tire_longitudinal_position_witness :
  v0 (Position (T (nodes (after Design
        (driver_system "Front" (50.0, 50.0) (Num (8.50 * 25.4))))))) = 762.5
  /\ v0 (Position (T (nodes (after Design
        (driver_system "Rear" (60, 50) (Num (8.50 * 25.4))))))) = - 915.
Proof.
  split.
  - rewrite (proj1 (C1_tire_longitudinal_position
               (driver_system "Front" (50.0, 50.0) (Num (8.50 * 25.4)))) eq_refl).
    cbv [driver_system driver_target Target Vehicle Wheelbase WeightDist fst]. lra.
  - rewrite (proj2 (C1_tire_longitudinal_position
               (driver_system "Rear" (60, 50) (Num (8.50 * 25.4)))) eq_refl).
    cbv [driver_system driver_target Target Vehicle Wheelbase WeightDist fst]. lra.
Defined.

(** C1 as stated fails for a rear axle: with wheelbase 1525 and 60% of the
    weight in front, the position is -915, not -1525 x 40/100 = -610 (nor
    -1525 x 50/100, what entry 1 of WeightDist would give). *)
Lemma C1_rear_uses_front_fraction :
  let s := driver_system "Rear" (60, 50) (Num (8.50 * 25.4)) in
  v0 (Position (T (nodes (after Design s))))
  <> - Wheelbase (Vehicle (Target s)) * rearWeightFraction (Target s) / 100
  /\ v0 (Position (T (nodes (after Design s))))
  <> - Wheelbase (Vehicle (Target s)) * snd (WeightDist (Vehicle (Target s))) / 100.
Proof.
  intros s.
  assert (H : v0 (Position (T (nodes (after Design s)))) = - 915).
  { rewrite after_Design.
    rewrite (Design_run_tire s (1525 * - 60 / 100)); [lra | reflexivity]. }
  rewrite H.
  cbv [s driver_system driver_target Target Vehicle Wheelbase WeightDist
       rearWeightFraction fst snd].
  split; lra.
Qed.

(** C9 (what the code does). No run of the design generator returns: it
    raises, at the latest when it stores [CG * RollCenter/100], the whole
    CG entry and not [CG[2]], into the one entry [Position[2]] of the roll
    centre.  The roll centre's height is left as it was.  FVSA is either
    not written (the run stopped earlier) or 1 / arctan(|camberGain|). *)
Theorem C9_roll_center_height_not_written (s : KinematicSystem) :
  (exists e : exn, result Design s = Raise e)
  /\ v2 (RC (PoI (I (nodes (after Design s))))) = v2 (RC (PoI (I (nodes s))))
  /\ (FVSA (Linkage_ (Target (after Design s))) = FVSA (Linkage_ (Target s))
      \/ FVSA (Linkage_ (Target (after Design s)))
         = Some (1 / atan (Rabs (CamberGain (Linkage_ (Target s)))))).
Proof.
  rewrite after_Design, result_Design. unfold Design_run.
  destruct (tire_longitudinal (Target s)) as [x|].
  - cbv zeta.
    destruct (getitem (CG (Vehicle (Target s))) 2) as [c|e].
    + split; [exists ValueError; reflexivity|].
      split; [reflexivity | right; reflexivity].
    + split; [exists e; reflexivity|].
      split; [reflexivity | left; reflexivity].
  - split; [exists AxleNotRecognized; reflexivity|].
    split; [reflexivity | left; reflexivity].
Qed.

(** With the data of the driver script and a CG array (0, 0, 215.9) the
    run raises ValueError and the roll-centre height stays 0;
    CG height x rollCenterHeightFraction / 100 would be 32.385. *)
Lemma Design_driver_array_CG :
  let s := driver_system "Front" (50.0, 50.0) (Arr [0; 0; 8.50 * 25.4]) in
  result Design s = Raise ValueError
  /\ v2 (RC (PoI (I (nodes (after Design s))))) = 0
  /\ 8.50 * 25.4 * RollCenter (Linkage_ (Target s)) / 100 = 32.385.
Proof.
  intros s. rewrite after_Design, result_Design.
  split; [reflexivity | split; [reflexivity|]].
  cbv [s driver_system driver_target Target Linkage_ RollCenter]. lra.
Qed.

(** With the CG entry of the driver script itself, the number 215.9,
    [CG[2]] raises at the body frame: no FVSA, no roll centre. *)
Lemma Design_driver_scalar_CG :
  let s := driver_system "Front" (50.0, 50.0) (Num (8.50 * 25.4)) in
  result Design s = Raise TypeError
  /\ FVSA (Linkage_ (Target (after Design s))) = None
  /\ v2 (RC (PoI (I (nodes (after Design s))))) = 0.
Proof.
  intros s. rewrite after_Design, result_Design.
  split; [reflexivity | split; reflexivity].
Qed.

(** ** What a run writes *)

Lemma sampled_bound_rows (b : table mat32) (P : hardpoint) (i : nat) :
  row (lookup (sampled_bound b) P) i
  = if inherited b P i then row (lookup b (sibling P i)) i
    else row (lookup b P) i.
Proof.
  destruct b as [[f0 f1 f2] [g0 g1 g2] [h0 h1 h2] [k0 k1 k2] bTA bLB bUB bTB].
  destruct P; destruct i as [|[|[|i]]];
    cbv [sampled_bound inherited sibling lookup row set_row0 set_row1
         row0 row1 row2 t_LAF t_LAR t_UAF t_UAR t_TA t_LB t_UB t_TB];
    try reflexivity;
    repeat match goal with
    | |- context [if all_zero ?r then _ else _] => destruct (all_zero r)
    end; reflexivity.
Qed.

(** C8 (as the code has it). A run of the design generator leaves the
    Target as it was or adds the entry FVSA to it, and changes nothing
    else of it; a row of the Bound is either as it was, or it was one of
    the four inheriting rows, all zero, and is now the sibling's row; the
    Sample is not written. *)
Theorem C8_target_and_bound_writes (s : KinematicSystem) :
  (Target (after Design s) = Target s
   \/ Target (after Design s)
      = set_FVSA (1 / atan (Rabs (CamberGain (Linkage_ (Target s)))))
                 (Target s))
  /\ (forall (P : hardpoint) (i : nat),
        row (lookup (Bound (after Design s)) P) i = row (lookup (Bound s) P) i
        \/ (inherited (Bound s) P i = true
            /\ row (lookup (Bound (after Design s)) P) i
               = row (lookup (Bound s) (sibling P i)) i))
  /\ Sample (after Design s) = Sample s.
Proof.
  rewrite after_Design. unfold Design_run.
  destruct (tire_longitudinal (Target s)) as [x|];
    [cbv zeta; destruct (getitem (CG (Vehicle (Target s))) 2) as [c|e] |].
  - split; [right; reflexivity|]. split; [|reflexivity].
    intros P i.
    change (Bound (snd (Raise ValueError (A:=unit),
              rules_written (sampled (body_axle_written c (tire_wheel_written x s))))))
      with (sampled_bound (Bound s)).
    rewrite sampled_bound_rows.
    destruct (inherited (Bound s) P i); [right; split; reflexivity | left; reflexivity].
  - split; [left; reflexivity|]. split; [|reflexivity].
    intros P i. left. reflexivity.
  - split; [left; reflexivity|]. split; [|reflexivity].
    intros P i. left. reflexivity.
Qed.

(** C8 as stated fails: the run writes FVSA into the Target. *)
Lemma C8_target_gains_FVSA :
  let s := driver_system "Front" (50.0, 50.0) (Arr [0; 0; 8.50 * 25.4]) in
  FVSA (Linkage_ (Target s)) = None
  /\ FVSA (Linkage_ (Target (after Design s)))
     = Some (1 / atan (Rabs (- 1.00 * (PI / (180 * 25.4)))))
  /\ Target (after Design s) <> Target s.
Proof.
  intros s.
  assert (H0 : FVSA (Linkage_ (Target s)) = None) by reflexivity.
  assert (H1 : FVSA (Linkage_ (Target (after Design s)))
               = Some (1 / atan (Rabs (- 1.00 * (PI / (180 * 25.4)))))).
  { rewrite after_Design. reflexivity. }
  split; [exact H0 | split; [exact H1|]].
  intros E. rewrite E, H0 in H1. discriminate.
Qed.


(** ** Running the generator again *)

Ltac norm :=
  cbv -[Rplus Rmult Rminus Ropp Rinv Rdiv IZR sin atan PI Rabs all_zero].

Ltac use_zero_rows :=
  repeat match goal with
         | H : all_zero ?r = _ |- context [all_zero ?r] => rewrite H
         end.

Ltac zero_rows :=
  repeat (norm; use_zero_rows;
          match goal with
          | |- context [all_zero ?r] => is_var r; destruct (all_zero r) eqn:?
          end);
  norm; use_zero_rows.

Lemma Design_run_reached (s : KinematicSystem) (x c : R) :
  tire_longitudinal (Target s) = Some x ->
  getitem (CG (Vehicle (Target s))) 2 = Ok c ->
  Design_run s = (Raise ValueError, reached x c s).
Proof. intros Hx Hc. unfold Design_run. rewrite Hx, Hc. reflexivity. Qed.

Lemma reached_inputs (x c : R) (s : KinematicSystem) :
  tire_longitudinal (Target (reached x c s)) = tire_longitudinal (Target s)
  /\ CG (Vehicle (Target (reached x c s))) = CG (Vehicle (Target s))
  /\ Bound (reached x c s) = sampled_bound (Bound s)
  /\ Sample (reached x c s) = Sample s.
Proof. repeat split; reflexivity. Qed.

Lemma poi_reached (x c : R) (s : KinematicSystem) (P : hardpoint) :
  poi (nodes (reached x c s)) P = sampled_poi (Bound s) (Sample s) P.
Proof. destruct P; reflexivity. Qed.

Lemma resolve_entry (M : mat32) (x : vec3) (i : nat) :
  entry (resolve M x) i
  = fst (row M i) + entry x i * (snd (row M i) - fst (row M i)).
Proof. destruct i as [|[|i]]; reflexivity. Qed.

Lemma sampled_poi_entry (b : table mat32) (x : table vec3)
      (P : hardpoint) (i : nat) :
  entry (sampled_poi b x P) i
  = if inherited b P i then entry (sampled_poi b x (sibling P i)) i
    else entry (resolve (lookup b P) (lookup x P)) i.
Proof.
  destruct b as [[f0 f1 f2] [g0 g1 g2] [h0 h1 h2] [k0 k1 k2] bTA bLB bUB bTB].
  destruct P; destruct i as [|[|[|i]]]; zero_rows; reflexivity.
Qed.

Lemma inherited_sampled_bound (b : table mat32) (P : hardpoint) (i : nat) :
  inherited b P i = false -> inherited (sampled_bound b) P i = false.
Proof.
  destruct b as [[f0 f1 f2] [g0 g1 g2] [h0 h1 h2] [k0 k1 k2] bTA bLB bUB bTB].
  destruct P; destruct i as [|[|[|i]]]; try reflexivity;
    cbv [inherited t_LAR t_UAF t_UAR row0 row1]; intros H;
    zero_rows; try reflexivity; try discriminate; exact H.
Qed.

Lemma second_run_entry (b : table mat32) (x : table vec3)
      (P : hardpoint) (i : nat) :
  inherited b P i = false ->
  entry (sampled_poi (sampled_bound b) x P) i = entry (sampled_poi b x P) i.
Proof.
  intros H.
  rewrite (sampled_poi_entry (sampled_bound b) x P i),
          (sampled_poi_entry b x P i), H, (inherited_sampled_bound b P i H).
  rewrite !resolve_entry.
  pose proof (sampled_bound_rows b P i) as Hr. rewrite H in Hr. rewrite Hr.
  reflexivity.
Qed.

Lemma reached_frames (x c : R) (s : KinematicSystem) :
  same_frames (nodes (reached x c (reached x c s))) (nodes (reached x c s)).
Proof. unfold same_frames. repeat split; reflexivity. Qed.

Lemma tire_wheel_twice (x : R) (s : KinematicSystem) :
  tire_wheel_written x (tire_wheel_written x s) = tire_wheel_written x s.
Proof. reflexivity. Qed.

(** After one run the Bound is a fixed point of the inheritance step, so
    a further run finds the inputs of the run before. *)
Lemma reached_thrice (x c : R) (s : KinematicSystem) :
  reached x c (reached x c (reached x c s)) = reached x c (reached x c s).
Proof.
  destruct s as [tg [bLAF bLAR bUAF bUAR bTA bLB bUB bTB] smp nd ed].
  destruct bLAF as [f0 f1 f2], bLAR as [g0 g1 g2], bUAF as [h0 h1 h2],
           bUAR as [k0 k1 k2].
  zero_rows; reflexivity.
Qed.

Lemma all_zero_true : all_zero (0, 0) = true.
Proof. unfold all_zero. cbv [fst snd]. rewrite Reqb_true by reflexivity. reflexivity. Qed.

Lemma all_zero_false (r : R * R) : fst r <> 0 -> all_zero r = false.
Proof. intros H. unfold all_zero. rewrite (Reqb_false _ _ H). reflexivity. Qed.

Lemma Design_run_unknown_axle (s : KinematicSystem) :
  tire_longitudinal (Target s) = None ->
  Design_run s = (Raise AxleNotRecognized, s).
Proof. intros H. unfold Design_run. rewrite H. reflexivity. Qed.

Lemma Design_run_no_CG (s : KinematicSystem) (x : R) (e : exn) :
  tire_longitudinal (Target s) = Some x ->
  getitem (CG (Vehicle (Target s))) 2 = Raise e ->
  Design_run s = (Raise e, tire_wheel_written x s).
Proof. intros Hx Hc. unfold Design_run. rewrite Hx, Hc. reflexivity. Qed.

Lemma sibling_not_inherited (b : table mat32) (P : hardpoint) (i : nat) :
  inherited b P i = true -> inherited b (sibling P i) i = false.
Proof.
  destruct P; destruct i as [|[|[|i]]]; cbn [inherited sibling];
    try discriminate; reflexivity.
Qed.

Lemma inherited_all_zero (b : table mat32) (P : hardpoint) (i : nat) :
  inherited b P i = true -> all_zero (row (lookup b P) i) = true.
Proof.
  destruct P; destruct i as [|[|[|i]]]; cbn [inherited];
    try discriminate; intros H; exact H.
Qed.

Lemma all_zero_spec (r : R * R) : all_zero r = true -> fst r = 0 /\ snd r = 0.
Proof.
  unfold all_zero. intros H. apply andb_prop in H. destruct H as [H1 H2].
  split; apply Reqb_spec; assumption.
Qed.

(** In a second run an inherited coordinate is resolved from the row the
    first run copied from the sibling and from the hardpoint's own sample
    (where that row is all zero as well, the second run inherits again,
    and the sibling's coordinate is the same number, 0). *)
Lemma second_run_resolved (b : table mat32) (x : table vec3)
      (P : hardpoint) (i : nat) :
  inherited b P i = true ->
  entry (sampled_poi (sampled_bound b) x P) i
  = entry (resolve (lookup (sampled_bound b) P) (lookup x P)) i.
Proof.
  intros Hi.
  rewrite (sampled_poi_entry (sampled_bound b) x P i).
  destruct (inherited (sampled_bound b) P i) eqn:H'; [|reflexivity].
  pose proof (sibling_not_inherited b P i Hi) as Hs.
  rewrite (sampled_poi_entry (sampled_bound b) x (sibling P i) i),
          (inherited_sampled_bound b (sibling P i) i Hs).
  rewrite !resolve_entry.
  pose proof (inherited_all_zero _ _ _ H') as Hz.
  pose proof (sampled_bound_rows b P i) as Hr. rewrite Hi in Hr.
  pose proof (sampled_bound_rows b (sibling P i) i) as Hr'. rewrite Hs in Hr'.
  rewrite Hr in Hz |- *. rewrite Hr'.
  destruct (all_zero_spec _ Hz) as [-> ->]. ring.
Qed.

(** C3 (as the code has it). A second run of the design generator
    reproduces the frame positions and rotations and the roll centre of
    the first, and every hardpoint coordinate that the first run did not
    inherit from a sibling (all of them when the first run stopped before
    the sampling loop).  A coordinate that the first run inherited, it
    took from the sibling, whose bound row it copied; the second run
    resolves that coordinate anew, from the copied row and the hardpoint's
    own sample.  A third run leaves the system exactly as the second
    did. *)
Theorem C3_second_and_third_run (s : KinematicSystem) :
  same_frames (nodes (after Design (after Design s))) (nodes (after Design s))
  /\ (forall (P : hardpoint) (i : nat),
        inherits s P i = false ->
        entry (poi (nodes (after Design (after Design s))) P) i
        = entry (poi (nodes (after Design s)) P) i)
  /\ (forall (P : hardpoint) (i : nat),
        inherits s P i = true ->
        entry (poi (nodes (after Design s)) P) i
        = entry (poi (nodes (after Design s)) (sibling P i)) i
        /\ row (lookup (Bound (after Design s)) P) i
           = row (lookup (Bound s) (sibling P i)) i
        /\ entry (poi (nodes (after Design (after Design s))) P) i
           = fst (row (lookup (Bound (after Design s)) P) i)
             + entry (lookup (Sample s) P) i
               * (snd (row (lookup (Bound (after Design s)) P) i)
                  - fst (row (lookup (Bound (after Design s)) P) i)))
  /\ after Design (after Design (after Design s)) = after Design (after Design s).
Proof.
  unfold inherits, reaches_sampling. rewrite !after_Design.
  destruct (tire_longitudinal (Target s)) as [x|] eqn:Hx.
  - destruct (getitem (CG (Vehicle (Target s))) 2) as [c|e] eqn:Hc.
    + rewrite (Design_run_reached s x c Hx Hc). cbv [snd].
      assert (H1 : Design_run (reached x c s)
                   = (Raise ValueError, reached x c (reached x c s))).
      { apply Design_run_reached; [exact Hx | exact Hc]. }
      rewrite H1. cbv [snd].
      assert (H2 : Design_run (reached x c (reached x c s))
                   = (Raise ValueError, reached x c (reached x c (reached x c s)))).
      { apply Design_run_reached; [exact Hx | exact Hc]. }
      rewrite H2. cbv [snd].
      split; [apply reached_frames|].
      split; [|split; [|apply reached_thrice]].
      * intros P i Hi. rewrite !poi_reached.
        apply second_run_entry. exact Hi.
      * intros P i Hi. cbn [andb] in Hi. rewrite !poi_reached.
        change (Bound (reached x c s)) with (sampled_bound (Bound s)).
        change (Sample (reached x c s)) with (Sample s).
        split; [|split].
        -- rewrite (sampled_poi_entry (Bound s) (Sample s) P i), Hi. reflexivity.
        -- rewrite sampled_bound_rows, Hi. reflexivity.
        -- rewrite (second_run_resolved _ _ _ _ Hi). apply resolve_entry.
    + rewrite (Design_run_no_CG s x e Hx Hc). cbv [snd].
      assert (H1 : Design_run (tire_wheel_written x s)
                   = (Raise e, tire_wheel_written x s)).
      { rewrite (Design_run_no_CG (tire_wheel_written x s) x e Hx Hc).
        reflexivity. }
      rewrite !H1. cbv [snd].
      split; [unfold same_frames; repeat split; reflexivity|].
      split; [reflexivity|]. split; [|reflexivity].
      intros P i Hi. discriminate.
  - rewrite !(Design_run_unknown_axle s Hx). cbv [snd].
    rewrite !(Design_run_unknown_axle s Hx). cbv [snd].
    split; [unfold same_frames; repeat split; reflexivity|].
    split; [reflexivity|]. split; [|reflexivity].
    intros P i Hi. discriminate.
Qed.

Lemma driver_reached (cg3 : R) :
  let s := driver_system "Front" (50.0, 50.0) (Arr [0; 0; cg3]) in
  after Design s = reached (1525 * (1 - 50.0 / 100)) cg3 s
  /\ after Design (after Design s)
     = reached (1525 * (1 - 50.0 / 100)) cg3
               (reached (1525 * (1 - 50.0 / 100)) cg3 s).
Proof.
  intros s.
  assert (H1 : Design_run s
               = (Raise ValueError, reached (1525 * (1 - 50.0 / 100)) cg3 s)).
  { apply Design_run_reached; reflexivity. }
  assert (H2 : Design_run (reached (1525 * (1 - 50.0 / 100)) cg3 s)
               = (Raise ValueError,
                  reached (1525 * (1 - 50.0 / 100)) cg3
                          (reached (1525 * (1 - 50.0 / 100)) cg3 s))).
  { apply Design_run_reached; reflexivity. }
  rewrite !after_Design, H1. cbv [snd]. rewrite H2. split; reflexivity.
Qed.

Lemma driver_LAR_lateral_inherited : inherited driver_bound LAR 1 = true.
Proof. exact all_zero_true. Qed.

Lemma driver_first_run_LAR (cg3 : R) :
  entry (poi (nodes (after Design
    (driver_system "Front" (50.0, 50.0) (Arr [0; 0; cg3])))) LAR) 1 = 8.7.
Proof.
  rewrite (proj1 (driver_reached cg3)), poi_reached.
  change (Bound (driver_system "Front" (50.0, 50.0) (Arr [0; 0; cg3])))
    with driver_bound.
  change (Sample (driver_system "Front" (50.0, 50.0) (Arr [0; 0; cg3])))
    with driver_sample.
  rewrite (sampled_poi_entry driver_bound driver_sample LAR 1),
          driver_LAR_lateral_inherited.
  change (sibling LAR 1) with LAF.
  rewrite (sampled_poi_entry driver_bound driver_sample LAF 1).
  change (inherited driver_bound LAF 1) with false. cbv iota.
  rewrite resolve_entry.
  cbv [row lookup driver_bound driver_sample t_LAF row1 entry v1 fst snd]. lra.
Qed.

Lemma driver_second_run_LAR (cg3 : R) :
  entry (poi (nodes (after Design (after Design
    (driver_system "Front" (50.0, 50.0) (Arr [0; 0; cg3]))))) LAR) 1 = 8.
Proof.
  rewrite (proj2 (driver_reached cg3)), poi_reached.
  change (Bound (reached _ _ (driver_system "Front" (50.0, 50.0) (Arr [0; 0; cg3]))))
    with (sampled_bound driver_bound).
  change (Sample (reached _ _ (driver_system "Front" (50.0, 50.0) (Arr [0; 0; cg3]))))
    with driver_sample.
  rewrite (sampled_poi_entry (sampled_bound driver_bound) driver_sample LAR 1).
  assert (Hrow : row (lookup (sampled_bound driver_bound) LAR) 1 = (8, 8.7)).
  { rewrite sampled_bound_rows, driver_LAR_lateral_inherited. reflexivity. }
  assert (Hi : inherited (sampled_bound driver_bound) LAR 1 = false).
  { change (inherited (sampled_bound driver_bound) LAR 1)
      with (all_zero (row (lookup (sampled_bound driver_bound) LAR) 1)).
    rewrite Hrow. apply all_zero_false. cbv [fst]. lra. }
  rewrite Hi, resolve_entry, Hrow.
  cbv [lookup driver_sample t_LAR entry v1 fst snd]. lra.
Qed.

(** C3 as stated fails on the bounds of the driver script: the first run
    gives LAR the lateral position of LAF, 8.7, and widens its lateral
    bound from [0,0] to [8,8.7]; the second run resolves it from that bound
    with LAR's own sample 0, which gives 8. *)
Lemma C3_second_run_differs :
  let s := driver_system "Front" (50.0, 50.0) (Arr [0; 0; 8.50 * 25.4]) in
  entry (poi (nodes (after Design s)) LAR) 1 = 8.7
  /\ entry (poi (nodes (after Design (after Design s))) LAR) 1 = 8
  /\ nodes (after Design (after Design s)) <> nodes (after Design s).
Proof.
  intros s.
  pose proof (driver_first_run_LAR (8.50 * 25.4)) as H1.
  pose proof (driver_second_run_LAR (8.50 * 25.4)) as H2.
  split; [exact H1 | split; [exact H2|]].
  intros E. fold s in H1, H2. rewrite E, H1 in H2. lra.
Qed.

Lemma driver_inherits_LAR :
  inherits (driver_system "Front" (50.0, 50.0) (Arr [0; 0; 8.50 * 25.4])) LAR 1
  = true.
Proof. exact all_zero_true. Qed.

Lemma C3_second_and_third_run_witness :
  let s := driver_system "Front" (50.0, 50.0) (Arr [0; 0; 8.50 * 25.4]) in
  entry (poi (nodes (after Design (after Design s))) LAF) 1
  = entry (poi (nodes (after Design s)) LAF) 1
  /\ (entry (poi (nodes (after Design s)) LAR) 1
      = entry (poi (nodes (after Design s)) (sibling LAR 1)) 1
      /\ row (lookup (Bound (after Design s)) LAR) 1
         = row (lookup (Bound s) (sibling LAR 1)) 1
      /\ entry (poi (nodes (after Design (after Design s))) LAR) 1
         = fst (row (lookup (Bound (after Design s)) LAR) 1)
           + entry (lookup (Sample s) LAR) 1
             * (snd (row (lookup (Bound (after Design s)) LAR) 1)
                - fst (row (lookup (Bound (after Design s)) LAR) 1))).
Proof.
  intros s. split.
  - apply (proj1 (proj2 (C3_second_and_third_run s)) LAF 1%nat). reflexivity.
  - apply (proj1 (proj2 (proj2 (C3_second_and_third_run s))) LAR 1%nat).
    exact driver_inherits_LAR.
Defined.

(** ** Init and the degenerate bounds *)

Lemma lookup_restrict_samples (b : table mat32) (x : table vec3) (P : hardpoint) :
  lookup (restrict_samples b x) P = restrict (lookup b P) (lookup x P).
Proof. destruct P; reflexivity. Qed.

Lemma restrict_entry (M : mat32) (x : vec3) (i : nat) :
  entry (restrict M x) i
  = if Reqb (snd (row M i) - fst (row M i)) 0 then 0 else entry x i.
Proof. destruct i as [|[|i]]; reflexivity. Qed.

Ltac decide_Reqb :=
  repeat match goal with
  | |- context [Reqb ?a ?b] =>
      first [ rewrite (Reqb_true a b) by lra
            | rewrite (Reqb_false a b) by lra ]
  end.

(** [driver_system] is what the constructor builds from the driver's
    Target and Bound. *)
Lemma Init_driver (axle : string) (wd : R * R) (cg : value) :
  Init (driver_target axle wd cg) driver_bound = driver_system axle wd cg.
Proof.
  unfold Init, driver_system. f_equal.
  cbv -[Rplus Rmult Rminus Ropp Rinv Rdiv IZR Reqb].
  decide_Reqb. reflexivity.
Qed.

(** C4 (as the code has it). [Init] sets the sample entry of every axis
    whose Bound interval has zero width to 0.  In a run that gets to the
    sampling loop, the resolved position on such an axis is boundMin
    whatever the sample holds, unless the axis is one of the four
    inheriting rows left all zero; an inheriting axis gets the sibling's
    resolved coordinate instead. *)
Theorem C4_zero_width_bound :
  (forall (target : TargetT) (bound : table mat32) (P : hardpoint) (i : nat),
      snd (row (lookup bound P) i) = fst (row (lookup bound P) i) ->
      entry (lookup (Sample (Init target bound)) P) i = 0)
  /\ (forall (s : KinematicSystem) (x c : R) (P : hardpoint) (i : nat),
        tire_longitudinal (Target s) = Some x ->
        getitem (CG (Vehicle (Target s))) 2 = Ok c ->
        (snd (row (lookup (Bound s) P) i) = fst (row (lookup (Bound s) P) i) ->
         inherited (Bound s) P i = false ->
         entry (poi (nodes (after Design s)) P) i
         = fst (row (lookup (Bound s) P) i))
        /\ (inherited (Bound s) P i = true ->
            entry (poi (nodes (after Design s)) P) i
            = entry (poi (nodes (after Design s)) (sibling P i)) i)).
Proof.
  split.
  - intros target bound P i H.
    cbv [Init Sample]. rewrite lookup_restrict_samples, restrict_entry.
    rewrite Reqb_true; [reflexivity | lra].
  - intros s x c P i Hx Hc.
    assert (E : after Design s = reached x c s).
    { rewrite after_Design, (Design_run_reached s x c Hx Hc). reflexivity. }
    rewrite E, !poi_reached. split.
    + intros Hw Hi.
      rewrite (sampled_poi_entry (Bound s) (Sample s) P i), Hi, resolve_entry, Hw.
      ring.
    + intros Hi.
      rewrite (sampled_poi_entry (Bound s) (Sample s) P i), Hi. reflexivity.
Qed.

Lemma C4_zero_width_bound_witness :
  let s := driver_system "Front" (50.0, 50.0) (Arr [0; 0; 8.50 * 25.4]) in
  entry (lookup (Sample (Init (Target s) driver_bound)) TA) 1 = 0
  /\ entry (poi (nodes (after Design s)) TA) 1 = 8.7
  /\ entry (poi (nodes (after Design s)) LAR) 1
     = entry (poi (nodes (after Design s)) LAF) 1.
Proof.
  intros s.
  destruct C4_zero_width_bound as [HInit HDesign].
  split; [|split].
  - apply (HInit (Target s) driver_bound TA 1%nat). reflexivity.
  - apply (proj1 (HDesign s (1525 * (1 - 50.0 / 100)) (8.50 * 25.4) TA 1%nat
                   eq_refl eq_refl)); reflexivity.
  - apply (proj2 (HDesign s (1525 * (1 - 50.0 / 100)) (8.50 * 25.4) LAR 1%nat
                   eq_refl eq_refl)).
    exact driver_LAR_lateral_inherited.
Defined.

(** C4 as stated fails on an inheriting axis: LAR's lateral bound [0,0]
    has zero width and its sample is 0, yet the resolved position is 8.7,
    LAF's, not boundMin = 0. *)
Lemma C4_inherited_axis_leaves_boundMin :
  let s := driver_system "Front" (50.0, 50.0) (Arr [0; 0; 8.50 * 25.4]) in
  row (lookup (Bound s) LAR) 1 = (0, 0)
  /\ entry (lookup (Sample s) LAR) 1 = 0
  /\ entry (poi (nodes (after Design s)) LAR) 1 = 8.7
  /\ entry (poi (nodes (after Design s)) LAR) 1
     <> fst (row (lookup (Bound s) LAR) 1).
Proof.
  intros s. pose proof (driver_first_run_LAR (8.50 * 25.4)) as H. fold s in H.
  split; [reflexivity | split; [reflexivity | split; [exact H|]]].
  rewrite H. cbv [s driver_system Bound lookup driver_bound t_LAR row row1 fst].
  lra.
Qed.

(** [GenerateDesign(System=['Linkage'])], the call of the driver script,
    is [Design] for a double-wishbone linkage. *)
Lemma GenerateDesign_Linkage (s : KinematicSystem) :
  Linkage (Type_ (Target s)) = "Double Wishbone"%string ->
  GenerateDesign ["Linkage"%string] s = Design s.
Proof.
  intros H. unfold GenerateDesign, GenerateDesign_from.
  change ("Linkage" =? "Linkage")%string with true. cbv iota.
  unfold bind at 1. unfold get. rewrite H.
  change ("Double Wishbone" =? "Double Wishbone")%string with true. cbv iota.
  unfold bind. rewrite Design_spec. unfold Design_run.
  destruct (tire_longitudinal (Target s)); [|reflexivity].
  cbv zeta. destruct (getitem (CG (Vehicle (Target s))) 2); reflexivity.
Qed.

End DesignFacts.

(* ===================================================================== *)
(** * More theorems: geometry.py and GeometrySolvers.py *)
(* ===================================================================== *)

Module GeometryMore.
Import Geometry GeometrySolvers Vocabulary MoreVocabulary GeometryFacts.

(** ** Arrays as lists *)

Lemma lerp_0 (A B : list R) : List.length A = List.length B -> lerp A B 0 = A.
Proof.
  unfold lerp. revert B. induction A as [|a A IH]; intros [|b B] H;
    simpl in *; try discriminate; try reflexivity.
  f_equal; [ring | apply IH; lia].
Qed.

Lemma lerp_1 (A B : list R) : List.length A = List.length B -> lerp A B 1 = B.
Proof.
  unfold lerp. revert B. induction A as [|a A IH]; intros [|b B] H;
    simpl in *; try discriminate; try reflexivity.
  f_equal; [ring | apply IH; lia].
Qed.

Lemma ladd_lsub (q p : list R) :
  List.length q = List.length p -> ladd q (lsub p q) = p.
Proof.
  unfold ladd, lsub. revert p. induction q as [|a q IH]; intros [|b p] H;
    simpl in *; try discriminate; try reflexivity.
  f_equal; [ring | apply IH; lia].
Qed.

Lemma lsub_ladd (a u : list R) :
  List.length a = List.length u -> lsub (ladd a u) a = u.
Proof.
  unfold ladd, lsub. revert u. induction a as [|x a IH]; intros [|y u] H;
    simpl in *; try discriminate; try reflexivity.
  f_equal; [ring | apply IH; lia].
Qed.

Lemma ldot_scale_l (k : R) (a b : list R) :
  ldot (map (fun x => k * x) a) b = k * ldot a b.
Proof.
  unfold ldot. revert b. induction a as [|x a IH]; intros [|y b]; simpl;
    try ring. rewrite IH. ring.
Qed.

Lemma ldot_scale_r (k : R) (a b : list R) :
  ldot a (map (fun x => k * x) b) = k * ldot a b.
Proof.
  unfold ldot. revert b. induction a as [|x a IH]; intros [|y b]; simpl;
    try ring. rewrite IH. ring.
Qed.

Lemma ldot_lsub_ladd (p a u d : list R) :
  List.length p = List.length a -> List.length a = List.length u ->
  List.length u = List.length d ->
  ldot (lsub p (ladd a u)) d = ldot (lsub p a) d - ldot u d.
Proof.
  unfold ldot, lsub, ladd. revert a u d.
  induction p as [|x p IH]; intros [|y a] [|z u] [|w d] H1 H2 H3;
    simpl in *; try discriminate; try ring.
  rewrite (IH a u d) by lia. ring.
Qed.

(** ** Line.proj and Line.perp *)

Section LineFacts.

Variables A B : list R.
Hypothesis Hlen : List.length A = List.length B.

Lemma basis_unfold : (Line_basis (Line_init A B)) = map (fun x => / (lnorm (lsub B A)) * x) (lsub B A).
Proof.
  unfold Line_init; simpl. apply map_ext. intros x. unfold Rdiv. ring.
Qed.

Lemma length_d : List.length (lsub B A) = List.length A.
Proof.
  unfold lsub. rewrite (length_map_combine _ B A (eq_sym Hlen)).
  symmetry. exact Hlen.
Qed.

Lemma length_b : List.length (Line_basis (Line_init A B)) = List.length A.
Proof. rewrite basis_unfold, length_map. apply length_d. Qed.

Lemma proj_unfold (p : list R) :
  Line_proj (Line_init A B) p
  = ladd A (map (fun x => ldot (lsub p A) (Line_basis (Line_init A B)) * x) (Line_basis (Line_init A B))).
Proof. reflexivity. Qed.

Lemma length_proj (p : list R) :
  List.length (Line_proj (Line_init A B) p) = List.length A.
Proof.
  rewrite proj_unfold. unfold ladd. apply length_map_combine.
  rewrite length_map. symmetry. apply length_b.
Qed.

Lemma proj_plus_perp (p : list R) :
  List.length p = List.length A ->
  ladd (Line_proj (Line_init A B) p) (Line_perp (Line_init A B) p) = p.
Proof.
  intros Hp. unfold Line_perp. apply ladd_lsub. rewrite length_proj. auto.
Qed.

Hypothesis Hne : lnorm (lsub B A) <> 0.

Lemma N_sqr : (lnorm (lsub B A)) * (lnorm (lsub B A)) = ldot (lsub B A) (lsub B A).
Proof. unfold lnorm. apply sqrt_sqrt. apply ldot_self_nonneg. Qed.

Lemma basis_unit : ldot (Line_basis (Line_init A B)) (Line_basis (Line_init A B)) = 1.
Proof.
  rewrite basis_unfold, ldot_scale_l, ldot_scale_r, <- N_sqr.
  field. exact Hne.
Qed.

Lemma proj_on_line (p : list R) :
  on_line A B (Line_proj (Line_init A B) p).
Proof.
  exists (ldot (lsub p A) (Line_basis (Line_init A B)) * / (lnorm (lsub B A))).
  rewrite proj_unfold. f_equal.
  set (t := ldot (lsub p A) (Line_basis (Line_init A B))). rewrite basis_unfold, map_map.
  apply map_ext. intros x. ring.
Qed.

Lemma perp_orthogonal (p : list R) :
  List.length p = List.length A ->
  ldot (Line_perp (Line_init A B) p) (lsub B A) = 0.
Proof.
  intros Hp. unfold Line_perp. rewrite proj_unfold.
  rewrite ldot_lsub_ladd.
  - rewrite ldot_scale_l, basis_unfold, ldot_scale_r, ldot_scale_l, <- N_sqr.
    field. exact Hne.
  - exact Hp.
  - rewrite length_map. symmetry. apply length_b.
  - rewrite length_map, length_b. symmetry. apply length_d.
Qed.

Lemma proj_fixes_line (q : list R) :
  on_line A B q -> Line_proj (Line_init A B) q = q.
Proof.
  intros [t Hq].
  assert (Hl : List.length A = List.length (map (fun x => t * x) (lsub B A))).
  { rewrite length_map. symmetry. apply length_d. }
  assert (E : ldot (lsub q A) (Line_basis (Line_init A B)) = t * (lnorm (lsub B A))).
  { rewrite Hq, (lsub_ladd _ _ Hl), ldot_scale_l, basis_unfold, ldot_scale_r.
    rewrite <- N_sqr. field. exact Hne. }
  rewrite proj_unfold, E, Hq. f_equal.
  rewrite basis_unfold, map_map. apply map_ext. intros x. field. exact Hne.
Qed.

End LineFacts.

(** The line through (0,0,0) and (2,0,0) has a direction. *)
Lemma x_axis_direction : lnorm (lsub [2; 0; 0] [0; 0; 0]) <> 0.
Proof.
  intros E. unfold lnorm in E. apply sqrt_eq_0 in E.
  - unfold ldot, lsub in E. cbn [combine map fold_right fst snd] in E. lra.
  - apply ldot_self_nonneg.
Qed.

(** X1. Evaluating a line at the [index]-th coordinate of its first
    defining point gives back that point, and likewise for the second,
    when the two points differ on that coordinate. *)
Theorem X1_line_call_round_trip (A B : list R) (index : nat) (a b : R) :
  List.length A = List.length B ->
  nth_error A index = Some a -> nth_error B index = Some b -> a <> b ->
  Line_call (Line_init A B) a index = Ok (Finite A)
  /\ Line_call (Line_init A B) b index = Ok (Finite B).
Proof.
  intros Hlen Ha Hb Hab.
  assert (Hne : b - a <> 0) by lra.
  unfold Line_call, Line_init; simpl. rewrite Ha, Hb, (Reqb_false _ _ Hne).
  split; do 2 f_equal.
  - replace ((a - a) / (b - a)) with 0 by (field; exact Hne).
    apply lerp_0. exact Hlen.
  - replace ((b - a) / (b - a)) with 1 by (field; exact Hne).
    apply lerp_1. exact Hlen.
Qed.

Lemma X1_line_call_round_trip_witness :
  Line_call (Line_init [0; 0; 0] [2; 0; 0]) 0 0 = Ok (Finite [0; 0; 0])
  /\ Line_call (Line_init [0; 0; 0] [2; 0; 0]) 2 0 = Ok (Finite [2; 0; 0]).
Proof.
  apply (X1_line_call_round_trip [0; 0; 0] [2; 0; 0] 0 0 2 eq_refl eq_refl eq_refl).
  lra.
Defined.

(** X2. For two arrays of one shape, [lerp] at 0 is the first point and
    at 1 the second, the result has their shape, and swapping the points
    is the same as replacing [alpha] by [1 - alpha]. *)
Theorem X2_lerp_endpoints (A B : list R) :
  List.length A = List.length B ->
  lerp A B 0 = A /\ lerp A B 1 = B
  /\ forall alpha : R,
       List.length (lerp A B alpha) = List.length A
       /\ lerp B A (1 - alpha) = lerp A B alpha.
Proof.
  intros Hlen. split; [apply lerp_0, Hlen|]. split; [apply lerp_1, Hlen|].
  intros alpha. split.
  - unfold lerp. rewrite length_map, length_combine, <- Hlen. apply Nat.min_id.
  - unfold lerp. clear Hlen. revert B.
    induction A as [|a A IH]; intros [|b B]; simpl; try reflexivity.
    f_equal; [ring | apply IH].
Qed.

Lemma X2_lerp_endpoints_witness :
  lerp [0; 0; 0] [2; 0; 0] 0 = [0; 0; 0] /\ lerp [0; 0; 0] [2; 0; 0] 1 = [2; 0; 0]
  /\ forall alpha : R,
       List.length (lerp [0; 0; 0] [2; 0; 0] alpha) = List.length [0; 0; 0]
       /\ lerp [2; 0; 0] [0; 0; 0] (1 - alpha) = lerp [0; 0; 0] [2; 0; 0] alpha.
Proof.
  apply (X2_lerp_endpoints [0; 0; 0] [2; 0; 0] eq_refl).
Defined.

(** X3. For a line through two distinct points and a point [p] of their
    shape, [proj(p)] is a point of the line, [perp(p)] is orthogonal to
    the line's direction, and [proj(p) + perp(p)] is [p]. *)
Theorem X3_line_proj_orthogonal (A B p : list R) :
  List.length A = List.length B -> List.length p = List.length A ->
  lnorm (lsub B A) <> 0 ->
  on_line A B (Line_proj (Line_init A B) p)
  /\ ldot (Line_perp (Line_init A B) p) (lsub B A) = 0
  /\ ladd (Line_proj (Line_init A B) p) (Line_perp (Line_init A B) p) = p.
Proof.
  intros Hlen Hp Hne. split; [|split].
  - apply proj_on_line.
  - apply perp_orthogonal; assumption.
  - apply proj_plus_perp; assumption.
Qed.

Lemma X3_line_proj_orthogonal_witness :
  on_line [0; 0; 0] [2; 0; 0] (Line_proj (Line_init [0; 0; 0] [2; 0; 0]) [1; 1; 0])
  /\ ldot (Line_perp (Line_init [0; 0; 0] [2; 0; 0]) [1; 1; 0])
          (lsub [2; 0; 0] [0; 0; 0]) = 0
  /\ ladd (Line_proj (Line_init [0; 0; 0] [2; 0; 0]) [1; 1; 0])
          (Line_perp (Line_init [0; 0; 0] [2; 0; 0]) [1; 1; 0]) = [1; 1; 0].
Proof.
  apply (X3_line_proj_orthogonal [0; 0; 0] [2; 0; 0] [1; 1; 0] eq_refl eq_refl).
  exact x_axis_direction.
Defined.

(** X4. For a line through two distinct points, [proj] leaves every point
    of the line where it is; so projecting twice is projecting once, and
    the two defining points are their own projections. *)
Theorem X4_line_proj_fixes_line (A B : list R) :
  List.length A = List.length B -> lnorm (lsub B A) <> 0 ->
  (forall q : list R, on_line A B q -> Line_proj (Line_init A B) q = q)
  /\ (forall p : list R,
        Line_proj (Line_init A B) (Line_proj (Line_init A B) p)
        = Line_proj (Line_init A B) p)
  /\ Line_proj (Line_init A B) A = A /\ Line_proj (Line_init A B) B = B.
Proof.
  intros Hlen Hne.
  assert (H : forall q, on_line A B q -> Line_proj (Line_init A B) q = q)
    by (intros q; apply proj_fixes_line; assumption).
  split; [exact H|]. split; [|split].
  - intros p. apply H, proj_on_line.
  - apply H. pose proof (lerp_on_line A B 0 Hlen) as H0.
    rewrite (lerp_0 A B Hlen) in H0. exact H0.
  - apply H. pose proof (lerp_on_line A B 1 Hlen) as H1.
    rewrite (lerp_1 A B Hlen) in H1. exact H1.
Qed.

Lemma X4_line_proj_fixes_line_witness :
  Line_proj (Line_init [0; 0; 0] [2; 0; 0]) [2; 0; 0] = [2; 0; 0].
Proof.
  apply (X4_line_proj_fixes_line [0; 0; 0] [2; 0; 0] eq_refl x_axis_direction).
Defined.

(** ** Plane *)

(** X5. For a valid plane, [n] is a unit vector orthogonal to the two
    edges from the first defining point. *)
Theorem X5_plane_unit_normal (P : Plane) :
  Plane_valid P ->
  let '(pA, pB, pC) := Plane_point P in
  dot (Plane_n P) (Plane_n P) = 1
  /\ dot (Plane_n P) (vsub pB pA) = 0
  /\ dot (Plane_n P) (vsub pC pA) = 0.
Proof.
  intros HP. pose proof (head3_nonzero P HP) as Hpos. revert HP Hpos.
  destruct P as [[[pA pB] pC] [a b c d]].
  destruct pA as [xa ya za], pB as [xb yb zb], pC as [xc yc zc].
  unfold Plane_valid.
  cbv [Plane_n norm Plane_point Plane_null_space plane_eq head3 dot vsub
       w0 w1 w2 w3 v0 v1 v2].
  intros (Hu & HA & HB & HC) Hpos.
  set (N := sqrt (a * a + b * b + c * c)).
  assert (HN : N * N = a * a + b * b + c * c) by (apply sqrt_sqrt; lra).
  assert (HN0 : N <> 0) by (intros E; rewrite E in HN; lra).
  split; [|split].
  - transitivity ((a * a + b * b + c * c) * / (N * N)); [field; exact HN0|].
    rewrite HN. field. lra.
  - transitivity (((a * xb + b * yb + c * zb + d)
                   - (a * xa + b * ya + c * za + d)) / N);
      [field; exact HN0|]. rewrite HA, HB. field. exact HN0.
  - transitivity (((a * xc + b * yc + c * zc + d)
                   - (a * xa + b * ya + c * za + d)) / N);
      [field; exact HN0|]. rewrite HA, HC. field. exact HN0.
Qed.

Lemma X5_plane_unit_normal_witness :
  let P := plane_z1 (V4 0 0 (/ sqrt 2) (- / sqrt 2)) in
  dot (Plane_n P) (Plane_n P) = 1
  /\ dot (Plane_n P) (vsub (V3 2 0 1) (V3 1 0 1)) = 0
  /\ dot (Plane_n P) (vsub (V3 1 1 1) (V3 1 0 1)) = 0.
Proof.
  exact (X5_plane_unit_normal _ plane_z1_valid).
Defined.

Lemma plane_y0_z0_axis :
  eliminated_axis (Plane_null_space plane_y0) (Plane_null_space plane_z0) = 0%nat.
Proof.
  cbv [plane_y0 plane_z0 Plane_null_space eliminated_axis argmin argmin_from
       w0 w1 w2 w3].
  known_abs. decide_lt. reflexivity.
Qed.

Lemma plane_y0_z0_line :
  Plane_intersection plane_y0 plane_z0
  = Ok (Line_init [0; (- 0 * 1 - 0 * - 0) / (1 * 1 - 0 * 0);
                      (1 * - 0 - 0 * - 0) / (1 * 1 - 0 * 0)]
                  [1; (- (0 + 0) * 1 - 0 * - (0 + 0)) / (1 * 1 - 0 * 0);
                      (1 * - (0 + 0) - 0 * - (0 + 0)) / (1 * 1 - 0 * 0)]).
Proof.
  unfold Plane_intersection. rewrite plane_y0_z0_axis.
  cbv [plane_y0 plane_z0 Plane_null_space kept_columns col w0 w1 w2 w3].
  rewrite !solve2_ok by lra. reflexivity.
Qed.

(** X6. When the axis eliminated is x and the call returns, the two
    points of the line returned lie on both planes. *)
Theorem X6_intersection_axis0 (P Q : Plane) (L : Line) :
  eliminated_axis (Plane_null_space P) (Plane_null_space Q) = 0%nat ->
  Plane_intersection P Q = Ok L ->
  on_plane P (fst (Line_point L)) /\ on_plane Q (fst (Line_point L))
  /\ on_plane P (snd (Line_point L)) /\ on_plane Q (snd (Line_point L)).
Proof.
  destruct P as [ptsP [a b c d]], Q as [ptsQ [a' b' c' d']].
  unfold Plane_intersection. cbv [Plane_null_space].
  intros ->. cbv [kept_columns col w0 w1 w2 w3 solve2].
  destruct (Reqb (b * c' - c * b') 0) eqn:Hdet; [discriminate|].
  assert (Hne : b * c' - c * b' <> 0).
  { intros E. apply Reqb_true in E. rewrite E in Hdet. discriminate. }
  intros HL. injection HL as <-.
  cbv [Line_init Line_point fst snd on_plane Plane_null_space plane_eq
       w0 w1 w2 w3 v0 v1 v2].
  repeat split; field; exact Hne.
Qed.

Lemma X6_intersection_axis0_witness :
  exists L : Line,
    Plane_intersection plane_y0 plane_z0 = Ok L
    /\ on_plane plane_y0 (fst (Line_point L))
    /\ on_plane plane_z0 (fst (Line_point L))
    /\ on_plane plane_y0 (snd (Line_point L))
    /\ on_plane plane_z0 (snd (Line_point L)).
Proof.
  eexists. split; [exact plane_y0_z0_line|].
  exact (X6_intersection_axis0 _ _ _ plane_y0_z0_axis plane_y0_z0_line).
Defined.

Lemma eliminated_axis_neg (w u : vec4) :
  eliminated_axis (neg4 w) u = eliminated_axis w u
  /\ eliminated_axis w (neg4 u) = eliminated_axis w u.
Proof.
  unfold eliminated_axis, neg4; cbv [w0 w1 w2 w3]. rewrite !Rabs_Ropp.
  split; reflexivity.
Qed.

Lemma solve2_neg_first (p q r s e f : R) :
  solve2 (- p) (- q) r s (- e) f = solve2 p q r s e f.
Proof.
  unfold solve2.
  destruct (Req_dec (p * s - q * r) 0) as [E|E].
  - rewrite !Reqb_true; [reflexivity | exact E | lra].
  - rewrite !Reqb_false; [|exact E | lra].
    f_equal. f_equal; field; lra.
Qed.

Lemma solve2_neg_second (p q r s e f : R) :
  solve2 p q (- r) (- s) e (- f) = solve2 p q r s e f.
Proof.
  unfold solve2.
  destruct (Req_dec (p * s - q * r) 0) as [E|E].
  - rewrite !Reqb_true; [reflexivity | exact E | lra].
  - rewrite !Reqb_false; [|exact E | lra].
    f_equal. f_equal; field; lra.
Qed.

Lemma col_neg4 (w : vec4) (j : nat) : col (neg4 w) j = - col w j.
Proof. destruct j as [|[|[|j]]]; reflexivity. Qed.

(** X7. The line returned by [intersection] does not depend on the sign
    of the null-space vector of either plane. *)
Theorem X7_intersection_sign (ptsP ptsQ : vec3 * vec3 * vec3) (w u : vec4) :
  Plane_intersection (mkPlane ptsP (neg4 w)) (mkPlane ptsQ u)
  = Plane_intersection (mkPlane ptsP w) (mkPlane ptsQ u)
  /\ Plane_intersection (mkPlane ptsP w) (mkPlane ptsQ (neg4 u))
     = Plane_intersection (mkPlane ptsP w) (mkPlane ptsQ u).
Proof.
  unfold Plane_intersection. cbv [Plane_null_space].
  destruct (eliminated_axis_neg w u) as [E1 E2]. rewrite E1, E2.
  destruct (kept_columns (eliminated_axis w u)) as [k l].
  rewrite !col_neg4.
  change (w3 (neg4 w)) with (- w3 w). change (w3 (neg4 u)) with (- w3 u).
  split.
  - replace (- (- w3 w + - col w (eliminated_axis w u)))
      with (- - (w3 w + col w (eliminated_axis w u))) by ring.
    rewrite (solve2_neg_first (col w k) (col w l) (col u k) (col u l)
               (- w3 w) (- w3 u)).
    rewrite (solve2_neg_first (col w k) (col w l) (col u k) (col u l)
               (- (w3 w + col w (eliminated_axis w u)))).
    reflexivity.
  - replace (- (- w3 u + - col u (eliminated_axis w u)))
      with (- - (w3 u + col u (eliminated_axis w u))) by ring.
    rewrite (solve2_neg_second (col w k) (col w l) (col u k) (col u l)
               (- w3 w) (- w3 u)).
    rewrite (solve2_neg_second (col w k) (col w l) (col u k) (col u l) _
               (- (w3 u + col u (eliminated_axis w u)))).
    reflexivity.
Qed.

(** X8. When [intersection] returns, the two defining points of the line
    have first coordinates 0 and 1, so they are distinct and the line has
    a direction; when it raises, it is the LinAlgError of a singular
    system. *)
Theorem X8_intersection_outcome (P Q : Plane) :
  (forall L, Plane_intersection P Q = Ok L ->
     exists a0 a1 b0 b1 : R,
       Line_point L = ([0; a0; a1], [1; b0; b1])
       /\ lnorm (lsub [1; b0; b1] [0; a0; a1]) <> 0)
  /\ (forall e, Plane_intersection P Q = Raise e -> e = LinAlgError).
Proof.
  unfold Plane_intersection.
  destruct (kept_columns _) as [k l]. unfold solve2.
  destruct (Reqb _ 0); split.
  - intros L H. discriminate.
  - intros e H. injection H as <-. reflexivity.
  - intros L H. injection H as <-. do 4 eexists. split; [reflexivity|].
    unfold lnorm, lsub, ldot. cbn [combine map fold_right fst snd].
    intros E. apply sqrt_eq_0 in E.
    + match type of E with ?x * ?x + (?y * ?y + (?z * ?z + 0)) = 0 =>
        pose proof (Rle_0_sqr y) as Hy; pose proof (Rle_0_sqr z) as Hz;
        unfold Rsqr in Hy, Hz end.
      lra.
    + match goal with |- 0 <= ?x * ?x + (?y * ?y + (?z * ?z + 0)) =>
        pose proof (Rle_0_sqr y) as Hy; pose proof (Rle_0_sqr z) as Hz;
        unfold Rsqr in Hy, Hz end.
      lra.
  - intros e H. discriminate.
Qed.

Lemma X8_intersection_outcome_witness :
  exists a0 a1 b0 b1 : R,
    Line_point (Line_init [0; (- 0 * 1 - 0 * - 0) / (1 * 1 - 0 * 0);
                              (1 * - 0 - 0 * - 0) / (1 * 1 - 0 * 0)]
                  [1; (- (0 + 0) * 1 - 0 * - (0 + 0)) / (1 * 1 - 0 * 0);
                      (1 * - (0 + 0) - 0 * - (0 + 0)) / (1 * 1 - 0 * 0)])
    = ([0; a0; a1], [1; b0; b1])
    /\ lnorm (lsub [1; b0; b1] [0; a0; a1]) <> 0.
Proof.
  exact (proj1 (X8_intersection_outcome plane_y0 plane_z0) _ plane_y0_z0_line).
Defined.

(** ** vector_alignment_rotation *)

Lemma dot_comm (a b : vec3) : dot a b = dot b a.
Proof. destruct a, b. cbv [dot v0 v1 v2]. ring. Qed.

Lemma eye3_proper : proper_orthogonal eye3.
Proof.
  unfold proper_orthogonal.
  cbv [det3 mmul transpose eye3 dot v0 v1 v2 r0 r1 r2].
  split; [f_equal; apply vec3_eq; cbv [v0 v1 v2]; ring | ring].
Qed.

(** X9. Aligning any vector with itself gives the identity: the array
    built is the identity matrix, and the call returns it as the
    rotation, and nothing else. *)
Theorem X9_alignment_self (v : vec3) :
  matrix_R v v = Finite eye3
  /\ vector_alignment_rotation v v (Ok eye3)
  /\ forall o : outcome mat33, vector_alignment_rotation v v o -> o = Ok eye3.
Proof.
  assert (E : matrix_R v v = Finite eye3).
  { unfold matrix_R.
    assert (H : 1 + dot v v <> 0).
    { destruct v as [x y z]. cbv [dot v0 v1 v2].
      pose proof (Rle_0_sqr x) as Hx. pose proof (Rle_0_sqr y) as Hy.
      pose proof (Rle_0_sqr z) as Hz. unfold Rsqr in *. lra. }
    rewrite (Reqb_false _ _ H). f_equal.
    unfold alignment_matrix. rewrite cross_self.
    cbv [mdiv mmul transpose madd vadd skew_symmetric_matrix eye3 dot Rdiv
         v0 v1 v2 r0 r1 r2].
    f_equal; apply vec3_eq; cbv [v0 v1 v2]; ring. }
  split; [exact E|].
  unfold vector_alignment_rotation. rewrite E.
  apply from_matrix_rotation. exact eye3_proper.
Qed.

Lemma alignment_matrix_swap (a b : vec3) :
  alignment_matrix b a = transpose (alignment_matrix a b).
Proof.
  unfold alignment_matrix. rewrite (dot_comm b a).
  set (k := / (1 + dot a b)).
  destruct a as [a0 a1 a2], b as [b0 b1 b2].
  cbv [mdiv mmul transpose madd vadd skew_symmetric_matrix eye3 dot cross Rdiv
       v0 v1 v2 r0 r1 r2].
  fold k.
  f_equal; apply vec3_eq; cbv [v0 v1 v2]; ring.
Qed.

(** X10. When the array built for [(v_A, v_B)] is finite, the array built
    for [(v_B, v_A)] is its transpose, and the array leaves the axis
    [v_A x v_B] where it is. *)
Theorem X10_alignment_swap (a b : vec3) (Rm : mat33) :
  matrix_R a b = Finite Rm ->
  matrix_R b a = Finite (transpose Rm)
  /\ mapply Rm (cross a b) = cross a b.
Proof.
  unfold matrix_R. rewrite (dot_comm b a).
  destruct (Reqb (1 + dot a b) 0); [discriminate|].
  intros H. injection H as <-. split.
  - f_equal. apply alignment_matrix_swap.
  - unfold alignment_matrix.
    rewrite !mapply_madd, mapply_mdiv, mapply_mmul, mapply_eye3, !skew_apply.
    rewrite cross_self.
    destruct (cross a b) as [x y z].
    apply vec3_eq; cbv [vadd vscale cross v0 v1 v2]; ring.
Qed.

Lemma alignment_x_to_y :
  matrix_R (V3 1 0 0) (V3 0 1 0)
  = Finite (alignment_matrix (V3 1 0 0) (V3 0 1 0)).
Proof.
  unfold matrix_R. rewrite Reqb_false; [reflexivity|].
  cbv [dot v0 v1 v2]. lra.
Qed.

Lemma X10_alignment_swap_witness :
  matrix_R (V3 0 1 0) (V3 1 0 0)
  = Finite (transpose (alignment_matrix (V3 1 0 0) (V3 0 1 0)))
  /\ mapply (alignment_matrix (V3 1 0 0) (V3 0 1 0))
            (cross (V3 1 0 0) (V3 0 1 0))
     = cross (V3 1 0 0) (V3 0 1 0).
Proof.
  exact (X10_alignment_swap _ _ _ alignment_x_to_y).
Defined.

(** ** GeometrySolvers.py *)

Lemma raw_normal_orthogonal (p1 p2 p3 : vec3) :
  dot (raw_normal p1 p2 p3) (vsub p1 p2) = 0
  /\ dot (raw_normal p1 p2 p3) (vsub p1 p3) = 0.
Proof.
  destruct p1, p2, p3. cbv [raw_normal cross dot vsub v0 v1 v2]. split; ring.
Qed.

Lemma norm_sqr (a : vec3) : norm a * norm a = dot a a.
Proof.
  unfold norm. apply sqrt_sqrt. destruct a as [x y z]. cbv [dot v0 v1 v2].
  pose proof (Rle_0_sqr x) as Hx. pose proof (Rle_0_sqr y) as Hy.
  pose proof (Rle_0_sqr z) as Hz. unfold Rsqr in *. lra.
Qed.

Lemma unit_normal_spec (p1 p2 p3 : vec3) :
  norm (raw_normal p1 p2 p3) <> 0 ->
  dot (unit_normal p1 p2 p3) (unit_normal p1 p2 p3) = 1
  /\ dot (unit_normal p1 p2 p3) (vsub p1 p2) = 0
  /\ dot (unit_normal p1 p2 p3) (vsub p1 p3) = 0.
Proof.
  intros HN. pose proof (norm_sqr (raw_normal p1 p2 p3)) as Hs.
  destruct (raw_normal_orthogonal p1 p2 p3) as [H2 H3].
  unfold unit_normal. set (N := norm (raw_normal p1 p2 p3)) in *.
  destruct (raw_normal p1 p2 p3) as [a b c].
  destruct (vsub p1 p2) as [x2 y2 z2], (vsub p1 p3) as [x3 y3 z3].
  cbv [dot v0 v1 v2] in *.
  split; [|split].
  - transitivity ((a * a + b * b + c * c) * / (N * N)); [field; exact HN|].
    rewrite <- Hs. field. exact HN.
  - transitivity ((a * x2 + b * y2 + c * z2) / N); [field; exact HN|].
    rewrite H2. field. exact HN.
  - transitivity ((a * x3 + b * y3 + c * z3) / N); [field; exact HN|].
    rewrite H3. field. exact HN.
Qed.

(** The points (0,0,0), (1,0,0), (0,1,0): the raw normal is (0,0,1). *)
Lemma xy_triangle_normal :
  raw_normal (V3 0 0 0) (V3 1 0 0) (V3 0 1 0) = V3 0 0 1.
Proof. apply vec3_eq; cbv [raw_normal cross vsub v0 v1 v2]; ring. Qed.

Lemma xy_triangle_norm : norm (raw_normal (V3 0 0 0) (V3 1 0 0) (V3 0 1 0)) <> 0.
Proof.
  intros E. pose proof (norm_sqr (raw_normal (V3 0 0 0) (V3 1 0 0) (V3 0 1 0))) as H.
  rewrite E, xy_triangle_normal in H. cbv [dot v0 v1 v2] in H. lra.
Qed.

Lemma xy_triangle_unit_z :
  v2 (unit_normal (V3 0 0 0) (V3 1 0 0) (V3 0 1 0)) <> 0.
Proof.
  pose proof xy_triangle_norm as HN. unfold unit_normal.
  set (N := norm (raw_normal (V3 0 0 0) (V3 1 0 0) (V3 0 1 0))) in *.
  rewrite xy_triangle_normal. cbv [v2]. intros E.
  apply (Rmult_eq_compat_r N) in E. unfold Rdiv in E.
  rewrite Rmult_assoc, Rinv_l, Rmult_0_l in E; [lra | exact HN].
Qed.

(** X11. For three points that are not collinear, form 'n' returns a unit
    vector orthogonal to the two edges from the first point. *)
Theorem X11_three_point_plane_normal (p1 p2 p3 : vec3) :
  norm (raw_normal p1 p2 p3) <> 0 ->
  exists n : vec3,
    ThreePointPlane p1 p2 p3 "n" = Ok (Normal (Finite n))
    /\ dot n n = 1
    /\ dot n (vsub p1 p2) = 0 /\ dot n (vsub p1 p3) = 0.
Proof.
  intros HN. exists (unit_normal p1 p2 p3). split.
  - unfold ThreePointPlane. cbn [String.eqb Ascii.eqb Bool.eqb].
    rewrite (Reqb_false _ _ HN). reflexivity.
  - apply unit_normal_spec. exact HN.
Qed.

Lemma X11_three_point_plane_normal_witness :
  exists n : vec3,
    ThreePointPlane (V3 0 0 0) (V3 1 0 0) (V3 0 1 0) "n" = Ok (Normal (Finite n))
    /\ dot n n = 1
    /\ dot n (vsub (V3 0 0 0) (V3 1 0 0)) = 0
    /\ dot n (vsub (V3 0 0 0) (V3 0 1 0)) = 0.
Proof.
  exact (X11_three_point_plane_normal _ _ _ xy_triangle_norm).
Defined.

Lemma graph_value (n0 n1 n2 a b c a1 b1 c1 : R) :
  n2 <> 0 ->
  n0 * (a1 - a) + n1 * (b1 - b) + n2 * (c1 - c) = 0 ->
  - (n0 * (a - a1) + n1 * (b - b1)) / n2 + c1 = c.
Proof.
  intros Hn H.
  assert (E : n0 * (a - a1) + n1 * (b - b1) = n2 * (c1 - c)) by lra.
  rewrite E. field. exact Hn.
Qed.

Lemma unit_normal_third (p1 p2 p3 : vec3) :
  norm (raw_normal p1 p2 p3) <> 0 ->
  forall q, q = p1 \/ q = p2 \/ q = p3 ->
  v0 (unit_normal p1 p2 p3) * (v0 p1 - v0 q)
  + v1 (unit_normal p1 p2 p3) * (v1 p1 - v1 q)
  + v2 (unit_normal p1 p2 p3) * (v2 p1 - v2 q) = 0.
Proof.
  intros HN q Hq. destruct (unit_normal_spec p1 p2 p3 HN) as (_ & H2 & H3).
  destruct Hq as [-> | [-> | ->]].
  - ring.
  - exact H2.
  - exact H3.
Qed.

(** X12. For three points that are not collinear, the function returned
    for form 'x', 'y' or 'z' passes through each of the three points,
    when the normal's component along that axis is not zero. *)
Theorem X12_three_point_plane_graph (p1 p2 p3 q : vec3) :
  norm (raw_normal p1 p2 p3) <> 0 ->
  q = p1 \/ q = p2 \/ q = p3 ->
  (v0 (unit_normal p1 p2 p3) <> 0 ->
     passes_through (ThreePointPlane p1 p2 p3 "x") (v1 q) (v2 q) (v0 q))
  /\ (v1 (unit_normal p1 p2 p3) <> 0 ->
     passes_through (ThreePointPlane p1 p2 p3 "y") (v0 q) (v2 q) (v1 q))
  /\ (v2 (unit_normal p1 p2 p3) <> 0 ->
     passes_through (ThreePointPlane p1 p2 p3 "z") (v0 q) (v1 q) (v2 q)).
Proof.
  intros HN Hq. pose proof (unit_normal_third p1 p2 p3 HN q Hq) as H.
  split; [|split]; intros Hn; unfold passes_through, ThreePointPlane;
    cbn [String.eqb Ascii.eqb Bool.eqb]; eexists; (split; [reflexivity|]);
    cbv beta; rewrite (Reqb_false _ _ HN), (Reqb_false _ _ Hn);
    cbn [orb]; f_equal; apply graph_value; try exact Hn; lra.
Qed.

Lemma X12_three_point_plane_graph_witness :
  passes_through (ThreePointPlane (V3 0 0 0) (V3 1 0 0) (V3 0 1 0) "z") 1 0 0.
Proof.
  exact (proj2 (proj2 (X12_three_point_plane_graph
                         (V3 0 0 0) (V3 1 0 0) (V3 0 1 0) (V3 1 0 0)
                         xy_triangle_norm (or_intror (or_introl eq_refl))))
               xy_triangle_unit_z).
Defined.

(** X13. For collinear points form 'n' returns a non-finite array; a
    function of form 'z' is non-finite everywhere when the normal has no
    z component; any form other than 'n', 'x', 'y', 'z' raises
    UnboundLocalError at [return P]. *)
Theorem X13_three_point_plane_edge_cases (p1 p2 p3 : vec3) :
  (norm (raw_normal p1 p2 p3) = 0 ->
     ThreePointPlane p1 p2 p3 "n" = Ok (Normal NonFinite))
  /\ (v2 (unit_normal p1 p2 p3) = 0 ->
      exists P, ThreePointPlane p1 p2 p3 "z" = Ok (Graph P)
                /\ forall x y, P x y = NonFinite)
  /\ (forall Form : string,
        Form <> "n"%string -> Form <> "x"%string -> Form <> "y"%string ->
        Form <> "z"%string ->
        ThreePointPlane p1 p2 p3 Form = Raise UnboundLocalError).
Proof.
  split; [|split].
  - intros H. unfold ThreePointPlane. cbn [String.eqb Ascii.eqb Bool.eqb].
    rewrite (Reqb_true _ _ H). reflexivity.
  - intros H. unfold ThreePointPlane. cbn [String.eqb Ascii.eqb Bool.eqb].
    eexists. split; [reflexivity|]. intros x y. cbv beta.
    rewrite (Reqb_true _ _ H), orb_true_r. reflexivity.
  - intros Form Hn Hx Hy Hz. unfold ThreePointPlane.
    apply String.eqb_neq in Hn, Hx, Hy, Hz. rewrite Hn, Hx, Hy, Hz. reflexivity.
Qed.

Lemma X13_three_point_plane_edge_cases_witness :
  ThreePointPlane (V3 0 0 0) (V3 1 0 0) (V3 0 1 0) "normal"
  = Raise UnboundLocalError.
Proof.
  apply (proj2 (proj2 (X13_three_point_plane_edge_cases
                         (V3 0 0 0) (V3 1 0 0) (V3 0 1 0))));
    discriminate.
Defined.

(** X14. For a direction [v0] that is not zero, type 'Line' returns a
    point of the line through [p0] along [v0], the residual is orthogonal
    to [v0], and projecting the result again gives the result. *)
Theorem X14_point_projection_line (v p0 p : vec3) :
  dot v v <> 0 ->
  exists q : vec3,
    PointProjection "Line" v p0 p = Ok (Finite q)
    /\ (exists t : R, q = vadd p0 (vscale t v))
    /\ dot (vsub p q) v = 0
    /\ PointProjection "Line" v p0 q = Ok (Finite q).
Proof.
  intros Hv.
  exists (vadd p0 (vscale (dot v (vsub p p0) / dot v v) v)).
  unfold PointProjection. cbn [String.eqb Ascii.eqb Bool.eqb].
  rewrite (Reqb_false _ _ Hv).
  split; [reflexivity|]. split; [eexists; reflexivity|].
  set (k := dot v v) in *.
  assert (Hk : k = dot v v) by reflexivity. clearbody k.
  destruct v as [a b c], p0 as [x0 y0 z0], p as [x y z].
  cbv [dot vsub vadd vscale v0 v1 v2] in *.
  split.
  - transitivity ((a * (x - x0) + b * (y - y0) + c * (z - z0))
                  * (1 - (a * a + b * b + c * c) / k)); [field; exact Hv|].
    rewrite <- Hk. field. exact Hv.
  - do 2 f_equal. apply vec3_eq; cbv [v0 v1 v2].
    all: match goal with |- ?x0 + ?t' * ?a = ?x0 + ?t * ?a =>
           replace t' with t; [reflexivity|] end.
    all: transitivity ((a * (x - x0) + b * (y - y0) + c * (z - z0)) / k
                       * ((a * a + b * b + c * c) / k)); [|field; exact Hv].
    all: rewrite <- Hk; field; exact Hv.
Qed.

Lemma X14_point_projection_line_witness :
  exists q : vec3,
    PointProjection "Line" (V3 1 0 0) (V3 0 0 0) (V3 3 4 0) = Ok (Finite q)
    /\ (exists t : R, q = vadd (V3 0 0 0) (vscale t (V3 1 0 0)))
    /\ dot (vsub (V3 3 4 0) q) (V3 1 0 0) = 0
    /\ PointProjection "Line" (V3 1 0 0) (V3 0 0 0) q = Ok (Finite q).
Proof.
  apply (X14_point_projection_line (V3 1 0 0) (V3 0 0 0) (V3 3 4 0)).
  cbv [dot v0 v1 v2]. lra.
Defined.

(** X15. Type 'Plane' returns [q] with [p - q] along [v0] and
    [v0 . (q - p0) = (1 - |v0|^2) v0 . (p - p0)]; for a unit normal [q] is
    on the plane through [p0] and projecting it again gives [q]. *)
Theorem X15_point_projection_plane (v p0 p : vec3) :
  exists q : vec3,
    PointProjection "Plane" v p0 p = Ok (Finite q)
    /\ vsub p q = vscale (dot v (vsub p p0)) v
    /\ dot v (vsub q p0) = (1 - dot v v) * dot v (vsub p p0)
    /\ (dot v v = 1 ->
        dot v (vsub q p0) = 0
        /\ PointProjection "Plane" v p0 q = Ok (Finite q)).
Proof.
  exists (vsub p (vscale (dot v p - dot v p0) v)).
  unfold PointProjection. cbn [String.eqb Ascii.eqb Bool.eqb].
  split; [reflexivity|].
  assert (E3 : dot v (vsub (vsub p (vscale (dot v p - dot v p0) v)) p0)
               = (1 - dot v v) * dot v (vsub p p0)).
  { destruct v as [a b c], p0 as [x0 y0 z0], p as [x y z].
    cbv [dot vsub vscale v0 v1 v2]. ring. }
  split; [|split; [exact E3|]].
  - destruct v as [a b c], p0 as [x0 y0 z0], p as [x y z].
    apply vec3_eq; cbv [dot vsub vscale v0 v1 v2]; ring.
  - intros Hu. rewrite Hu in E3.
    assert (E0 : dot v (vsub (vsub p (vscale (dot v p - dot v p0) v)) p0) = 0)
      by (rewrite E3; ring).
    split; [exact E0|]. do 2 f_equal.
    set (q := vsub p (vscale (dot v p - dot v p0) v)) in *.
    assert (Ed : dot v q - dot v p0 = 0).
    { rewrite <- E0. destruct v, q, p0. cbv [dot vsub v0 v1 v2]. ring. }
    rewrite Ed. destruct q, v. apply vec3_eq; cbv [vsub vscale v0 v1 v2]; ring.
Qed.

Lemma X15_point_projection_plane_witness :
  exists q : vec3,
    PointProjection "Plane" (V3 0 0 1) (V3 0 0 1) (V3 3 4 5) = Ok (Finite q)
    /\ dot (V3 0 0 1) (vsub q (V3 0 0 1)) = 0
    /\ PointProjection "Plane" (V3 0 0 1) (V3 0 0 1) q = Ok (Finite q).
Proof.
  destruct (X15_point_projection_plane (V3 0 0 1) (V3 0 0 1) (V3 3 4 5))
    as (q & H1 & _ & _ & H4).
  exists q. split; [exact H1|]. apply H4. cbv [dot v0 v1 v2]. lra.
Defined.

(** X16. Type 'Line' with a zero direction returns a non-finite array;
    any type other than 'Line' and 'Plane' raises UnboundLocalError at
    [return proj]. *)
Theorem X16_point_projection_edge_cases (v p0 p : vec3) :
  (dot v v = 0 -> PointProjection "Line" v p0 p = Ok NonFinite)
  /\ (forall Type_ : string,
        Type_ <> "Line"%string -> Type_ <> "Plane"%string ->
        PointProjection Type_ v p0 p = Raise UnboundLocalError).
Proof.
  split.
  - intros H. unfold PointProjection. cbn [String.eqb Ascii.eqb Bool.eqb].
    rewrite (Reqb_true _ _ H). reflexivity.
  - intros Type_ Hl Hp. unfold PointProjection.
    apply String.eqb_neq in Hl, Hp. rewrite Hl, Hp. reflexivity.
Qed.

Lemma X16_point_projection_edge_cases_witness :
  PointProjection "Line" (V3 0 0 0) (V3 1 2 3) (V3 3 4 0) = Ok NonFinite
  /\ PointProjection "Point" (V3 1 0 0) (V3 0 0 0) (V3 3 4 0)
     = Raise UnboundLocalError.
Proof.
  split.
  - apply (proj1 (X16_point_projection_edge_cases
                    (V3 0 0 0) (V3 1 2 3) (V3 3 4 0))).
    cbv [dot v0 v1 v2]. lra.
  - apply (proj2 (X16_point_projection_edge_cases
                    (V3 1 0 0) (V3 0 0 0) (V3 3 4 0))); discriminate.
Defined.

End GeometryMore.

(* ===================================================================== *)
(** * More theorems: DoubleWishbone.py and KinematicSystem.py *)
(* ===================================================================== *)

Module DesignMore.
Import Geometry DoubleWishbone Vocabulary MoreVocabulary GeometryFacts DesignFacts.

Lemma known_axle_tire (s : KinematicSystem) :
  known_axle s -> exists x, tire_longitudinal (Target s) = Some x.
Proof.
  unfold tire_longitudinal. intros [H | H]; rewrite H; eexists; reflexivity.
Qed.

Lemma unknown_axle_tire (s : KinematicSystem) :
  Axle (Type_ (Target s)) <> "Front"%string ->
  Axle (Type_ (Target s)) <> "Rear"%string ->
  tire_longitudinal (Target s) = None.
Proof.
  intros HF HR. unfold tire_longitudinal.
  apply String.eqb_neq in HF, HR. rewrite HF, HR. reflexivity.
Qed.

Lemma reaches_reached (s : KinematicSystem) (c : R) :
  reaches s c -> exists x, tire_longitudinal (Target s) = Some x
                           /\ after Design s = reached x c s.
Proof.
  intros [Hax Hc]. destruct (known_axle_tire s Hax) as [x Hx].
  exists x. split; [exact Hx|].
  rewrite after_Design, (Design_run_reached s x c Hx Hc). reflexivity.
Qed.

(** The driver's system with a CG array gets past the known parameters. *)
Lemma driver_reaches (axle : string) (wd : R * R) (c : R) :
  axle = "Front"%string \/ axle = "Rear"%string ->
  reaches (driver_system axle wd (Arr [0; 0; c])) c.
Proof. intros H. split; [exact H | reflexivity]. Qed.

(** ** Errors *)

(** X17. With an axle label other than 'Front' and 'Rear', [Design]
    raises its exception before it writes anything: the system is as it
    was. *)
Theorem X17_design_unknown_axle (s : KinematicSystem) :
  Axle (Type_ (Target s)) <> "Front"%string ->
  Axle (Type_ (Target s)) <> "Rear"%string ->
  Design s = (Raise AxleNotRecognized, s).
Proof.
  intros HF HR. rewrite Design_spec.
  apply Design_run_unknown_axle, unknown_axle_tire; assumption.
Qed.

Lemma X17_design_unknown_axle_witness :
  Design (driver_system "Middle" (50.0, 50.0) (Num (8.50 * 25.4)))
  = (Raise AxleNotRecognized,
     driver_system "Middle" (50.0, 50.0) (Num (8.50 * 25.4))).
Proof.
  apply X17_design_unknown_axle; discriminate.
Defined.

Lemma getitem_cases (cg : value) :
  match cg with
  | Num _ => getitem cg 2 = Raise TypeError
  | Arr xs => ((List.length xs < 3)%nat /\ getitem cg 2 = Raise IndexError)
              \/ ((3 <= List.length xs)%nat /\ exists c, getitem cg 2 = Ok c)
  end.
Proof.
  destruct cg as [x | xs]; [reflexivity|].
  unfold getitem. destruct (nth_error xs 2) as [c|] eqn:E.
  - right. split; [|exists c; reflexivity].
    assert (H : nth_error xs 2 <> None) by (rewrite E; discriminate).
    apply nth_error_Some in H. lia.
  - left. split; [|reflexivity]. apply nth_error_None in E. lia.
Qed.

(** X18. With a known axle label, how [Design] ends is decided by the CG
    entry: a plain number raises TypeError and an array of fewer than
    three numbers raises IndexError, both at the body frame, with Target,
    Bound and hardpoints as they were; an array of three numbers or more
    raises ValueError at the roll centre. *)
Theorem X18_design_outcome (s : KinematicSystem) :
  known_axle s ->
  (forall x, CG (Vehicle (Target s)) = Num x ->
     result Design s = Raise TypeError
     /\ Target (after Design s) = Target s /\ Bound (after Design s) = Bound s
     /\ forall P, poi (nodes (after Design s)) P = poi (nodes s) P)
  /\ (forall xs, CG (Vehicle (Target s)) = Arr xs -> (List.length xs < 3)%nat ->
     result Design s = Raise IndexError
     /\ Target (after Design s) = Target s /\ Bound (after Design s) = Bound s
     /\ forall P, poi (nodes (after Design s)) P = poi (nodes s) P)
  /\ (forall xs, CG (Vehicle (Target s)) = Arr xs -> (3 <= List.length xs)%nat ->
     result Design s = Raise ValueError).
Proof.
  intros Hax. destruct (known_axle_tire s Hax) as [x Hx].
  rewrite result_Design, after_Design.
  pose proof (getitem_cases (CG (Vehicle (Target s)))) as Hc.
  split; [|split].
  - intros y Hy. rewrite Hy in Hc.
    rewrite (Design_run_no_CG s x TypeError Hx); [|rewrite Hy; exact Hc].
    split; [reflexivity|]. split; [reflexivity|]. split; [reflexivity|].
    intros P. destruct P; reflexivity.
  - intros xs Hxs Hlen. rewrite Hxs in Hc.
    destruct Hc as [[_ Hc] | [Hc _]]; [|lia].
    rewrite (Design_run_no_CG s x IndexError Hx); [|rewrite Hxs; exact Hc].
    split; [reflexivity|]. split; [reflexivity|]. split; [reflexivity|].
    intros P. destruct P; reflexivity.
  - intros xs Hxs Hlen. rewrite Hxs in Hc.
    destruct Hc as [[Hc _] | [_ [c Hc]]]; [lia|].
    rewrite (Design_run_reached s x c Hx); [reflexivity|].
    rewrite Hxs. exact Hc.
Qed.

Lemma X18_design_outcome_witness :
  result Design (driver_system "Front" (50.0, 50.0) (Num (8.50 * 25.4)))
  = Raise TypeError
  /\ result Design (driver_system "Front" (50.0, 50.0) (Arr [0; 8.50 * 25.4]))
     = Raise IndexError
  /\ result Design (driver_system "Front" (50.0, 50.0) (Arr [0; 0; 8.50 * 25.4]))
     = Raise ValueError.
Proof.
  split; [|split].
  - apply (proj1 (X18_design_outcome
                    (driver_system "Front" (50.0, 50.0) (Num (8.50 * 25.4)))
                    (or_introl eq_refl)) (8.50 * 25.4) eq_refl).
  - apply (proj1 (proj2 (X18_design_outcome
                    (driver_system "Front" (50.0, 50.0) (Arr [0; 8.50 * 25.4]))
                    (or_introl eq_refl))) [0; 8.50 * 25.4] eq_refl).
    simpl. lia.
  - apply (proj2 (proj2 (X18_design_outcome
                    (driver_system "Front" (50.0, 50.0) (Arr [0; 0; 8.50 * 25.4]))
                    (or_introl eq_refl))) [0; 0; 8.50 * 25.4] eq_refl).
    simpl. lia.
Defined.

(** ** The frames *)

Lemma Design_run_tire_wheel (s : KinematicSystem) (x : R) :
  tire_longitudinal (Target s) = Some x ->
  T (nodes (snd (Design_run s))) = T (nodes (tire_wheel_written x s))
  /\ W (nodes (snd (Design_run s)))
     = with_PoI (fun _ => PoI (W (nodes (snd (Design_run s)))))
                (W (nodes (tire_wheel_written x s))).
Proof.
  intros Hx. unfold Design_run. rewrite Hx. cbv zeta.
  destruct (getitem (CG (Vehicle (Target s))) 2) as [c|e]; split; reflexivity.
Qed.

(** X19. With a known axle label, however the run ends, the tire frame
    is at lateral position track/2 with rotation (-camber, ., toe), the
    wheel frame has rotation (., -caster, .) and is at height
    loadedRadius / cos(camber), which is at least the loaded radius for a
    camber within a quarter turn. *)
Theorem X19_design_tire_and_wheel (s : KinematicSystem) :
  known_axle s ->
  let n := nodes (after Design s) in
  let t := Target s in
  v1 (Position (T n)) = Track (Linkage_ t) / 2
  /\ v0 (Rotation (T n)) = - Camber (Linkage_ t)
  /\ v2 (Rotation (T n)) = Toe (Linkage_ t)
  /\ v2 (Position (W n)) = LoadedRadius (Vehicle t) / cos (Camber (Linkage_ t))
  /\ v1 (Rotation (W n)) = - Caster (Linkage_ t)
  /\ (- (PI / 2) < Camber (Linkage_ t) < PI / 2 ->
      0 <= LoadedRadius (Vehicle t) ->
      LoadedRadius (Vehicle t) <= v2 (Position (W n))).
Proof.
  intros Hax n t. destruct (known_axle_tire s Hax) as [x Hx].
  subst n. rewrite after_Design.
  destruct (Design_run_tire_wheel s x Hx) as [HT HW]. rewrite HT, HW.
  assert (Hw : v2 (Position (with_PoI
                 (fun _ => PoI (W (nodes (snd (Design_run s)))))
                 (W (nodes (tire_wheel_written x s)))))
               = LoadedRadius (Vehicle t) / cos (Camber (Linkage_ t))).
  { change (v2 (Position (with_PoI
                 (fun _ => PoI (W (nodes (snd (Design_run s)))))
                 (W (nodes (tire_wheel_written x s))))))
      with (LoadedRadius (Vehicle t) / sin (PI / 2 - Camber (Linkage_ t))).
    rewrite sin_shift. reflexivity. }
  split; [reflexivity|]. split; [reflexivity|]. split; [reflexivity|].
  split; [exact Hw|]. split; [reflexivity|].
  intros Hc Hr. rewrite Hw.
  assert (Hpos : 0 < cos (Camber (Linkage_ t))) by (apply cos_gt_0; lra).
  pose proof (COS_bound (Camber (Linkage_ t))) as [_ Hle].
  apply (Rmult_le_reg_r (cos (Camber (Linkage_ t)))); [exact Hpos|].
  unfold Rdiv. rewrite Rmult_assoc, Rinv_l, Rmult_1_r; [|lra].
  nra.
Qed.

Lemma X19_design_tire_and_wheel_witness :
  let s := driver_system "Front" (50.0, 50.0) (Num (8.50 * 25.4)) in
  v1 (Position (T (nodes (after Design s)))) = 1220 / 2
  /\ 7.85 * 25.4 <= v2 (Position (W (nodes (after Design s)))).
Proof.
  intros s.
  destruct (X19_design_tire_and_wheel s (or_introl eq_refl))
    as (H1 & _ & _ & _ & _ & H6).
  split; [exact H1|]. apply H6.
  - cbv [s driver_system driver_target Target Linkage_ Camber].
    pose proof PI_RGT_0. lra.
  - cbv [s driver_system driver_target Target Vehicle LoadedRadius]. lra.
Defined.

(** X20. In a run that gets past the known parameters, the body frame is
    at the height [CG[2]] with pitch [Rake], the heights of the body frame
    and of the axle frame add up to the ride height, and the axle frame
    and the roll centre are at the tire frame's longitudinal position. *)
Theorem X20_design_body_and_axle (s : KinematicSystem) (c : R) :
  reaches s c ->
  let n := nodes (after Design s) in
  v2 (Position (B n)) = c
  /\ v1 (Rotation (B n)) = Rake (Vehicle (Target s))
  /\ v2 (Position (B n)) + v2 (Position (X n)) = Ride (Vehicle (Target s))
  /\ v0 (Position (X n)) = v0 (Position (T n))
  /\ v0 (RC (PoI (I n))) = v0 (Position (T n)).
Proof.
  intros H n. destruct (reaches_reached s c H) as (x & Hx & E).
  subst n. rewrite E.
  split; [reflexivity|]. split; [reflexivity|].
  split; [|split; reflexivity].
  change (c + (Ride (Vehicle (Target s)) - c) = Ride (Vehicle (Target s))). ring.
Qed.

Lemma X20_design_body_and_axle_witness :
  let n := nodes (after Design
             (driver_system "Front" (50.0, 50.0) (Arr [0; 0; 8.50 * 25.4]))) in
  v2 (Position (B n)) = 8.50 * 25.4
  /\ v1 (Rotation (B n)) = 0 * (PI / 180)
  /\ v2 (Position (B n)) + v2 (Position (X n)) = 2 * 25.4
  /\ v0 (Position (X n)) = v0 (Position (T n))
  /\ v0 (RC (PoI (I n))) = v0 (Position (T n)).
Proof.
  exact (X20_design_body_and_axle _ _
           (driver_reaches "Front" (50.0, 50.0) (8.50 * 25.4) (or_introl eq_refl))).
Defined.

(** X21. For one vehicle, the tire frame of the front axle is one
    wheelbase ahead of the tire frame of the rear axle. *)
Theorem X21_design_axles_one_wheelbase_apart (sF sR : KinematicSystem) :
  Vehicle (Target sF) = Vehicle (Target sR) ->
  Axle (Type_ (Target sF)) = "Front"%string ->
  Axle (Type_ (Target sR)) = "Rear"%string ->
  v0 (Position (T (nodes (after Design sF))))
  - v0 (Position (T (nodes (after Design sR))))
  = Wheelbase (Vehicle (Target sF)).
Proof.
  intros Hv HF HR. rewrite !after_Design.
  rewrite (Design_run_tire sF
             (Wheelbase (Vehicle (Target sF))
              * (1 - fst (WeightDist (Vehicle (Target sF))) / 100)));
    [|unfold tire_longitudinal; rewrite HF; reflexivity].
  rewrite (Design_run_tire sR
             (Wheelbase (Vehicle (Target sR))
              * - fst (WeightDist (Vehicle (Target sR))) / 100));
    [|unfold tire_longitudinal; rewrite HR; reflexivity].
  rewrite <- Hv. field.
Qed.

Lemma X21_design_axles_one_wheelbase_apart_witness :
  v0 (Position (T (nodes (after Design
        (driver_system "Front" (60, 50) (Num (8.50 * 25.4)))))))
  - v0 (Position (T (nodes (after Design
        (driver_system "Rear" (60, 50) (Num (8.50 * 25.4)))))))
  = 1525.
Proof.
  exact (X21_design_axles_one_wheelbase_apart
           (driver_system "Front" (60, 50) (Num (8.50 * 25.4)))
           (driver_system "Rear" (60, 50) (Num (8.50 * 25.4)))
           eq_refl eq_refl eq_refl).
Defined.

(** X24. No run of [Design] touches the frames of the A-arms and of the
    tie rod, the instant centres and the pitch centre, the lateral
    position of the roll centre, the tire frame's height and pitch, the
    default points and DoF masks of the frames, or the edges. *)
Theorem X24_design_leaves_untouched (s : KinematicSystem) :
  let n := nodes s in
  let n' := nodes (after Design s) in
  LA n' = LA n /\ UA n' = UA n /\ TR n' = TR n
  /\ FC (PoI (I n')) = FC (PoI (I n)) /\ PC (PoI (I n')) = PC (PoI (I n))
  /\ SC (PoI (I n')) = SC (PoI (I n))
  /\ v1 (RC (PoI (I n'))) = v1 (RC (PoI (I n)))
  /\ v2 (Position (T n')) = v2 (Position (T n))
  /\ v1 (Rotation (T n')) = v1 (Rotation (T n))
  /\ (Default (I n'), Default (T n'), Default (W n'), Default (B n'),
      Default (X n'))
     = (Default (I n), Default (T n), Default (W n), Default (B n),
        Default (X n))
  /\ (DoF (I n'), DoF (T n'), DoF (W n'), DoF (B n'), DoF (X n'))
     = (DoF (I n), DoF (T n), DoF (W n), DoF (B n), DoF (X n))
  /\ edges (after Design s) = edges s.
Proof.
  intros n n'. subst n n'. rewrite after_Design. unfold Design_run.
  destruct (tire_longitudinal (Target s)) as [x|];
    [cbv zeta; destruct (getitem (CG (Vehicle (Target s))) 2) as [c|e] |];
    repeat split; reflexivity.
Qed.

(** ** The sampling *)

Lemma resolve_within (lo hi x : R) :
  lo <= hi -> 0 <= x <= 1 -> lo <= lo + x * (hi - lo) <= hi.
Proof. intros H [H0 H1]. split; nra. Qed.

Lemma driver_bound_ordered : ordered driver_bound.
Proof.
  intros P i. destruct P; destruct i as [|[|i]];
    cbv [driver_bound lookup row row0 row1 row2 fst snd
         t_LAF t_LAR t_UAF t_UAR t_TA t_LB t_UB t_TB]; lra.
Qed.

Lemma driver_sample_normalized : normalized driver_sample.
Proof.
  intros P i. destruct P; destruct i as [|[|i]];
    cbv [driver_sample lookup entry v0 v1 v2
         t_LAF t_LAR t_UAF t_UAR t_TA t_LB t_UB t_TB]; lra.
Qed.

(** X22. In a run that gets past the known parameters, with every Bound
    interval ordered and every Sample entry in [0,1], each resolved
    coordinate of each hardpoint lies within the interval that the Bound
    holds for it after the run, inherited rows included. *)
Theorem X22_design_positions_within_bounds (s : KinematicSystem) (c : R) :
  reaches s c -> ordered (Bound s) -> normalized (Sample s) ->
  forall (P : hardpoint) (i : nat),
    fst (row (lookup (Bound (after Design s)) P) i)
    <= entry (poi (nodes (after Design s)) P) i
    <= snd (row (lookup (Bound (after Design s)) P) i).
Proof.
  intros H Hb Hs P i. destruct (reaches_reached s c H) as (x & Hx & E).
  rewrite E, poi_reached.
  change (Bound (reached x c s)) with (sampled_bound (Bound s)).
  rewrite sampled_bound_rows, (sampled_poi_entry (Bound s) (Sample s) P i).
  destruct (inherited (Bound s) P i) eqn:Hi.
  - rewrite (sampled_poi_entry (Bound s) (Sample s) (sibling P i) i),
            (sibling_not_inherited _ _ _ Hi), resolve_entry.
    apply resolve_within; [apply Hb | apply Hs].
  - rewrite resolve_entry. apply resolve_within; [apply Hb | apply Hs].
Qed.

Lemma X22_design_positions_within_bounds_witness :
  let s := driver_system "Front" (50.0, 50.0) (Arr [0; 0; 8.50 * 25.4]) in
  fst (row (lookup (Bound (after Design s)) LAR) 1)
  <= entry (poi (nodes (after Design s)) LAR) 1
  <= snd (row (lookup (Bound (after Design s)) LAR) 1).
Proof.
  intros s.
  apply (X22_design_positions_within_bounds s (8.50 * 25.4)
           (driver_reaches "Front" (50.0, 50.0) (8.50 * 25.4) (or_introl eq_refl))
           driver_bound_ordered driver_sample_normalized).
Defined.

Lemma sample_mapping (s : KinematicSystem) (c : R) (P : hardpoint) (i : nat) :
  reaches s c -> inherited (Bound s) P i = false ->
  entry (poi (nodes (after Design s)) P) i
  = fst (row (lookup (Bound s) P) i)
    + entry (lookup (Sample s) P) i
      * (snd (row (lookup (Bound s) P) i) - fst (row (lookup (Bound s) P) i)).
Proof.
  intros H Hi. destruct (reaches_reached s c H) as (x0 & Hx & E).
  rewrite E, poi_reached,
    (sampled_poi_entry (Bound s) (Sample s) P i), Hi, resolve_entry.
  reflexivity.
Qed.

(** X23. In a run that gets past the known parameters, on an axis that
    does not inherit, the resolved coordinate is
    boundMin + sample (boundMax - boundMin): boundMin for the sample 0,
    boundMax for 1, the midpoint for 1/2. *)
Theorem X23_design_sample_mapping (s : KinematicSystem) (c : R)
        (P : hardpoint) (i : nat) :
  reaches s c -> inherited (Bound s) P i = false ->
  let lo := fst (row (lookup (Bound s) P) i) in
  let hi := snd (row (lookup (Bound s) P) i) in
  let x := entry (lookup (Sample s) P) i in
  let pos := entry (poi (nodes (after Design s)) P) i in
  pos = lo + x * (hi - lo)
  /\ (x = 0 -> pos = lo) /\ (x = 1 -> pos = hi)
  /\ (x = 1 / 2 -> pos = (lo + hi) / 2).
Proof.
  intros H Hi lo hi x pos.
  assert (Hp : pos = lo + x * (hi - lo)) by (apply (sample_mapping s c P i H Hi)).
  split; [exact Hp|]. rewrite Hp.
  split; [|split]; intros ->; lra.
Qed.

Lemma X23_design_sample_mapping_witness :
  let s := driver_system "Front" (50.0, 50.0) (Arr [0; 0; 8.50 * 25.4]) in
  entry (poi (nodes (after Design s)) TB) 0 = 2.85.
Proof.
  intros s.
  apply (proj1 (proj2 (proj2
           (X23_design_sample_mapping s (8.50 * 25.4) TB 0%nat
              (driver_reaches "Front" (50.0, 50.0) (8.50 * 25.4) (or_introl eq_refl))
              eq_refl)))).
  reflexivity.
Defined.

(** ** Init *)

Lemma default_sample_binary (P : hardpoint) (i : nat) :
  entry (lookup default_sample P) i = 0 \/ entry (lookup default_sample P) i = 1.
Proof.
  destruct P; destruct i as [|[|i]]; cbv [default_sample lookup entry
    t_LAF t_LAR t_UAF t_UAR t_TA t_LB t_UB t_TB v0 v1 v2]; auto.
Qed.

Lemma Init_sample_binary (target : TargetT) (bound : table mat32)
      (P : hardpoint) (i : nat) :
  entry (lookup (Sample (Init target bound)) P) i = 0
  \/ entry (lookup (Sample (Init target bound)) P) i = 1.
Proof.
  cbv [Init Sample]. rewrite lookup_restrict_samples, restrict_entry.
  destruct (Reqb _ 0); [left; reflexivity | apply default_sample_binary].
Qed.

(** X25. [Init] keeps the Target and the Bound it is given; every entry
    of the Sample it builds is 0 or 1, and it is the entry of the default
    structure wherever the Bound interval has a width. *)
Theorem X25_init_sample_structure (target : TargetT) (bound : table mat32)
        (P : hardpoint) (i : nat) :
  let x := entry (lookup (Sample (Init target bound)) P) i in
  (x = 0 \/ x = 1)
  /\ (snd (row (lookup bound P) i) <> fst (row (lookup bound P) i) ->
      x = entry (lookup default_sample P) i)
  /\ Target (Init target bound) = target /\ Bound (Init target bound) = bound.
Proof.
  intros x. subst x.
  split; [apply Init_sample_binary|]. split; [|split; reflexivity].
  cbv [Init Sample]. rewrite lookup_restrict_samples, restrict_entry.
  intros H. rewrite Reqb_false; [reflexivity | lra].
Qed.

Lemma X25_init_sample_structure_witness :
  entry (lookup (Sample (Init (driver_target "Front" (50.0, 50.0)
                                 (Num (8.50 * 25.4))) driver_bound)) LAF) 1
  = entry (lookup default_sample LAF) 1.
Proof.
  apply (proj1 (proj2 (X25_init_sample_structure
           (driver_target "Front" (50.0, 50.0) (Num (8.50 * 25.4)))
           driver_bound LAF 1%nat))).
  cbv [driver_bound lookup row row1 t_LAF fst snd]. lra.
Defined.

(** X26. On a system as [Init] builds it, a run of [Design] that gets
    past the known parameters puts every coordinate that does not inherit
    at an end of its Bound interval. *)
Theorem X26_init_then_design_at_interval_ends (target : TargetT)
        (bound : table mat32) (c : R) (P : hardpoint) (i : nat) :
  reaches (Init target bound) c -> inherited bound P i = false ->
  let pos := entry (poi (nodes (after Design (Init target bound))) P) i in
  pos = fst (row (lookup bound P) i) \/ pos = snd (row (lookup bound P) i).
Proof.
  intros H Hi pos. subst pos.
  rewrite (sample_mapping (Init target bound) c P i H Hi).
  change (Bound (Init target bound)) with bound.
  destruct (Init_sample_binary target bound P i) as [E | E]; rewrite E.
  - left. ring.
  - right. ring.
Qed.

Lemma X26_init_then_design_at_interval_ends_witness :
  let s := Init (driver_target "Front" (50.0, 50.0) (Arr [0; 0; 8.50 * 25.4]))
                driver_bound in
  entry (poi (nodes (after Design s)) TB) 2 = fst (row (lookup driver_bound TB) 2)
  \/ entry (poi (nodes (after Design s)) TB) 2
     = snd (row (lookup driver_bound TB) 2).
Proof.
  intros s.
  apply (X26_init_then_design_at_interval_ends
           (driver_target "Front" (50.0, 50.0) (Arr [0; 0; 8.50 * 25.4]))
           driver_bound (8.50 * 25.4) TB 2%nat).
  - split; [left; reflexivity | reflexivity].
  - reflexivity.
Defined.

(** ** Running again, and GenerateDesign *)

Lemma sampled_bound_idempotent (b : table mat32) :
  sampled_bound (sampled_bound b) = sampled_bound b.
Proof.
  destruct b as [[f0 f1 f2] [g0 g1 g2] [h0 h1 h2] [k0 k1 k2] bTA bLB bUB bTB].
  zero_rows; reflexivity.
Qed.

(** X27. The Bound is widened once: a second run of [Design] leaves the
    Bound as the first run left it. *)
Theorem X27_design_widens_bounds_once (s : KinematicSystem) :
  Bound (after Design (after Design s)) = Bound (after Design s).
Proof.
  rewrite !after_Design.
  destruct (tire_longitudinal (Target s)) as [x|] eqn:Hx.
  - destruct (getitem (CG (Vehicle (Target s))) 2) as [c|e] eqn:Hc.
    + rewrite (Design_run_reached s x c Hx Hc). cbv [snd].
      rewrite (Design_run_reached (reached x c s) x c Hx Hc). cbv [snd].
      change (sampled_bound (sampled_bound (Bound s)) = sampled_bound (Bound s)).
      apply sampled_bound_idempotent.
    + rewrite (Design_run_no_CG s x e Hx Hc). cbv [snd].
      rewrite (Design_run_no_CG (tire_wheel_written x s) x e Hx Hc). reflexivity.
  - rewrite (Design_run_unknown_axle s Hx). cbv [snd].
    rewrite (Design_run_unknown_axle s Hx). reflexivity.
Qed.

Lemma Design_raises (s : KinematicSystem) :
  exists e s', Design s = (Raise e, s').
Proof.
  rewrite Design_spec. unfold Design_run.
  destruct (tire_longitudinal (Target s)); [|eauto].
  cbv zeta. destruct (getitem _ 2); eauto.
Qed.

(** X28. [GenerateDesign] returns normally exactly when none of the
    names it is given is 'Linkage', 'Strut' or 'Spring', and then the
    system is as it was: every generator it can call raises. *)
Theorem X28_generate_design_outcome (System : list string) (s : KinematicSystem) :
  (existsb generated System = false -> GenerateDesign System s = (Ok tt, s))
  /\ (existsb generated System = true ->
      exists e, result (GenerateDesign System) s = Raise e).
Proof.
  unfold GenerateDesign.
  induction System as [|Sys rest IH]; cbn [existsb GenerateDesign_from].
  - split; [reflexivity | discriminate].
  - unfold generated at 1 3.
    destruct (Sys =? "Linkage")%string.
    + cbn [orb]. split; [discriminate|]. intros _.
      unfold result, bind, get.
      destruct (Linkage (Type_ (Target s)) =? "Double Wishbone")%string.
      * destruct (Design_raises s) as (e & s' & ->). exists e. reflexivity.
      * exists KeyError. reflexivity.
    + destruct (Sys =? "Strut")%string.
      * cbn [orb]. split; [discriminate|]. intros _. exists KeyError. reflexivity.
      * destruct (Sys =? "Spring")%string.
        -- cbn [orb]. split; [discriminate|]. intros _. exists TypeError. reflexivity.
        -- cbn [orb]. exact IH.
Qed.

Lemma X28_generate_design_outcome_witness :
  let s := driver_system "Front" (50.0, 50.0) (Num (8.50 * 25.4)) in
  GenerateDesign ["Damper"; "ARB"]%string s = (Ok tt, s)
  /\ exists e, result (GenerateDesign ["Damper"; "Linkage"]%string) s = Raise e.
Proof.
  intros s. split.
  - apply (proj1 (X28_generate_design_outcome ["Damper"; "ARB"]%string s)).
    reflexivity.
  - apply (proj2 (X28_generate_design_outcome ["Damper"; "Linkage"]%string s)).
    reflexivity.
Defined.

(** X29. A request for 'Strut' raises KeyError and one for 'Spring'
    raises TypeError, with the system as it was; a request for 'Linkage'
    raises KeyError for a linkage type other than 'Double Wishbone' and is
    [Design] for that type. *)
Theorem X29_generate_design_subsystems (rest : list string) (s : KinematicSystem) :
  GenerateDesign ("Strut"%string :: rest) s = (Raise KeyError, s)
  /\ GenerateDesign ("Spring"%string :: rest) s = (Raise TypeError, s)
  /\ (Linkage (Type_ (Target s)) <> "Double Wishbone"%string ->
      GenerateDesign ("Linkage"%string :: rest) s = (Raise KeyError, s))
  /\ (Linkage (Type_ (Target s)) = "Double Wishbone"%string ->
      GenerateDesign ("Linkage"%string :: rest) s = Design s).
Proof.
  split; [reflexivity|]. split; [reflexivity|]. split.
  - intros H. apply String.eqb_neq in H.
    unfold GenerateDesign, GenerateDesign_from.
    change ("Linkage" =? "Linkage")%string with true. cbv iota.
    unfold bind at 1. unfold get. rewrite H. reflexivity.
  - intros H. unfold GenerateDesign. cbn [GenerateDesign_from].
    change ("Linkage" =? "Linkage")%string with true. cbv iota.
    unfold bind at 1. unfold get. rewrite H.
    change ("Double Wishbone" =? "Double Wishbone")%string with true. cbv iota.
    unfold bind. destruct (Design_raises s) as (e & s' & ->). reflexivity.
Qed.

Lemma X29_generate_design_subsystems_witness :
  let s := driver_system "Front" (50.0, 50.0) (Num (8.50 * 25.4)) in
  GenerateDesign ["Linkage"; "Strut"]%string s = Design s.
Proof.
  intros s.
  apply (proj2 (proj2 (proj2
           (X29_generate_design_subsystems ["Strut"%string] s)))).
  reflexivity.
Defined.

End DesignMore.
